(** * DatabaseConfiguration: the cluster configuration model

    A shallow embedding of [fdbserver/DatabaseConfiguration.cpp]: the typed
    configuration fields, the raw snapshot / mutable overlay store, the field
    parser [setInternal], the validity check [isValid], the canonical map
    [toMap] and its rendering [toString], and the store operations [set],
    [clear] and [get].

    Layout: definitions first (byte strings and their order, [std::map] as a
    key-sorted association list, the C library routines [atoi] and
    [format("%d")], the collaborators declared in other files, then the
    member functions in the order of the source), lemmas and theorems after. *)

From Stdlib Require Import ZArith List String Ascii Bool Lia Sorted Permutation.
From Stdlib Require Import OrderedType OrderedTypeEx DecimalString DecimalZ.
Import ListNotations.

Local Open Scope string_scope.
Local Open Scope Z_scope.

(* ------------------------------------------------------------------ *)
(** ** Outcomes of a call *)

(** flow's [Error] carries an integer code. *)
Inductive Error : Type := error_code (code : Z).

(** A call returns normally, leaves by a thrown [Error], or dereferences a
    null [Reference] (undefined behaviour; nothing is known afterwards). *)
Inductive outcome (A : Type) : Type :=
| Normal (a : A)
| Throws (e : Error)
| NullDereference.
Arguments Normal {A} a.
Arguments Throws {A} e.
Arguments NullDereference {A}.

(* ------------------------------------------------------------------ *)
(** ** [std::map<std::string, std::string>]

    The map keeps its entries in ascending key order, keys compared byte by
    byte ([String.compare]).  It is modelled by the list of its entries in
    iteration order; an iterator is a position in that list. *)
Module StdMap.

Definition t : Type := list (string * string).

(** [m[k] = v]: overwrite the entry of [k], or insert it at its place. *)
Fixpoint insert (k v : string) (m : t) : t :=
  match m with
  | [] => [(k, v)]
  | (k', v') :: m' =>
      match String.compare k k' with
      | Lt => (k, v) :: (k', v') :: m'
      | Eq => (k, v) :: m'
      | Gt => (k', v') :: insert k v m'
      end
  end.

(** [m.find(k)], the search of an ordered container. *)
Fixpoint find (k : string) (m : t) : option string :=
  match m with
  | [] => None
  | (k', v') :: m' =>
      match String.compare k k' with
      | Lt => None
      | Eq => Some v'
      | Gt => find k m'
      end
  end.

(** [m.lower_bound(k)]: the position of the first entry whose key is not
    less than [k] ([length m] stands for [m.end()]). *)
Fixpoint lower_bound (m : t) (k : string) : nat :=
  match m with
  | [] => O
  | (k', _) :: m' => if String.ltb k' k then S (lower_bound m' k) else O
  end.

(** [m.erase(first, last)] for positions [first <= last]; the standard
    leaves any other call undefined. *)
Definition erase (m : t) (first last : nat) : t :=
  (firstn first m ++ skipn last m)%list.

Definition key_lt (a b : string * string) : Prop :=
  String.compare (fst a) (fst b) = Lt.

(** The representation invariant: strictly ascending keys. *)
Definition sorted (m : t) : Prop := StronglySorted key_lt m.

End StdMap.

(* ------------------------------------------------------------------ *)
(** ** C library routines *)

Definition isspace (c : ascii) : bool :=
  let n := N_of_ascii c in ((n =? 32) || ((9 <=? n) && (n <=? 13)))%N.

Definition digit_value (c : ascii) : option Z :=
  let n := N_of_ascii c in
  if ((48 <=? n) && (n <=? 57))%N then Some (Z.of_N n - 48) else None.

Fixpoint skip_spaces (s : string) : string :=
  match s with
  | String c s' => if isspace c then skip_spaces s' else s
  | EmptyString => s
  end.

Fixpoint digits (s : string) (acc : Z) : Z :=
  match s with
  | String c s' =>
      match digit_value c with
      | Some d => digits s' (10 * acc + d)
      | None => acc
      end
  | EmptyString => acc
  end.

(** [strtol(s, NULL, 10)] with a 64-bit [long]: leading white space, an
    optional sign, the longest run of digits, clamped to the range of
    [long]. *)
Definition strtol10 (s : string) : Z :=
  let z := match skip_spaces s with
           | String "-"%char s' => - digits s' 0
           | String "+"%char s' => digits s' 0
           | s' => digits s' 0
           end in
  Z.max (- 2 ^ 63) (Z.min (2 ^ 63 - 1) z).

(** [atoi]: never fails; text with no leading number gives 0.  C leaves a
    value outside [int] undefined; the model follows the usual
    implementation, [(int) strtol(s, NULL, 10)]. *)
Definition atoi (s : string) : Z :=
  (strtol10 s + 2 ^ 31) mod 2 ^ 32 - 2 ^ 31.

(** [format("%d", n)]. *)
Definition format_d (n : Z) : string := NilZero.string_of_int (Z.to_int n).

(** Whether [atoi] finds a number to read: after the white space and one
    optional sign, a digit. *)
Definition starts_with_digit (s : string) : bool :=
  match s with
  | String ch _ => match digit_value ch with Some _ => true | None => false end
  | EmptyString => false
  end.

Definition leading_number (s : string) : bool :=
  match skip_spaces s with
  | String "-"%char s' => starts_with_digit s'
  | String "+"%char s' => starts_with_digit s'
  | s' => starts_with_digit s'
  end.


(* ------------------------------------------------------------------ *)
(** ** Collaborators

    What [DatabaseConfiguration.cpp] uses and other files of the repository
    declare: the replication policies ([IRepPolicy.h]), the client knobs,
    the store-engine enumeration, the configuration key prefix
    ([SystemData.h]) and the [StringRef] operations of flow.  They are
    parameters of the development. *)
Class Collaborators : Type := {
  (** a replication policy, behind a nullable [IRepPolicyRef] *)
  IRepPolicy : Type;
  PolicyOne : IRepPolicy;
  PolicyAcross : Z -> string -> IRepPolicy -> IRepPolicy;
  (** [policy->info()], the textual signature *)
  info : IRepPolicy -> string;
  (** [serializeReplicationPolicy(reader, policy)] on a [BinaryReader] over
      the value: from the bytes and the policy held so far, the policy held
      afterwards, or the error thrown *)
  serializeReplicationPolicy : string -> option IRepPolicy -> Error + option IRepPolicy;
  (** [CLIENT_KNOBS] *)
  DEFAULT_AUTO_PROXIES : Z;
  DEFAULT_AUTO_RESOLVERS : Z;
  DEFAULT_AUTO_LOGS : Z;
  (** [KeyValueStoreType]: the enumerators, and the conversion from [int] *)
  SSD_BTREE_V1 : Z;
  SSD_BTREE_V2 : Z;
  MEMORY : Z;
  END : Z;
  StoreType_of_int : Z -> Z;
  configKeysPrefix : string;
  (** [key.removePrefix(prefix)]: the rest of the key, or the error thrown *)
  removePrefix : string -> string -> Error + string;
  (** [v.substr(start)] and [v.substr(start, n)] of [StringRef]: the bytes
      asked for, where they lie inside [v].  A [StringRef] checks no bound:
      a request that runs past the end of [v] reads memory outside the
      value, which [v] does not determine.  There the parameter stands for
      one such read only, and what is stated of two runs is stated for
      requests in bounds ([dcs_in_bounds]). *)
  substr_from : string -> nat -> string;
  substr : string -> nat -> nat -> string;
  (** [printable(s)] *)
  printable : string -> string
}.

(** The [(start, length)] reading of [StringRef::substr], as for
    [std::string::substr], wherever the bytes asked for lie inside [v]. *)
Definition substr_start_length `{Collaborators} : Prop :=
  (forall v start, (start <= String.length v)%nat ->
     substr_from v start = String.substring start (String.length v - start) v) /\
  (forall v start n, (start + n <= String.length v)%nat ->
     substr v start n = String.substring start n v).

(** Keys of the configuration namespace lose exactly the prefix. *)
Definition removePrefix_strips `{Collaborators} : Prop :=
  forall suffix, removePrefix (configKeysPrefix ++ suffix) configKeysPrefix = inr suffix.

(** *** A concrete environment

    Policies "one" and "across", with signatures [1] and [attr^n x sub];
    knobs 3, 1, 3; engines numbered from 0.  The theorems below are
    instantiated with it at concrete inputs. *)
Inductive SamplePolicy : Type :=
| SampleOne
| SampleAcross (count : Z) (attribKey : string) (policy : SamplePolicy).

Fixpoint sample_info (p : SamplePolicy) : string :=
  match p with
  | SampleOne => "1"
  | SampleAcross n a q => a ++ "^" ++ format_d n ++ " x " ++ sample_info q
  end.

Definition sample_prefix : string := String (ascii_of_nat 255) "/conf/".

Definition sample_collaborators : Collaborators := {|
  IRepPolicy := SamplePolicy;
  PolicyOne := SampleOne;
  PolicyAcross := SampleAcross;
  info := sample_info;
  serializeReplicationPolicy := fun v _ =>
    if (v =? "One")%string then inr (Some SampleOne) else inl (error_code 1);
  DEFAULT_AUTO_PROXIES := 3;
  DEFAULT_AUTO_RESOLVERS := 1;
  DEFAULT_AUTO_LOGS := 3;
  SSD_BTREE_V1 := 0;
  SSD_BTREE_V2 := 2;
  MEMORY := 1;
  END := 3;
  StoreType_of_int := fun n => if (0 <=? n) && (n <=? 3) then n else 3;
  configKeysPrefix := sample_prefix;
  removePrefix := fun key p =>
    if (String.length p <=? String.length key)%nat
    then inr (String.substring (String.length p) (String.length key - String.length p) key)
    else inl (error_code 2);
  substr_from := fun v start => String.substring start (String.length v - start) v;
  substr := fun v start n => String.substring start n v;
  printable := fun s => s
|}.

(* ------------------------------------------------------------------ *)
(** ** The configuration *)

Declare Scope cfg_scope.
Delimit Scope cfg_scope with cfg.

Section DatabaseConfiguration.
Context {E : Collaborators}.

(** [KeyRangeRef]: the keys [k] with [begin <= k < end]. *)
Record KeyRangeRef : Type := mkKeyRangeRef {
  range_begin : string;
  range_end : string
}.

Definition contains (r : KeyRangeRef) (k : string) : bool :=
  String.leb (range_begin r) k && String.ltb k (range_end r).

(** The data members.  An [int] is a [Z], a store type the integer of its
    enumerator, an [Optional] or a nullable [Reference] an [option], a
    vector a list.  [rawConfiguration] is the sorted snapshot,
    [mutableConfiguration] the overlay. *)
#[projections(primitive)]
Record DatabaseConfiguration : Type := mkDatabaseConfiguration {
  initialized : bool;
  masterProxyCount : Z;
  resolverCount : Z;
  desiredTLogCount : Z;
  tLogWriteAntiQuorum : Z;
  tLogReplicationFactor : Z;
  durableStorageQuorum : Z;
  storageTeamSize : Z;
  tLogDataStoreType : Z;
  storageServerStoreType : Z;
  autoMasterProxyCount : Z;
  autoResolverCount : Z;
  autoDesiredTLogCount : Z;
  primaryDcId : option string;
  remoteDcId : option string;
  tLogPolicy : option IRepPolicy;
  storagePolicy : option IRepPolicy;
  remoteTLogPolicy : option IRepPolicy;
  satelliteTLogPolicy : option IRepPolicy;
  remoteDesiredTLogCount : Z;
  satelliteDesiredTLogCount : Z;
  desiredLogRouterCount : Z;
  remoteTLogReplicationFactor : Z;
  satelliteTLogReplicationFactor : Z;
  satelliteTLogWriteAntiQuorum : Z;
  satelliteTLogUsableDcs : Z;
  primarySatelliteDcIds : list (option string);
  remoteSatelliteDcIds : list (option string);
  rawConfiguration : list (string * string);
  mutableConfiguration : option StdMap.t
}.

(** Assignment to one member. *)
Definition with_initialized x (c : DatabaseConfiguration) : DatabaseConfiguration :=
  let 'mkDatabaseConfiguration _ f1 f2 f3 f4 f5 f6 f7 f8 f9 f10 f11 f12 f13 f14 f15 f16
      f17 f18 f19 f20 f21 f22 f23 f24 f25 f26 f27 f28 f29 := c in
  mkDatabaseConfiguration x f1 f2 f3 f4 f5 f6 f7 f8 f9 f10 f11 f12 f13 f14 f15 f16 f17 f18
    f19 f20 f21 f22 f23 f24 f25 f26 f27 f28 f29.

Definition with_masterProxyCount x (c : DatabaseConfiguration) : DatabaseConfiguration :=
  let 'mkDatabaseConfiguration f0 _ f2 f3 f4 f5 f6 f7 f8 f9 f10 f11 f12 f13 f14 f15 f16
      f17 f18 f19 f20 f21 f22 f23 f24 f25 f26 f27 f28 f29 := c in
  mkDatabaseConfiguration f0 x f2 f3 f4 f5 f6 f7 f8 f9 f10 f11 f12 f13 f14 f15 f16 f17 f18
    f19 f20 f21 f22 f23 f24 f25 f26 f27 f28 f29.

Definition with_resolverCount x (c : DatabaseConfiguration) : DatabaseConfiguration :=
  let 'mkDatabaseConfiguration f0 f1 _ f3 f4 f5 f6 f7 f8 f9 f10 f11 f12 f13 f14 f15 f16
      f17 f18 f19 f20 f21 f22 f23 f24 f25 f26 f27 f28 f29 := c in
  mkDatabaseConfiguration f0 f1 x f3 f4 f5 f6 f7 f8 f9 f10 f11 f12 f13 f14 f15 f16 f17 f18
    f19 f20 f21 f22 f23 f24 f25 f26 f27 f28 f29.

Definition with_desiredTLogCount x (c : DatabaseConfiguration) : DatabaseConfiguration :=
  let 'mkDatabaseConfiguration f0 f1 f2 _ f4 f5 f6 f7 f8 f9 f10 f11 f12 f13 f14 f15 f16
      f17 f18 f19 f20 f21 f22 f23 f24 f25 f26 f27 f28 f29 := c in
  mkDatabaseConfiguration f0 f1 f2 x f4 f5 f6 f7 f8 f9 f10 f11 f12 f13 f14 f15 f16 f17 f18
    f19 f20 f21 f22 f23 f24 f25 f26 f27 f28 f29.

Definition with_tLogWriteAntiQuorum x (c : DatabaseConfiguration) : DatabaseConfiguration :=
  let 'mkDatabaseConfiguration f0 f1 f2 f3 _ f5 f6 f7 f8 f9 f10 f11 f12 f13 f14 f15 f16
      f17 f18 f19 f20 f21 f22 f23 f24 f25 f26 f27 f28 f29 := c in
  mkDatabaseConfiguration f0 f1 f2 f3 x f5 f6 f7 f8 f9 f10 f11 f12 f13 f14 f15 f16 f17 f18
    f19 f20 f21 f22 f23 f24 f25 f26 f27 f28 f29.

Definition with_tLogReplicationFactor x (c : DatabaseConfiguration) : DatabaseConfiguration :=
  let 'mkDatabaseConfiguration f0 f1 f2 f3 f4 _ f6 f7 f8 f9 f10 f11 f12 f13 f14 f15 f16
      f17 f18 f19 f20 f21 f22 f23 f24 f25 f26 f27 f28 f29 := c in
  mkDatabaseConfiguration f0 f1 f2 f3 f4 x f6 f7 f8 f9 f10 f11 f12 f13 f14 f15 f16 f17 f18
    f19 f20 f21 f22 f23 f24 f25 f26 f27 f28 f29.

Definition with_durableStorageQuorum x (c : DatabaseConfiguration) : DatabaseConfiguration :=
  let 'mkDatabaseConfiguration f0 f1 f2 f3 f4 f5 _ f7 f8 f9 f10 f11 f12 f13 f14 f15 f16
      f17 f18 f19 f20 f21 f22 f23 f24 f25 f26 f27 f28 f29 := c in
  mkDatabaseConfiguration f0 f1 f2 f3 f4 f5 x f7 f8 f9 f10 f11 f12 f13 f14 f15 f16 f17 f18
    f19 f20 f21 f22 f23 f24 f25 f26 f27 f28 f29.

Definition with_storageTeamSize x (c : DatabaseConfiguration) : DatabaseConfiguration :=
  let 'mkDatabaseConfiguration f0 f1 f2 f3 f4 f5 f6 _ f8 f9 f10 f11 f12 f13 f14 f15 f16
      f17 f18 f19 f20 f21 f22 f23 f24 f25 f26 f27 f28 f29 := c in
  mkDatabaseConfiguration f0 f1 f2 f3 f4 f5 f6 x f8 f9 f10 f11 f12 f13 f14 f15 f16 f17 f18
    f19 f20 f21 f22 f23 f24 f25 f26 f27 f28 f29.

Definition with_tLogDataStoreType x (c : DatabaseConfiguration) : DatabaseConfiguration :=
  let 'mkDatabaseConfiguration f0 f1 f2 f3 f4 f5 f6 f7 _ f9 f10 f11 f12 f13 f14 f15 f16
      f17 f18 f19 f20 f21 f22 f23 f24 f25 f26 f27 f28 f29 := c in
  mkDatabaseConfiguration f0 f1 f2 f3 f4 f5 f6 f7 x f9 f10 f11 f12 f13 f14 f15 f16 f17 f18
    f19 f20 f21 f22 f23 f24 f25 f26 f27 f28 f29.

Definition with_storageServerStoreType x (c : DatabaseConfiguration) : DatabaseConfiguration :=
  let 'mkDatabaseConfiguration f0 f1 f2 f3 f4 f5 f6 f7 f8 _ f10 f11 f12 f13 f14 f15 f16
      f17 f18 f19 f20 f21 f22 f23 f24 f25 f26 f27 f28 f29 := c in
  mkDatabaseConfiguration f0 f1 f2 f3 f4 f5 f6 f7 f8 x f10 f11 f12 f13 f14 f15 f16 f17 f18
    f19 f20 f21 f22 f23 f24 f25 f26 f27 f28 f29.

Definition with_autoMasterProxyCount x (c : DatabaseConfiguration) : DatabaseConfiguration :=
  let 'mkDatabaseConfiguration f0 f1 f2 f3 f4 f5 f6 f7 f8 f9 _ f11 f12 f13 f14 f15 f16 f17
      f18 f19 f20 f21 f22 f23 f24 f25 f26 f27 f28 f29 := c in
  mkDatabaseConfiguration f0 f1 f2 f3 f4 f5 f6 f7 f8 f9 x f11 f12 f13 f14 f15 f16 f17 f18
    f19 f20 f21 f22 f23 f24 f25 f26 f27 f28 f29.

Definition with_autoResolverCount x (c : DatabaseConfiguration) : DatabaseConfiguration :=
  let 'mkDatabaseConfiguration f0 f1 f2 f3 f4 f5 f6 f7 f8 f9 f10 _ f12 f13 f14 f15 f16 f17
      f18 f19 f20 f21 f22 f23 f24 f25 f26 f27 f28 f29 := c in
  mkDatabaseConfiguration f0 f1 f2 f3 f4 f5 f6 f7 f8 f9 f10 x f12 f13 f14 f15 f16 f17 f18
    f19 f20 f21 f22 f23 f24 f25 f26 f27 f28 f29.

Definition with_autoDesiredTLogCount x (c : DatabaseConfiguration) : DatabaseConfiguration :=
  let 'mkDatabaseConfiguration f0 f1 f2 f3 f4 f5 f6 f7 f8 f9 f10 f11 _ f13 f14 f15 f16 f17
      f18 f19 f20 f21 f22 f23 f24 f25 f26 f27 f28 f29 := c in
  mkDatabaseConfiguration f0 f1 f2 f3 f4 f5 f6 f7 f8 f9 f10 f11 x f13 f14 f15 f16 f17 f18
    f19 f20 f21 f22 f23 f24 f25 f26 f27 f28 f29.

Definition with_primaryDcId x (c : DatabaseConfiguration) : DatabaseConfiguration :=
  let 'mkDatabaseConfiguration f0 f1 f2 f3 f4 f5 f6 f7 f8 f9 f10 f11 f12 _ f14 f15 f16 f17
      f18 f19 f20 f21 f22 f23 f24 f25 f26 f27 f28 f29 := c in
  mkDatabaseConfiguration f0 f1 f2 f3 f4 f5 f6 f7 f8 f9 f10 f11 f12 x f14 f15 f16 f17 f18
    f19 f20 f21 f22 f23 f24 f25 f26 f27 f28 f29.

Definition with_remoteDcId x (c : DatabaseConfiguration) : DatabaseConfiguration :=
  let 'mkDatabaseConfiguration f0 f1 f2 f3 f4 f5 f6 f7 f8 f9 f10 f11 f12 f13 _ f15 f16 f17
      f18 f19 f20 f21 f22 f23 f24 f25 f26 f27 f28 f29 := c in
  mkDatabaseConfiguration f0 f1 f2 f3 f4 f5 f6 f7 f8 f9 f10 f11 f12 f13 x f15 f16 f17 f18
    f19 f20 f21 f22 f23 f24 f25 f26 f27 f28 f29.

Definition with_tLogPolicy x (c : DatabaseConfiguration) : DatabaseConfiguration :=
  let 'mkDatabaseConfiguration f0 f1 f2 f3 f4 f5 f6 f7 f8 f9 f10 f11 f12 f13 f14 _ f16 f17
      f18 f19 f20 f21 f22 f23 f24 f25 f26 f27 f28 f29 := c in
  mkDatabaseConfiguration f0 f1 f2 f3 f4 f5 f6 f7 f8 f9 f10 f11 f12 f13 f14 x f16 f17 f18
    f19 f20 f21 f22 f23 f24 f25 f26 f27 f28 f29.

Definition with_storagePolicy x (c : DatabaseConfiguration) : DatabaseConfiguration :=
  let 'mkDatabaseConfiguration f0 f1 f2 f3 f4 f5 f6 f7 f8 f9 f10 f11 f12 f13 f14 f15 _ f17
      f18 f19 f20 f21 f22 f23 f24 f25 f26 f27 f28 f29 := c in
  mkDatabaseConfiguration f0 f1 f2 f3 f4 f5 f6 f7 f8 f9 f10 f11 f12 f13 f14 f15 x f17 f18
    f19 f20 f21 f22 f23 f24 f25 f26 f27 f28 f29.

Definition with_remoteTLogPolicy x (c : DatabaseConfiguration) : DatabaseConfiguration :=
  let 'mkDatabaseConfiguration f0 f1 f2 f3 f4 f5 f6 f7 f8 f9 f10 f11 f12 f13 f14 f15 f16 _
      f18 f19 f20 f21 f22 f23 f24 f25 f26 f27 f28 f29 := c in
  mkDatabaseConfiguration f0 f1 f2 f3 f4 f5 f6 f7 f8 f9 f10 f11 f12 f13 f14 f15 f16 x f18
    f19 f20 f21 f22 f23 f24 f25 f26 f27 f28 f29.

Definition with_satelliteTLogPolicy x (c : DatabaseConfiguration) : DatabaseConfiguration :=
  let 'mkDatabaseConfiguration f0 f1 f2 f3 f4 f5 f6 f7 f8 f9 f10 f11 f12 f13 f14 f15 f16
      f17 _ f19 f20 f21 f22 f23 f24 f25 f26 f27 f28 f29 := c in
  mkDatabaseConfiguration f0 f1 f2 f3 f4 f5 f6 f7 f8 f9 f10 f11 f12 f13 f14 f15 f16 f17 x
    f19 f20 f21 f22 f23 f24 f25 f26 f27 f28 f29.

Definition with_remoteDesiredTLogCount x (c : DatabaseConfiguration) : DatabaseConfiguration :=
  let 'mkDatabaseConfiguration f0 f1 f2 f3 f4 f5 f6 f7 f8 f9 f10 f11 f12 f13 f14 f15 f16
      f17 f18 _ f20 f21 f22 f23 f24 f25 f26 f27 f28 f29 := c in
  mkDatabaseConfiguration f0 f1 f2 f3 f4 f5 f6 f7 f8 f9 f10 f11 f12 f13 f14 f15 f16 f17
    f18 x f20 f21 f22 f23 f24 f25 f26 f27 f28 f29.

Definition with_satelliteDesiredTLogCount x (c : DatabaseConfiguration) : DatabaseConfiguration :=
  let 'mkDatabaseConfiguration f0 f1 f2 f3 f4 f5 f6 f7 f8 f9 f10 f11 f12 f13 f14 f15 f16
      f17 f18 f19 _ f21 f22 f23 f24 f25 f26 f27 f28 f29 := c in
  mkDatabaseConfiguration f0 f1 f2 f3 f4 f5 f6 f7 f8 f9 f10 f11 f12 f13 f14 f15 f16 f17
    f18 f19 x f21 f22 f23 f24 f25 f26 f27 f28 f29.

Definition with_desiredLogRouterCount x (c : DatabaseConfiguration) : DatabaseConfiguration :=
  let 'mkDatabaseConfiguration f0 f1 f2 f3 f4 f5 f6 f7 f8 f9 f10 f11 f12 f13 f14 f15 f16
      f17 f18 f19 f20 _ f22 f23 f24 f25 f26 f27 f28 f29 := c in
  mkDatabaseConfiguration f0 f1 f2 f3 f4 f5 f6 f7 f8 f9 f10 f11 f12 f13 f14 f15 f16 f17
    f18 f19 f20 x f22 f23 f24 f25 f26 f27 f28 f29.

Definition with_remoteTLogReplicationFactor x (c : DatabaseConfiguration) : DatabaseConfiguration :=
  let 'mkDatabaseConfiguration f0 f1 f2 f3 f4 f5 f6 f7 f8 f9 f10 f11 f12 f13 f14 f15 f16
      f17 f18 f19 f20 f21 _ f23 f24 f25 f26 f27 f28 f29 := c in
  mkDatabaseConfiguration f0 f1 f2 f3 f4 f5 f6 f7 f8 f9 f10 f11 f12 f13 f14 f15 f16 f17
    f18 f19 f20 f21 x f23 f24 f25 f26 f27 f28 f29.

Definition with_satelliteTLogReplicationFactor x (c : DatabaseConfiguration) : DatabaseConfiguration :=
  let 'mkDatabaseConfiguration f0 f1 f2 f3 f4 f5 f6 f7 f8 f9 f10 f11 f12 f13 f14 f15 f16
      f17 f18 f19 f20 f21 f22 _ f24 f25 f26 f27 f28 f29 := c in
  mkDatabaseConfiguration f0 f1 f2 f3 f4 f5 f6 f7 f8 f9 f10 f11 f12 f13 f14 f15 f16 f17
    f18 f19 f20 f21 f22 x f24 f25 f26 f27 f28 f29.

Definition with_satelliteTLogWriteAntiQuorum x (c : DatabaseConfiguration) : DatabaseConfiguration :=
  let 'mkDatabaseConfiguration f0 f1 f2 f3 f4 f5 f6 f7 f8 f9 f10 f11 f12 f13 f14 f15 f16
      f17 f18 f19 f20 f21 f22 f23 _ f25 f26 f27 f28 f29 := c in
  mkDatabaseConfiguration f0 f1 f2 f3 f4 f5 f6 f7 f8 f9 f10 f11 f12 f13 f14 f15 f16 f17
    f18 f19 f20 f21 f22 f23 x f25 f26 f27 f28 f29.

Definition with_satelliteTLogUsableDcs x (c : DatabaseConfiguration) : DatabaseConfiguration :=
  let 'mkDatabaseConfiguration f0 f1 f2 f3 f4 f5 f6 f7 f8 f9 f10 f11 f12 f13 f14 f15 f16
      f17 f18 f19 f20 f21 f22 f23 f24 _ f26 f27 f28 f29 := c in
  mkDatabaseConfiguration f0 f1 f2 f3 f4 f5 f6 f7 f8 f9 f10 f11 f12 f13 f14 f15 f16 f17
    f18 f19 f20 f21 f22 f23 f24 x f26 f27 f28 f29.

Definition with_primarySatelliteDcIds x (c : DatabaseConfiguration) : DatabaseConfiguration :=
  let 'mkDatabaseConfiguration f0 f1 f2 f3 f4 f5 f6 f7 f8 f9 f10 f11 f12 f13 f14 f15 f16
      f17 f18 f19 f20 f21 f22 f23 f24 f25 _ f27 f28 f29 := c in
  mkDatabaseConfiguration f0 f1 f2 f3 f4 f5 f6 f7 f8 f9 f10 f11 f12 f13 f14 f15 f16 f17
    f18 f19 f20 f21 f22 f23 f24 f25 x f27 f28 f29.

Definition with_remoteSatelliteDcIds x (c : DatabaseConfiguration) : DatabaseConfiguration :=
  let 'mkDatabaseConfiguration f0 f1 f2 f3 f4 f5 f6 f7 f8 f9 f10 f11 f12 f13 f14 f15 f16
      f17 f18 f19 f20 f21 f22 f23 f24 f25 f26 _ f28 f29 := c in
  mkDatabaseConfiguration f0 f1 f2 f3 f4 f5 f6 f7 f8 f9 f10 f11 f12 f13 f14 f15 f16 f17
    f18 f19 f20 f21 f22 f23 f24 f25 f26 x f28 f29.

Definition with_rawConfiguration x (c : DatabaseConfiguration) : DatabaseConfiguration :=
  let 'mkDatabaseConfiguration f0 f1 f2 f3 f4 f5 f6 f7 f8 f9 f10 f11 f12 f13 f14 f15 f16
      f17 f18 f19 f20 f21 f22 f23 f24 f25 f26 f27 _ f29 := c in
  mkDatabaseConfiguration f0 f1 f2 f3 f4 f5 f6 f7 f8 f9 f10 f11 f12 f13 f14 f15 f16 f17
    f18 f19 f20 f21 f22 f23 f24 f25 f26 f27 x f29.

Definition with_mutableConfiguration x (c : DatabaseConfiguration) : DatabaseConfiguration :=
  let 'mkDatabaseConfiguration f0 f1 f2 f3 f4 f5 f6 f7 f8 f9 f10 f11 f12 f13 f14 f15 f16
      f17 f18 f19 f20 f21 f22 f23 f24 f25 f26 f27 f28 _ := c in
  mkDatabaseConfiguration f0 f1 f2 f3 f4 f5 f6 f7 f8 f9 f10 f11 f12 f13 f14 f15 f16 f17
    f18 f19 f20 f21 f22 f23 f24 f25 f26 f27 f28 x.
(** *** Member functions as state transformers

    A non-const member function maps the object before the call to the
    outcome of the call and the object after it; a thrown error keeps
    what was written before the throw. *)
Definition M (A : Type) : Type :=
  DatabaseConfiguration -> outcome A * DatabaseConfiguration.

Definition ret {A} (a : A) : M A := fun c => (Normal a, c).

Definition bind {A B} (m : M A) (k : A -> M B) : M B :=
  fun c =>
    match m c with
    | (Normal a, c') => k a c'
    | (Throws e, c') => (Throws e, c')
    | (NullDereference, c') => (NullDereference, c')
    end.

Definition gets {A} (f : DatabaseConfiguration -> A) : M A :=
  fun c => (Normal (f c), c).

Definition modify (f : DatabaseConfiguration -> DatabaseConfiguration) : M unit :=
  fun c => (Normal tt, f c).

Definition throw {A} (e : Error) : M A := fun c => (Throws e, c).

Notation "x <- m ;; k" := (bind m (fun x => k))
  (at level 61, m at next level, right associativity) : cfg_scope.
Notation "m ;; k" := (bind m (fun _ => k))
  (at level 61, right associativity) : cfg_scope.
Local Open Scope cfg_scope.

(** A range-based [for] over a container, the body run for its effect. *)
Fixpoint for_each {A B} (body : A -> M B) (l : list A) : M unit :=
  match l with
  | [] => ret tt
  | a :: l' => body a ;; for_each body l'
  end.

(** [DatabaseConfiguration::resetInternal]: every typed member back to its
    default; "does NOT reset rawConfiguration", nor the overlay. *)
Definition resetInternal (c : DatabaseConfiguration) : DatabaseConfiguration :=
  {| initialized := false;
     masterProxyCount := -1;
     resolverCount := -1;
     desiredTLogCount := -1;
     tLogWriteAntiQuorum := -1;
     tLogReplicationFactor := -1;
     durableStorageQuorum := -1;
     storageTeamSize := -1;
     tLogDataStoreType := END;
     storageServerStoreType := END;
     autoMasterProxyCount := DEFAULT_AUTO_PROXIES;
     autoResolverCount := DEFAULT_AUTO_RESOLVERS;
     autoDesiredTLogCount := DEFAULT_AUTO_LOGS;
     primaryDcId := None;
     remoteDcId := None;
     tLogPolicy := None;
     storagePolicy := None;
     remoteTLogPolicy := None;
     satelliteTLogPolicy := None;
     remoteDesiredTLogCount := -1;
     satelliteDesiredTLogCount := -1;
     desiredLogRouterCount := -1;
     remoteTLogReplicationFactor := 0;
     satelliteTLogReplicationFactor := 0;
     satelliteTLogWriteAntiQuorum := 0;
     satelliteTLogUsableDcs := 0;
     primarySatelliteDcIds := [];
     remoteSatelliteDcIds := [];
     rawConfiguration := rawConfiguration c;
     mutableConfiguration := mutableConfiguration c |}.

(** The constructor: an empty snapshot, no overlay, [resetInternal()]. *)
Definition DatabaseConfiguration_new : DatabaseConfiguration :=
  resetInternal
    (mkDatabaseConfiguration false 0 0 0 0 0 0 0 0 0 0 0 0 None None None None None None
       0 0 0 0 0 0 0 [] [] [] None).

(** [parse(std::vector<Optional<...>>* dcs, v)], the loop over the index
    [i] with [rest] the bytes of [v] from [i] on; a pushed [StringRef] is a
    present [Optional].  The element pushed at a comma is
    [v.substr(lastBegin, i)], the index [i] passed as the length: from the
    second comma on the request can run past the end of [v]
    ([dcs_in_bounds] tells), and the list is the program's for the values
    whose requests stay inside. *)
Fixpoint parse_dcs_loop (v rest : string) (i lastBegin : nat)
    (dcs : list (option string)) : list (option string) :=
  match rest with
  | String ch rest' =>
      if Ascii.eqb ch ","%char
      then parse_dcs_loop v rest' (S i) (S i) (dcs ++ [Some (substr v lastBegin i)])%list
      else parse_dcs_loop v rest' (S i) lastBegin dcs
  | EmptyString => (dcs ++ [Some (substr_from v lastBegin)])%list
  end.

Definition parse_dcs (dcs : list (option string)) (v : string) : list (option string) :=
  parse_dcs_loop v v 0 0 dcs.

(** Whether every [v.substr(lastBegin, i)] of that loop asks for bytes
    inside [v]: [lastBegin + i <= v.size()] at each comma.  The request at
    the first comma always is, with [lastBegin = 0]; the last element,
    [v.substr(lastBegin)], ends with [v]. *)
Fixpoint dcs_in_bounds_loop (v rest : string) (i lastBegin : nat) : bool :=
  match rest with
  | String ch rest' =>
      if Ascii.eqb ch ","%char
      then (lastBegin + i <=? String.length v)%nat && dcs_in_bounds_loop v rest' (S i) (S i)
      else dcs_in_bounds_loop v rest' (S i) lastBegin
  | EmptyString => true
  end.

Definition dcs_in_bounds (v : string) : bool := dcs_in_bounds_loop v v 0 0.

(** A pair of (key suffix, value) whose value, if the key is one of the two
    satellite list keys, is split in bounds. *)
Definition in_bounds_pair (sv : string * string) : bool :=
  if String.eqb (fst sv) "primary_satellite_dcs" || String.eqb (fst sv) "remote_satellite_dcs"
  then dcs_in_bounds (snd sv)
  else true.

(** [parse(int* i, v)]. *)
Definition parse_int (v : string) : Z := atoi v.

(** [parseReplicationPolicy(&policy, v)] on the member read by [member] and
    written by [assign]. *)
Definition parseReplicationPolicy
    (member : DatabaseConfiguration -> option IRepPolicy)
    (assign : option IRepPolicy -> DatabaseConfiguration -> DatabaseConfiguration)
    (v : string) : M unit :=
  fun c =>
    match serializeReplicationPolicy v (member c) with
    | inr p => (Normal tt, assign p c)
    | inl e => (Throws e, c)
    end.

(** [DatabaseConfiguration::setDefaultReplicationPolicy]. *)
Definition setDefaultReplicationPolicy (c : DatabaseConfiguration) : DatabaseConfiguration :=
  let c := match storagePolicy c with
           | None => with_storagePolicy
                       (Some (PolicyAcross (storageTeamSize c) "zoneid" PolicyOne)) c
           | Some _ => c
           end in
  let c := match tLogPolicy c with
           | None => with_tLogPolicy
                       (Some (PolicyAcross (tLogReplicationFactor c) "zoneid" PolicyOne)) c
           | Some _ => c
           end in
  let c := match remoteTLogPolicy c with
           | None =>
               if remoteTLogReplicationFactor c >? 0
               then with_remoteTLogPolicy
                      (Some (PolicyAcross (remoteTLogReplicationFactor c) "zoneid" PolicyOne)) c
               else c
           | Some _ => c
           end in
  match satelliteTLogPolicy c with
  | None =>
      if satelliteTLogReplicationFactor c >? 0
      then with_satelliteTLogPolicy
             (Some (PolicyAcross (satelliteTLogReplicationFactor c) "zoneid" PolicyOne)) c
      else c
  | Some _ => c
  end.

(** Modelled from the spec: the getters [getDesiredProxies],
    [getDesiredResolvers], [getDesiredLogs], [getDesiredRemoteLogs],
    [getDesiredSatelliteLogs] and [getDesiredLogRouters] are defined in
    [DatabaseConfiguration.h].  The spec resolves a desired count as "the
    explicit desired value if >= 1, else the corresponding auto-computed
    default"; "remote-log and satellite-log/log-router desired counts that
    are unset (-1) resolve to 1". *)
Definition getDesiredProxies (c : DatabaseConfiguration) : Z :=
  if masterProxyCount c >=? 1 then masterProxyCount c else autoMasterProxyCount c.
Definition getDesiredResolvers (c : DatabaseConfiguration) : Z :=
  if resolverCount c >=? 1 then resolverCount c else autoResolverCount c.
Definition getDesiredLogs (c : DatabaseConfiguration) : Z :=
  if desiredTLogCount c >=? 1 then desiredTLogCount c else autoDesiredTLogCount c.
Definition getDesiredRemoteLogs (c : DatabaseConfiguration) : Z :=
  if remoteDesiredTLogCount c =? -1 then 1 else remoteDesiredTLogCount c.
Definition getDesiredSatelliteLogs (c : DatabaseConfiguration) : Z :=
  if satelliteDesiredTLogCount c =? -1 then 1 else satelliteDesiredTLogCount c.
Definition getDesiredLogRouters (c : DatabaseConfiguration) : Z :=
  if desiredLogRouterCount c =? -1 then 1 else desiredLogRouterCount c.

Definition present {A} (o : option A) : bool :=
  match o with Some _ => true | None => false end.

Definition nonempty {A} (l : list A) : bool :=
  match l with [] => false | _ :: _ => true end.

(** [DatabaseConfiguration::isValid]. *)
Definition isValid (c : DatabaseConfiguration) : bool :=
  initialized c &&
  (tLogWriteAntiQuorum c >=? 0) &&
  (tLogReplicationFactor c >=? 1) &&
  (durableStorageQuorum c >=? 1) &&
  (storageTeamSize c >=? 1) &&
  (getDesiredProxies c >=? 1) &&
  (getDesiredLogs c >=? 1) &&
  (getDesiredResolvers c >=? 1) &&
  (durableStorageQuorum c <=? storageTeamSize c) &&
  negb (tLogDataStoreType c =? END) &&
  negb (storageServerStoreType c =? END) &&
  (autoMasterProxyCount c >=? 1) &&
  (autoResolverCount c >=? 1) &&
  (autoDesiredTLogCount c >=? 1) &&
  present (storagePolicy c) &&
  present (tLogPolicy c) &&
  (getDesiredRemoteLogs c >=? 1) &&
  (getDesiredLogRouters c >=? 1) &&
  (remoteTLogReplicationFactor c >=? 0) &&
  ((remoteTLogReplicationFactor c =? 0) ||
   (present (remoteTLogPolicy c) && present (primaryDcId c) && present (remoteDcId c) &&
    (durableStorageQuorum c =? storageTeamSize c))) &&
  Bool.eqb (present (primaryDcId c)) (present (remoteDcId c)) &&
  (getDesiredSatelliteLogs c >=? 1) &&
  (satelliteTLogReplicationFactor c >=? 0) &&
  (satelliteTLogWriteAntiQuorum c >=? 0) &&
  (satelliteTLogUsableDcs c >=? 0) &&
  ((satelliteTLogReplicationFactor c =? 0) ||
   (present (satelliteTLogPolicy c) && nonempty (primarySatelliteDcIds c) &&
    nonempty (remoteSatelliteDcIds c) && (remoteTLogReplicationFactor c >? 0))) &&
  (length (primarySatelliteDcIds c) =? length (remoteSatelliteDcIds c))%nat.

(** [p->info()] through a nullable reference. *)
Definition info_of (p : option IRepPolicy) : outcome string :=
  match p with
  | Some q => Normal (info q)
  | None => NullDereference
  end.

(** The loop that renders a list of satellite datacenters, with its two
    locals [str] and [first]. *)
Fixpoint dcs_loop (dcs : list (option string)) (str : string) (first : bool) : string :=
  match dcs with
  | [] => str
  | it :: dcs' =>
      match it with
      | Some dc =>
          let '(str, first) :=
            if negb first then (str ++ ",", false) else (str, first) in
          dcs_loop dcs' (str ++ printable dc) first
      | None => dcs_loop dcs' str first
      end
  end.

Definition three_datacenter_info : string := "((dcid^3 x 1) & (zoneid^3 x 1))".

(** [DatabaseConfiguration::toMap], block by block in the order of the
    source; each block takes [result] as the blocks before it left it. *)
Definition put_redundancy_mode (c : DatabaseConfiguration) (tlogInfo storageInfo : string)
    (result : StdMap.t) : StdMap.t :=
  let tlr := tLogReplicationFactor c in
  let dsq := durableStorageQuorum c in
  if (dsq =? storageTeamSize c) && (tLogWriteAntiQuorum c =? 0) then
    if (tlr =? 1) && (dsq =? 1) then
      StdMap.insert "redundancy_mode" "single" result
    else if (tlr =? 2) && (dsq =? 2) then
      StdMap.insert "redundancy_mode" "double" result
    else if (tlr =? 3) && (dsq =? 3)
            && (tlogInfo =? three_datacenter_info)%string
            && (storageInfo =? three_datacenter_info)%string then
      StdMap.insert "redundancy_mode" "three_datacenter" result
    else if (tlr =? 3) && (dsq =? 3) then
      StdMap.insert "redundancy_mode" "triple" result
    else if (tlr =? 4) && (dsq =? 3)
            && (tlogInfo =? "data_hall^2 x zoneid^2 x 1")%string
            && (storageInfo =? "data_hall^3 x 1")%string then
      StdMap.insert "redundancy_mode" "three_data_hall" result
    else if (tlr =? 4) && (dsq =? 6)
            && (tlogInfo =? "dcid^2 x zoneid^2 x 1")%string
            && (storageInfo =? "dcid^3 x zoneid^2 x 1")%string then
      StdMap.insert "redundancy_mode" "multi_dc" result
    else
      StdMap.insert "redundancy_mode" "custom" result
  else
    StdMap.insert "redundancy_mode" "custom" result.

Definition put_storage_engine (c : DatabaseConfiguration) (result : StdMap.t) : StdMap.t :=
  if (tLogDataStoreType c =? SSD_BTREE_V1) && (storageServerStoreType c =? SSD_BTREE_V1)
  then StdMap.insert "storage_engine" "ssd-1" result
  else if (tLogDataStoreType c =? SSD_BTREE_V2) && (storageServerStoreType c =? SSD_BTREE_V2)
  then StdMap.insert "storage_engine" "ssd-2" result
  else if (tLogDataStoreType c =? MEMORY) && (storageServerStoreType c =? MEMORY)
  then StdMap.insert "storage_engine" "memory" result
  else StdMap.insert "storage_engine" "custom" result.

Definition put_primary_dc (c : DatabaseConfiguration) (result : StdMap.t) : StdMap.t :=
  match primaryDcId c with
  | Some dc => StdMap.insert "primary_dc" (printable dc) result
  | None => result
  end.

Definition put_remote_dc (c : DatabaseConfiguration) (result : StdMap.t) : StdMap.t :=
  match remoteDcId c with
  | Some dc => StdMap.insert "remote_dc" (printable dc) result
  | None => result
  end.

Definition put_primary_satellite_dcs (c : DatabaseConfiguration) (result : StdMap.t)
    : StdMap.t :=
  if nonempty (primarySatelliteDcIds c)
  then StdMap.insert "primary_satellite_dcs"
         (dcs_loop (primarySatelliteDcIds c) "" true) result
  else result.

Definition put_remote_satellite_dcs (c : DatabaseConfiguration) (result : StdMap.t)
    : StdMap.t :=
  if nonempty (remoteSatelliteDcIds c)
  then StdMap.insert "remote_satellite_dcs"
         (dcs_loop (remoteSatelliteDcIds c) "" true) result
  else result.

Definition put_satellite_redundancy_mode (c : DatabaseConfiguration) (result : StdMap.t)
    : StdMap.t :=
  let sr := satelliteTLogReplicationFactor c in
  let sd := satelliteTLogUsableDcs c in
  let sa := satelliteTLogWriteAntiQuorum c in
  if (sr =? 1) && (sd =? 1) && (sa =? 0)
  then StdMap.insert "satellite_redundancy_mode" "one_satellite_single" result
  else if (sr =? 2) && (sd =? 1) && (sa =? 0)
  then StdMap.insert "satellite_redundancy_mode" "one_satellite_double" result
  else if (sr =? 3) && (sd =? 1) && (sa =? 0)
  then StdMap.insert "satellite_redundancy_mode" "one_satellite_triple" result
  else if (sr =? 4) && (sd =? 2) && (sa =? 0)
  then StdMap.insert "satellite_redundancy_mode" "two_satellite_safe" result
  else if (sr =? 4) && (sd =? 2) && (sa =? 2)
  then StdMap.insert "satellite_redundancy_mode" "two_satellite_fast" result
  else if sr =? 0
  then StdMap.insert "satellite_redundancy_mode" "none" result
  else StdMap.insert "satellite_redundancy_mode" "custom" result.

Definition put_remote_redundancy_mode (c : DatabaseConfiguration) (result : StdMap.t)
    : StdMap.t :=
  let rr := remoteTLogReplicationFactor c in
  if rr =? 1 then StdMap.insert "remote_redundancy_mode" "remote_single" result
  else if rr =? 2 then StdMap.insert "remote_redundancy_mode" "remote_double" result
  else if rr =? 3 then StdMap.insert "remote_redundancy_mode" "remote_triple" result
  else if rr =? 0 then StdMap.insert "remote_redundancy_mode" "none" result
  else StdMap.insert "remote_redundancy_mode" "custom" result.

Definition put_logs (c : DatabaseConfiguration) (result : StdMap.t) : StdMap.t :=
  if negb (desiredTLogCount c =? -1)
  then StdMap.insert "logs" (format_d (desiredTLogCount c)) result
  else result.

Definition put_remote_logs (c : DatabaseConfiguration) (result : StdMap.t) : StdMap.t :=
  if negb (desiredTLogCount c =? -1)
  then StdMap.insert "remote_logs" (format_d (remoteDesiredTLogCount c)) result
  else result.

Definition put_satellite_logs (c : DatabaseConfiguration) (result : StdMap.t) : StdMap.t :=
  if negb (desiredTLogCount c =? -1)
  then StdMap.insert "satellite_logs" (format_d (satelliteDesiredTLogCount c)) result
  else result.

Definition put_proxies (c : DatabaseConfiguration) (result : StdMap.t) : StdMap.t :=
  if negb (masterProxyCount c =? -1)
  then StdMap.insert "proxies" (format_d (masterProxyCount c)) result
  else result.

Definition put_resolvers (c : DatabaseConfiguration) (result : StdMap.t) : StdMap.t :=
  if negb (resolverCount c =? -1)
  then StdMap.insert "resolvers" (format_d (resolverCount c)) result
  else result.

(** The body of [if( initialized )] once both signatures are read. *)
Definition toMap_body (c : DatabaseConfiguration) (tlogInfo storageInfo : string)
    (result : StdMap.t) : StdMap.t :=
  let result := put_redundancy_mode c tlogInfo storageInfo result in
  let result := put_storage_engine c result in
  let result := put_primary_dc c result in
  let result := put_remote_dc c result in
  let result := put_primary_satellite_dcs c result in
  let result := put_remote_satellite_dcs c result in
  let result := put_satellite_redundancy_mode c result in
  let result := put_remote_redundancy_mode c result in
  let result := put_logs c result in
  let result := put_remote_logs c result in
  let result := put_satellite_logs c result in
  let result := put_proxies c result in
  let result := put_resolvers c result in
  result.

Definition toMap (c : DatabaseConfiguration) : outcome StdMap.t :=
  let result : StdMap.t := [] in
  if initialized c then
    match info_of (tLogPolicy c) with
    | Normal tlogInfo =>
        match info_of (storagePolicy c) with
        | Normal storageInfo => Normal (toMap_body c tlogInfo storageInfo result)
        | Throws e => Throws e
        | NullDereference => NullDereference
        end
    | Throws e => Throws e
    | NullDereference => NullDereference
    end
  else Normal result.

(** The loop of [toString]: [result += first + "=" + second; result += ";"]. *)
Definition toString_loop (config : StdMap.t) : string :=
  fold_left (fun result itr => (result ++ (fst itr ++ "=" ++ snd itr)) ++ ";")%string
            config ""%string.

(** [DatabaseConfiguration::toString].  On an empty [result] the unsigned
    [result.length()-1] wraps to the largest [size_t] and [substr] returns
    the whole (empty) string, which is also what the truncated subtraction
    of [nat] gives. *)
Definition toString (c : DatabaseConfiguration) : outcome string :=
  match toMap c with
  | Normal config =>
      let result := toString_loop config in
      Normal (String.substring 0 (String.length result - 1) result)
  | Throws e => Throws e
  | NullDereference => NullDereference
  end.

Definition assign_int (assign : Z -> DatabaseConfiguration -> DatabaseConfiguration)
    (value : string) : M unit :=
  modify (assign (parse_int value)).

Definition assign_dcs
    (member : DatabaseConfiguration -> list (option string))
    (assign : list (option string) -> DatabaseConfiguration -> DatabaseConfiguration)
    (value : string) : M unit :=
  modify (fun c => assign (parse_dcs (member c) value) c).

(** The chain of comparisons of [setInternal] on the stripped key [ck]:
    [true] after a recognised key, [false] at the final [else]. *)
Definition dispatch (ck value : string) : M bool :=
  let handled (m : M unit) : M bool := m ;; ret true in
  let key_is (name : string) : bool := String.eqb ck name in
  if key_is "initialized" then handled (modify (with_initialized true))
  else if key_is "proxies" then handled (assign_int with_masterProxyCount value)
  else if key_is "resolvers" then handled (assign_int with_resolverCount value)
  else if key_is "logs" then handled (assign_int with_desiredTLogCount value)
  else if key_is "log_replicas" then handled (assign_int with_tLogReplicationFactor value)
  else if key_is "log_anti_quorum" then handled (assign_int with_tLogWriteAntiQuorum value)
  else if key_is "storage_quorum" then handled (assign_int with_durableStorageQuorum value)
  else if key_is "storage_replicas" then handled (assign_int with_storageTeamSize value)
  else if key_is "log_engine" then
    handled (modify (with_tLogDataStoreType (StoreType_of_int (parse_int value))))
  else if key_is "storage_engine" then
    handled (modify (with_storageServerStoreType (StoreType_of_int (parse_int value))))
  else if key_is "auto_proxies" then handled (assign_int with_autoMasterProxyCount value)
  else if key_is "auto_resolvers" then handled (assign_int with_autoResolverCount value)
  else if key_is "auto_logs" then handled (assign_int with_autoDesiredTLogCount value)
  else if key_is "storage_replication_policy" then
    handled (parseReplicationPolicy storagePolicy with_storagePolicy value)
  else if key_is "log_replication_policy" then
    handled (parseReplicationPolicy tLogPolicy with_tLogPolicy value)
  else if key_is "remote_logs" then handled (assign_int with_remoteDesiredTLogCount value)
  else if key_is "remote_log_replicas" then
    handled (assign_int with_remoteTLogReplicationFactor value)
  else if key_is "remote_log_policy" then
    handled (parseReplicationPolicy remoteTLogPolicy with_remoteTLogPolicy value)
  else if key_is "satellite_log_policy" then
    handled (parseReplicationPolicy satelliteTLogPolicy with_satelliteTLogPolicy value)
  else if key_is "satellite_logs" then handled (assign_int with_satelliteDesiredTLogCount value)
  else if key_is "satellite_log_replicas" then
    handled (assign_int with_satelliteTLogReplicationFactor value)
  else if key_is "satellite_anti_quorum" then
    handled (assign_int with_satelliteTLogWriteAntiQuorum value)
  else if key_is "satellite_usable_dcs" then
    handled (assign_int with_satelliteTLogUsableDcs value)
  else if key_is "primary_dc" then handled (modify (with_primaryDcId (Some value)))
  else if key_is "remote_dc" then handled (modify (with_remoteDcId (Some value)))
  else if key_is "primary_satellite_dcs" then
    handled (assign_dcs primarySatelliteDcIds with_primarySatelliteDcIds value)
  else if key_is "remote_satellite_dcs" then
    handled (assign_dcs remoteSatelliteDcIds with_remoteSatelliteDcIds value)
  else if key_is "log_routers" then handled (assign_int with_desiredLogRouterCount value)
  else ret false.

(** [DatabaseConfiguration::setInternal]. *)
Definition setInternal (key value : string) : M bool :=
  fun c =>
    match removePrefix key configKeysPrefix with
    | inr ck => dispatch ck value c
    | inl e => (Throws e, c)
    end.

(** [std::lower_bound] over the sorted vector [rawConfiguration], ordered
    by key: the first position whose key is not less than [key]. *)
Definition lower_bound (config : list (string * string)) (key : string) : nat :=
  StdMap.lower_bound config key.

(** [DatabaseConfiguration::makeConfigurationMutable]. *)
Definition makeConfigurationMutable (c : DatabaseConfiguration) : DatabaseConfiguration :=
  match mutableConfiguration c with
  | Some _ => c
  | None =>
      let mc := fold_left (fun mc r => StdMap.insert (fst r) (snd r) mc)
                          (rawConfiguration c) [] in
      with_rawConfiguration [] (with_mutableConfiguration (Some mc) c)
  end.

(** [DatabaseConfiguration::makeConfigurationImmutable]. *)
Definition makeConfigurationImmutable (c : DatabaseConfiguration) : DatabaseConfiguration :=
  match mutableConfiguration c with
  | None => c
  | Some mc => with_mutableConfiguration None (with_rawConfiguration mc c)
  end.

(** [mutableConfiguration.get()], called where the overlay exists. *)
Definition overlay (c : DatabaseConfiguration) : StdMap.t :=
  match mutableConfiguration c with
  | Some mc => mc
  | None => []
  end.

(** [DatabaseConfiguration::set]. *)
Definition set (key value : string) : M bool :=
  modify makeConfigurationMutable ;;
  modify (fun c => with_mutableConfiguration (Some (StdMap.insert key value (overlay c))) c) ;;
  setInternal key value.

(** [DatabaseConfiguration::clear]. *)
Definition clear (keys : KeyRangeRef) : M bool :=
  modify makeConfigurationMutable ;;
  modify (fun c =>
    let mc := overlay c in
    with_mutableConfiguration
      (Some (StdMap.erase mc (StdMap.lower_bound mc (range_begin keys))
                             (StdMap.lower_bound mc (range_end keys)))) c) ;;
  wasValid <- gets isValid ;;
  modify resetInternal ;;
  mc <- gets overlay ;;
  for_each (fun c => setInternal (fst c) (snd c)) mc ;;
  nowValid <- gets isValid ;;
  ret (wasValid && negb nowValid).

(** [DatabaseConfiguration::get]. *)
Definition get (c : DatabaseConfiguration) (key : string) : option string :=
  match mutableConfiguration c with
  | Some mc => StdMap.find key mc
  | None =>
      match nth_error (rawConfiguration c) (lower_bound (rawConfiguration c) key) with
      | Some (k, v) => if String.eqb k key then Some v else None
      | None => None
      end
  end.

(** The invariant of the two stores: the snapshot is sorted by key without
    repetition, and so is the overlay. *)
Definition store_ok (c : DatabaseConfiguration) : Prop :=
  StdMap.sorted (rawConfiguration c) /\ StdMap.sorted (overlay c).

(** *** Call sequences and descriptions used by the theorems *)

(** The object after a call, whatever its outcome. *)
Definition after {A} (m : M A) (c : DatabaseConfiguration) : DatabaseConfiguration :=
  snd (m c).

(** One [set] call per pair, in list order, each made whatever the outcome
    of the one before (the caller handles a thrown error and goes on). *)
Definition set_all (l : list (string * string)) (c : DatabaseConfiguration)
    : DatabaseConfiguration :=
  fold_left (fun c kv => after (set (fst kv) (snd kv)) c) l c.

(** One [set] call per pair of (key suffix, value), the key in the
    configuration namespace; the sequence ends at the first thrown error. *)
Definition populate (l : list (string * string)) : M unit :=
  for_each (fun kv => set (configKeysPrefix ++ fst kv) (snd kv)) l.

(** The overlay once [clear(keys)] has erased from it. *)
Definition remaining_after (keys : KeyRangeRef) (c : DatabaseConfiguration) : StdMap.t :=
  let mc := overlay (makeConfigurationMutable c) in
  StdMap.erase mc (StdMap.lower_bound mc (range_begin keys))
                  (StdMap.lower_bound mc (range_end keys)).

(** The post-state of [clear] in the words of the spec: with [remaining]
    the pairs left in the (materialised) overlay, "fully resets all typed
    fields to defaults and re-parses every remaining key in the overlay
    from scratch, in key order". *)
Definition reset_and_reparse (remaining : StdMap.t) (c : DatabaseConfiguration)
    : outcome unit * DatabaseConfiguration :=
  for_each (fun kv => setInternal (fst kv) (snd kv)) remaining
    (resetInternal
       (with_mutableConfiguration (Some remaining) (makeConfigurationMutable c))).

(** The value a map of the namespace holds under a key suffix. *)
Definition value_of (pairs : StdMap.t) (s : string) : option string :=
  StdMap.find (configKeysPrefix ++ s) pairs.

(** The state the spec gives for the end of a [clear], member by member:
    "fully resets all typed fields to defaults and re-parses every
    remaining key in the overlay".  A member whose key is not among the
    pairs [parsed] has the default of the data model (-1 for the counts
    and the replication sizes of the primary, the knob for the automatic
    counts, the end sentinel for the engines, nothing for the datacenters
    and the policies, 0 for the remote and satellite sizes, the empty list
    for the satellite lists); a member whose key is among them has the
    value parsed from the pair.  [remaining] is the overlay and [snapshot]
    the snapshot the object is left with. *)
Definition specified_after_clear (snapshot : list (string * string))
    (parsed remaining : StdMap.t) : DatabaseConfiguration :=
  let count s default :=
    match value_of parsed s with Some v => atoi v | None => default end in
  let engine s :=
    match value_of parsed s with Some v => StoreType_of_int (atoi v) | None => END end in
  let policy s :=
    match value_of parsed s with
    | Some v => match serializeReplicationPolicy v None with inr p => p | inl _ => None end
    | None => None
    end in
  let dcs s := match value_of parsed s with Some v => parse_dcs [] v | None => [] end in
  {| initialized := present (value_of parsed "initialized");
     masterProxyCount := count "proxies" (-1);
     resolverCount := count "resolvers" (-1);
     desiredTLogCount := count "logs" (-1);
     tLogWriteAntiQuorum := count "log_anti_quorum" (-1);
     tLogReplicationFactor := count "log_replicas" (-1);
     durableStorageQuorum := count "storage_quorum" (-1);
     storageTeamSize := count "storage_replicas" (-1);
     tLogDataStoreType := engine "log_engine";
     storageServerStoreType := engine "storage_engine";
     autoMasterProxyCount := count "auto_proxies" DEFAULT_AUTO_PROXIES;
     autoResolverCount := count "auto_resolvers" DEFAULT_AUTO_RESOLVERS;
     autoDesiredTLogCount := count "auto_logs" DEFAULT_AUTO_LOGS;
     primaryDcId := value_of parsed "primary_dc";
     remoteDcId := value_of parsed "remote_dc";
     tLogPolicy := policy "log_replication_policy";
     storagePolicy := policy "storage_replication_policy";
     remoteTLogPolicy := policy "remote_log_policy";
     satelliteTLogPolicy := policy "satellite_log_policy";
     remoteDesiredTLogCount := count "remote_logs" (-1);
     satelliteDesiredTLogCount := count "satellite_logs" (-1);
     desiredLogRouterCount := count "log_routers" (-1);
     remoteTLogReplicationFactor := count "remote_log_replicas" 0;
     satelliteTLogReplicationFactor := count "satellite_log_replicas" 0;
     satelliteTLogWriteAntiQuorum := count "satellite_anti_quorum" 0;
     satelliteTLogUsableDcs := count "satellite_usable_dcs" 0;
     primarySatelliteDcIds := dcs "primary_satellite_dcs";
     remoteSatelliteDcIds := dcs "remote_satellite_dcs";
     rawConfiguration := snapshot;
     mutableConfiguration := Some remaining |}.

(** The configuration of the validity-transition scenario: a new object,
    the marker, the four replication counts, the two engines, then the
    default policies. *)
Definition triple_config (log_engine storage_engine : string) : M unit :=
  set (configKeysPrefix ++ "initialized") "" ;;
  set (configKeysPrefix ++ "log_replicas") "3" ;;
  set (configKeysPrefix ++ "storage_quorum") "3" ;;
  set (configKeysPrefix ++ "storage_replicas") "3" ;;
  set (configKeysPrefix ++ "log_anti_quorum") "0" ;;
  set (configKeysPrefix ++ "log_engine") log_engine ;;
  set (configKeysPrefix ++ "storage_engine") storage_engine ;;
  modify setDefaultReplicationPolicy.

(** The object [triple_config] leaves behind. *)
Definition triple_overlay (log_engine storage_engine : string) : StdMap.t :=
  StdMap.insert (configKeysPrefix ++ "storage_engine") storage_engine
    (StdMap.insert (configKeysPrefix ++ "log_engine") log_engine
       (StdMap.insert (configKeysPrefix ++ "log_anti_quorum") "0"
          (StdMap.insert (configKeysPrefix ++ "storage_replicas") "3"
             (StdMap.insert (configKeysPrefix ++ "storage_quorum") "3"
                (StdMap.insert (configKeysPrefix ++ "log_replicas") "3"
                   (StdMap.insert (configKeysPrefix ++ "initialized") "" [])))))).

Definition triple_state (log_engine storage_engine : string) : DatabaseConfiguration :=
  {| initialized := true;
     masterProxyCount := -1;
     resolverCount := -1;
     desiredTLogCount := -1;
     tLogWriteAntiQuorum := 0;
     tLogReplicationFactor := 3;
     durableStorageQuorum := 3;
     storageTeamSize := 3;
     tLogDataStoreType := StoreType_of_int (atoi log_engine);
     storageServerStoreType := StoreType_of_int (atoi storage_engine);
     autoMasterProxyCount := DEFAULT_AUTO_PROXIES;
     autoResolverCount := DEFAULT_AUTO_RESOLVERS;
     autoDesiredTLogCount := DEFAULT_AUTO_LOGS;
     primaryDcId := None;
     remoteDcId := None;
     tLogPolicy := Some (PolicyAcross 3 "zoneid" PolicyOne);
     storagePolicy := Some (PolicyAcross 3 "zoneid" PolicyOne);
     remoteTLogPolicy := None;
     satelliteTLogPolicy := None;
     remoteDesiredTLogCount := -1;
     satelliteDesiredTLogCount := -1;
     desiredLogRouterCount := -1;
     remoteTLogReplicationFactor := 0;
     satelliteTLogReplicationFactor := 0;
     satelliteTLogWriteAntiQuorum := 0;
     satelliteTLogUsableDcs := 0;
     primarySatelliteDcIds := [];
     remoteSatelliteDcIds := [];
     rawConfiguration := [];
     mutableConfiguration := Some (triple_overlay log_engine storage_engine) |}.

(** The invariants of the spec's data model, in its words and order:
    [initialized]; the four replication counts; the six resolved counts;
    both store types set; storage and log policy present; the remote and
    satellite conditions; equal satellite list lengths; and the four
    members the data model declares non-negative. *)
Definition data_model_invariants (c : DatabaseConfiguration) : bool :=
  initialized c &&
  (tLogWriteAntiQuorum c >=? 0) && (tLogReplicationFactor c >=? 1) &&
  (durableStorageQuorum c >=? 1) && (storageTeamSize c >=? 1) &&
  (durableStorageQuorum c <=? storageTeamSize c) &&
  (getDesiredProxies c >=? 1) && (getDesiredResolvers c >=? 1) &&
  (getDesiredLogs c >=? 1) && (getDesiredRemoteLogs c >=? 1) &&
  (getDesiredSatelliteLogs c >=? 1) && (getDesiredLogRouters c >=? 1) &&
  negb (tLogDataStoreType c =? END) && negb (storageServerStoreType c =? END) &&
  present (storagePolicy c) && present (tLogPolicy c) &&
  ((remoteTLogReplicationFactor c =? 0) ||
   (present (remoteTLogPolicy c) && present (primaryDcId c) && present (remoteDcId c) &&
    (durableStorageQuorum c =? storageTeamSize c))) &&
  Bool.eqb (present (primaryDcId c)) (present (remoteDcId c)) &&
  ((satelliteTLogReplicationFactor c =? 0) ||
   (present (satelliteTLogPolicy c) && nonempty (primarySatelliteDcIds c) &&
    nonempty (remoteSatelliteDcIds c) && (remoteTLogReplicationFactor c >? 0))) &&
  (length (primarySatelliteDcIds c) =? length (remoteSatelliteDcIds c))%nat &&
  (remoteTLogReplicationFactor c >=? 0) && (satelliteTLogReplicationFactor c >=? 0) &&
  (satelliteTLogWriteAntiQuorum c >=? 0) && (satelliteTLogUsableDcs c >=? 0).

(** The printable forms of the present entries of a datacenter list. *)
Fixpoint printable_entries (dcs : list (option string)) : list string :=
  match dcs with
  | [] => []
  | Some dc :: dcs' => printable dc :: printable_entries dcs'
  | None :: dcs' => printable_entries dcs'
  end.

(** The rendering the spec gives for [toString]: the pairs as [key=value],
    joined by [;]. *)
Definition display (config : StdMap.t) : string :=
  String.concat ";" (map (fun kv => fst kv ++ "=" ++ snd kv) config).

(** *** The recognised keys as an enumeration

    A reading of the chain of [setInternal] used in the proofs: which branch
    a stripped key takes ([recognise]) and what that branch does ([act]). *)
Inductive ConfigKey : Type :=
| K_initialized
| K_proxies
| K_resolvers
| K_logs
| K_log_replicas
| K_log_anti_quorum
| K_storage_quorum
| K_storage_replicas
| K_log_engine
| K_storage_engine
| K_auto_proxies
| K_auto_resolvers
| K_auto_logs
| K_storage_replication_policy
| K_log_replication_policy
| K_remote_logs
| K_remote_log_replicas
| K_remote_log_policy
| K_satellite_log_policy
| K_satellite_logs
| K_satellite_log_replicas
| K_satellite_anti_quorum
| K_satellite_usable_dcs
| K_primary_dc
| K_remote_dc
| K_primary_satellite_dcs
| K_remote_satellite_dcs
| K_log_routers.

Definition key_name (K : ConfigKey) : string :=
  match K with
  | K_initialized => "initialized"
  | K_proxies => "proxies"
  | K_resolvers => "resolvers"
  | K_logs => "logs"
  | K_log_replicas => "log_replicas"
  | K_log_anti_quorum => "log_anti_quorum"
  | K_storage_quorum => "storage_quorum"
  | K_storage_replicas => "storage_replicas"
  | K_log_engine => "log_engine"
  | K_storage_engine => "storage_engine"
  | K_auto_proxies => "auto_proxies"
  | K_auto_resolvers => "auto_resolvers"
  | K_auto_logs => "auto_logs"
  | K_storage_replication_policy => "storage_replication_policy"
  | K_log_replication_policy => "log_replication_policy"
  | K_remote_logs => "remote_logs"
  | K_remote_log_replicas => "remote_log_replicas"
  | K_remote_log_policy => "remote_log_policy"
  | K_satellite_log_policy => "satellite_log_policy"
  | K_satellite_logs => "satellite_logs"
  | K_satellite_log_replicas => "satellite_log_replicas"
  | K_satellite_anti_quorum => "satellite_anti_quorum"
  | K_satellite_usable_dcs => "satellite_usable_dcs"
  | K_primary_dc => "primary_dc"
  | K_remote_dc => "remote_dc"
  | K_primary_satellite_dcs => "primary_satellite_dcs"
  | K_remote_satellite_dcs => "remote_satellite_dcs"
  | K_log_routers => "log_routers"
  end.

Definition recognise (ck : string) : option ConfigKey :=
  if String.eqb ck "initialized" then Some K_initialized
  else if String.eqb ck "proxies" then Some K_proxies
  else if String.eqb ck "resolvers" then Some K_resolvers
  else if String.eqb ck "logs" then Some K_logs
  else if String.eqb ck "log_replicas" then Some K_log_replicas
  else if String.eqb ck "log_anti_quorum" then Some K_log_anti_quorum
  else if String.eqb ck "storage_quorum" then Some K_storage_quorum
  else if String.eqb ck "storage_replicas" then Some K_storage_replicas
  else if String.eqb ck "log_engine" then Some K_log_engine
  else if String.eqb ck "storage_engine" then Some K_storage_engine
  else if String.eqb ck "auto_proxies" then Some K_auto_proxies
  else if String.eqb ck "auto_resolvers" then Some K_auto_resolvers
  else if String.eqb ck "auto_logs" then Some K_auto_logs
  else if String.eqb ck "storage_replication_policy" then Some K_storage_replication_policy
  else if String.eqb ck "log_replication_policy" then Some K_log_replication_policy
  else if String.eqb ck "remote_logs" then Some K_remote_logs
  else if String.eqb ck "remote_log_replicas" then Some K_remote_log_replicas
  else if String.eqb ck "remote_log_policy" then Some K_remote_log_policy
  else if String.eqb ck "satellite_log_policy" then Some K_satellite_log_policy
  else if String.eqb ck "satellite_logs" then Some K_satellite_logs
  else if String.eqb ck "satellite_log_replicas" then Some K_satellite_log_replicas
  else if String.eqb ck "satellite_anti_quorum" then Some K_satellite_anti_quorum
  else if String.eqb ck "satellite_usable_dcs" then Some K_satellite_usable_dcs
  else if String.eqb ck "primary_dc" then Some K_primary_dc
  else if String.eqb ck "remote_dc" then Some K_remote_dc
  else if String.eqb ck "primary_satellite_dcs" then Some K_primary_satellite_dcs
  else if String.eqb ck "remote_satellite_dcs" then Some K_remote_satellite_dcs
  else if String.eqb ck "log_routers" then Some K_log_routers
  else None.

Definition act (K : ConfigKey) (value : string) : M unit :=
  match K with
  | K_initialized => modify (with_initialized true)
  | K_proxies => assign_int with_masterProxyCount value
  | K_resolvers => assign_int with_resolverCount value
  | K_logs => assign_int with_desiredTLogCount value
  | K_log_replicas => assign_int with_tLogReplicationFactor value
  | K_log_anti_quorum => assign_int with_tLogWriteAntiQuorum value
  | K_storage_quorum => assign_int with_durableStorageQuorum value
  | K_storage_replicas => assign_int with_storageTeamSize value
  | K_log_engine => modify (with_tLogDataStoreType (StoreType_of_int (parse_int value)))
  | K_storage_engine => modify (with_storageServerStoreType (StoreType_of_int (parse_int value)))
  | K_auto_proxies => assign_int with_autoMasterProxyCount value
  | K_auto_resolvers => assign_int with_autoResolverCount value
  | K_auto_logs => assign_int with_autoDesiredTLogCount value
  | K_storage_replication_policy => parseReplicationPolicy storagePolicy with_storagePolicy value
  | K_log_replication_policy => parseReplicationPolicy tLogPolicy with_tLogPolicy value
  | K_remote_logs => assign_int with_remoteDesiredTLogCount value
  | K_remote_log_replicas => assign_int with_remoteTLogReplicationFactor value
  | K_remote_log_policy => parseReplicationPolicy remoteTLogPolicy with_remoteTLogPolicy value
  | K_satellite_log_policy => parseReplicationPolicy satelliteTLogPolicy with_satelliteTLogPolicy value
  | K_satellite_logs => assign_int with_satelliteDesiredTLogCount value
  | K_satellite_log_replicas => assign_int with_satelliteTLogReplicationFactor value
  | K_satellite_anti_quorum => assign_int with_satelliteTLogWriteAntiQuorum value
  | K_satellite_usable_dcs => assign_int with_satelliteTLogUsableDcs value
  | K_primary_dc => modify (with_primaryDcId (Some value))
  | K_remote_dc => modify (with_remoteDcId (Some value))
  | K_primary_satellite_dcs => assign_dcs primarySatelliteDcIds with_primarySatelliteDcIds value
  | K_remote_satellite_dcs => assign_dcs remoteSatelliteDcIds with_remoteSatelliteDcIds value
  | K_log_routers => assign_int with_desiredLogRouterCount value
  end.



(** The members of [d] as a re-parse writes them over: with [look] giving
    the value held under each key suffix, a member whose key [look] does
    not hold stays as in [d], and one whose key it holds is parsed from the
    value; the stores are those of [d]. *)
Definition written_over (look : string -> option string) (d : DatabaseConfiguration)
    : DatabaseConfiguration :=
  let count s old := match look s with Some v => atoi v | None => old end in
  let engine s old :=
    match look s with Some v => StoreType_of_int (atoi v) | None => old end in
  let dc s old := match look s with Some v => Some v | None => old end in
  let policy s old :=
    match look s with
    | Some v => match serializeReplicationPolicy v old with inr p => p | inl _ => old end
    | None => old
    end in
  let dcs s old := match look s with Some v => parse_dcs old v | None => old end in
  {| initialized := match look "initialized" with Some _ => true | None => initialized d end;
     masterProxyCount := count "proxies" (masterProxyCount d);
     resolverCount := count "resolvers" (resolverCount d);
     desiredTLogCount := count "logs" (desiredTLogCount d);
     tLogWriteAntiQuorum := count "log_anti_quorum" (tLogWriteAntiQuorum d);
     tLogReplicationFactor := count "log_replicas" (tLogReplicationFactor d);
     durableStorageQuorum := count "storage_quorum" (durableStorageQuorum d);
     storageTeamSize := count "storage_replicas" (storageTeamSize d);
     tLogDataStoreType := engine "log_engine" (tLogDataStoreType d);
     storageServerStoreType := engine "storage_engine" (storageServerStoreType d);
     autoMasterProxyCount := count "auto_proxies" (autoMasterProxyCount d);
     autoResolverCount := count "auto_resolvers" (autoResolverCount d);
     autoDesiredTLogCount := count "auto_logs" (autoDesiredTLogCount d);
     primaryDcId := dc "primary_dc" (primaryDcId d);
     remoteDcId := dc "remote_dc" (remoteDcId d);
     tLogPolicy := policy "log_replication_policy" (tLogPolicy d);
     storagePolicy := policy "storage_replication_policy" (storagePolicy d);
     remoteTLogPolicy := policy "remote_log_policy" (remoteTLogPolicy d);
     satelliteTLogPolicy := policy "satellite_log_policy" (satelliteTLogPolicy d);
     remoteDesiredTLogCount := count "remote_logs" (remoteDesiredTLogCount d);
     satelliteDesiredTLogCount := count "satellite_logs" (satelliteDesiredTLogCount d);
     desiredLogRouterCount := count "log_routers" (desiredLogRouterCount d);
     remoteTLogReplicationFactor :=
       count "remote_log_replicas" (remoteTLogReplicationFactor d);
     satelliteTLogReplicationFactor :=
       count "satellite_log_replicas" (satelliteTLogReplicationFactor d);
     satelliteTLogWriteAntiQuorum :=
       count "satellite_anti_quorum" (satelliteTLogWriteAntiQuorum d);
     satelliteTLogUsableDcs := count "satellite_usable_dcs" (satelliteTLogUsableDcs d);
     primarySatelliteDcIds := dcs "primary_satellite_dcs" (primarySatelliteDcIds d);
     remoteSatelliteDcIds := dcs "remote_satellite_dcs" (remoteSatelliteDcIds d);
     rawConfiguration := rawConfiguration d;
     mutableConfiguration := mutableConfiguration d |}.




(** The value of the last pair of [l] written under [k], if any. *)
Fixpoint last_written (k : string) (l : list (string * string)) : option string :=
  match l with
  | [] => None
  | (k', v) :: l' =>
      match last_written k l' with
      | Some w => Some w
      | None => if String.eqb k' k then Some v else None
      end
  end.

(** The number of commas of a value. *)
Fixpoint commas (v : string) : nat :=
  match v with
  | String ch v' => if Ascii.eqb ch ","%char then S (commas v') else commas v'
  | EmptyString => O
  end.

(** The values the classifier of [toMap] can give to each mode key. *)
Definition redundancy_modes : list string :=
  ["single"; "double"; "three_datacenter"; "triple"; "three_data_hall"; "multi_dc";
   "custom"].
Definition storage_engines : list string := ["ssd-1"; "ssd-2"; "memory"; "custom"].
Definition satellite_redundancy_modes : list string :=
  ["one_satellite_single"; "one_satellite_double"; "one_satellite_triple";
   "two_satellite_safe"; "two_satellite_fast"; "none"; "custom"].
Definition remote_redundancy_modes : list string :=
  ["remote_single"; "remote_double"; "remote_triple"; "none"; "custom"].

(** The keys [toMap] can write. *)
Definition canonical_keys : list string :=
  ["redundancy_mode"; "storage_engine"; "primary_dc"; "remote_dc";
   "primary_satellite_dcs"; "remote_satellite_dcs"; "satellite_redundancy_mode";
   "remote_redundancy_mode"; "logs"; "remote_logs"; "satellite_logs"; "proxies";
   "resolvers"].

Definition canonical_entry (e : string * string) : Prop := In (fst e) canonical_keys.

(** The keys whose value is a serialised policy. *)
Definition policy_key (s : string) : Prop :=
  s = "storage_replication_policy" \/ s = "log_replication_policy" \/
  s = "remote_log_policy" \/ s = "satellite_log_policy".

(** A pair of the configuration namespace that holds no policy. *)
Definition plain_pair (kv : string * string) : Prop :=
  exists s, fst kv = configKeysPrefix ++ s /\ ~ policy_key s.

End DatabaseConfiguration.

(* ------------------------------------------------------------------ *)
(** ** Mutations and excluded servers

    [applyMutation], [isExcludedServer] and [getExcludedServers] use more of
    what other files declare: [StringRef::startsWith], the key ranges
    [configKeys] and [excludedServersKeys] with the constructor,
    [intersects] and [operator&] of [KeyRangeRef], and the addresses with
    their key encoding.  They are parameters as well. *)
Class SystemKeys : Type := {
  startsWith : string -> string -> bool;
  (** [KeyRangeRef(begin, end)]: the range, or the error thrown *)
  keyRange : string -> string -> Error + KeyRangeRef;
  intersects : KeyRangeRef -> KeyRangeRef -> bool;
  (** [a & b] *)
  range_and : KeyRangeRef -> KeyRangeRef -> KeyRangeRef;
  configKeys : KeyRangeRef;
  excludedServersKeys : KeyRangeRef;
  NetworkAddress : Type;
  AddressExclusion : Type;
  (** [AddressExclusion(a.ip, a.port)] and [AddressExclusion(a.ip)] *)
  exclusion_of_ip_port : NetworkAddress -> AddressExclusion;
  exclusion_of_ip : NetworkAddress -> AddressExclusion;
  encodeExcludedServersKey : AddressExclusion -> string;
  decodeExcludedServersKey : string -> AddressExclusion;
  (** [AddressExclusion::isValid] *)
  exclusion_isValid : AddressExclusion -> bool
}.

(** [MutationRef]: of its types only [SetValue] and [ClearRange] are told
    apart here. *)
Inductive MutationType : Type :=
| SetValue
| ClearRange
| OtherMutation (code : Z).

Record MutationRef : Type := mkMutationRef {
  mtype : MutationType;
  param1 : string;
  param2 : string
}.

(** A concrete key space: addresses are pairs of numbers, an exclusion has
    an optional port, its key is the prefix, ["excluded/"], the ip, and
    [":"] and the port if there is one; a key decodes to the ip alone. *)
Definition sample_exclusion_key (a : Z * option Z) : string :=
  sample_prefix ++ "excluded/" ++ format_d (fst a) ++
  match snd a with
  | Some port => ":" ++ format_d port
  | None => ""
  end.

Definition sample_system_keys : SystemKeys := {|
  startsWith := fun s p => String.prefix p s;
  keyRange := fun b e =>
    if String.leb b e then inr (mkKeyRangeRef b e) else inl (error_code 3);
  intersects := fun a b =>
    String.ltb (range_begin a) (range_end b) && String.ltb (range_begin b) (range_end a);
  range_and := fun a b =>
    let b' := if String.leb (range_begin a) (range_begin b)
              then range_begin b else range_begin a in
    let e' := if String.leb (range_end a) (range_end b)
              then range_end a else range_end b in
    mkKeyRangeRef b' (if String.leb b' e' then e' else b');
  configKeys := mkKeyRangeRef (sample_prefix ++ "") (String (ascii_of_nat 255) "/conf0");
  excludedServersKeys :=
    mkKeyRangeRef (sample_prefix ++ "excluded/") (sample_prefix ++ "excluded0");
  NetworkAddress := (Z * Z)%type;
  AddressExclusion := (Z * option Z)%type;
  exclusion_of_ip_port := fun a => (fst a, Some (snd a));
  exclusion_of_ip := fun a => (fst a, None);
  encodeExcludedServersKey := sample_exclusion_key;
  decodeExcludedServersKey := fun k =>
    (atoi (String.substring 16 (String.length k - 16) k), None);
  exclusion_isValid := fun a => negb (fst a =? 0)
|}.

Section Mutations.
Context {E : Collaborators} {S : SystemKeys}.
Local Open Scope cfg_scope.
Notation "x <- m ;; k" := (bind m (fun x => k))
  (at level 61, m at next level, right associativity) : cfg_scope.
Notation "m ;; k" := (bind m (fun _ => k))
  (at level 61, right associativity) : cfg_scope.

(** [DatabaseConfiguration::applyMutation]. *)
Definition applyMutation (m : MutationRef) : M unit :=
  match mtype m with
  | SetValue =>
      if startsWith (param1 m) configKeysPrefix
      then set (param1 m) (param2 m) ;; ret tt
      else ret tt
  | ClearRange =>
      match keyRange (param1 m) (param2 m) with
      | inr range =>
          if intersects range configKeys
          then clear (range_and range configKeys) ;; ret tt
          else ret tt
      | inl e => throw e
      end
  | OtherMutation _ => ret tt
  end.

(** [DatabaseConfiguration::isExcludedServer]. *)
Definition isExcludedServer (c : DatabaseConfiguration) (a : NetworkAddress) : bool :=
  present (get c (encodeExcludedServersKey (exclusion_of_ip_port a))) ||
  present (get c (encodeExcludedServersKey (exclusion_of_ip a))).

(** The loop of [getExcludedServers] from the position [i] on, [entries]
    the snapshot from [i]; [addrs] is the [std::set] as the sequence of the
    addresses inserted so far. *)
Fixpoint excluded_loop (entries : list (string * string))
    (addrs : list AddressExclusion) : list AddressExclusion :=
  match entries with
  | [] => addrs
  | (key, _) :: entries' =>
      if String.ltb key (range_end excludedServersKeys)
      then
        let a := decodeExcludedServersKey key in
        excluded_loop entries' (if exclusion_isValid a then addrs ++ [a] else addrs)%list
      else addrs
  end.

(** [DatabaseConfiguration::getExcludedServers]: const, yet it collapses
    the overlay into the snapshot first. *)
Definition getExcludedServers : M (list AddressExclusion) :=
  modify makeConfigurationImmutable ;;
  raw <- gets rawConfiguration ;;
  ret (excluded_loop
         (skipn (lower_bound raw (range_begin excludedServersKeys)) raw) []).

End Mutations.

(* ------------------------------------------------------------------ *)
(** ** Concrete inputs

    In the concrete environment: the configuration of the
    validity-transition scenario with both engines set to [1], the range
    of its [storage_replicas] key alone, and three short call sequences. *)

Definition sample_state : @DatabaseConfiguration sample_collaborators :=
  @triple_state sample_collaborators "1" "1".

Definition sample_range : KeyRangeRef :=
  mkKeyRangeRef (sample_prefix ++ "storage_replicas") (sample_prefix ++ "storage_replicat").

(** [remote_logs] set, [logs] not. *)
Definition remote_logs_only : @DatabaseConfiguration sample_collaborators :=
  setDefaultReplicationPolicy
    (after (@populate sample_collaborators [("initialized", ""); ("remote_logs", "5")])
           DatabaseConfiguration_new).

(** [logs] set, [remote_logs] and [satellite_logs] not. *)
Definition logs_only : @DatabaseConfiguration sample_collaborators :=
  setDefaultReplicationPolicy
    (after (@populate sample_collaborators [("initialized", ""); ("logs", "4")])
           DatabaseConfiguration_new).

(** Two satellite datacenters on each side. *)
Definition two_satellites : @DatabaseConfiguration sample_collaborators :=
  setDefaultReplicationPolicy
    (after (@populate sample_collaborators
              [("initialized", ""); ("primary_satellite_dcs", "a,b");
               ("remote_satellite_dcs", "c,d")])
           DatabaseConfiguration_new).

(** Every explicit count set, every invariant of the data model true, and
    [auto_proxies] at 0. *)
Definition explicit_counts : @DatabaseConfiguration sample_collaborators :=
  setDefaultReplicationPolicy
    (after (@populate sample_collaborators
              [("initialized", ""); ("log_replicas", "3"); ("storage_quorum", "3");
               ("storage_replicas", "3"); ("log_anti_quorum", "0"); ("log_engine", "1");
               ("storage_engine", "1"); ("proxies", "2"); ("resolvers", "1");
               ("logs", "3"); ("remote_logs", "1"); ("satellite_logs", "1");
               ("log_routers", "1"); ("auto_proxies", "0")])
           DatabaseConfiguration_new).

(** Only the marker key stored, and a range that covers it. *)
Definition marker_only : @DatabaseConfiguration sample_collaborators :=
  after (@set sample_collaborators (sample_prefix ++ "initialized") "")
        DatabaseConfiguration_new.

Definition marker_range : KeyRangeRef :=
  mkKeyRangeRef (sample_prefix ++ "i") (sample_prefix ++ "j").

(** A [SetValue] on ["logs"]. *)
Definition sample_mutation : MutationRef :=
  mkMutationRef SetValue (sample_prefix ++ "logs") "4".

(** One excluded address stored beside the pairs of [sample_state], and the
    range of all exclusion keys. *)
Definition excluded_state : @DatabaseConfiguration sample_collaborators :=
  after (@set sample_collaborators (sample_exclusion_key (7, None)) "") sample_state.

Definition sample_address : @NetworkAddress sample_system_keys := (7, 80).

Definition excluded_range : KeyRangeRef :=
  mkKeyRangeRef (sample_prefix ++ "excluded/") (sample_prefix ++ "excluded0").


(* ------------------------------------------------------------------ *)
(** * Lemmas *)

(** ** The order of byte strings *)

Module StrOrd := OrderedTypeFacts String_as_OT.

Lemma compare_Lt_iff (a b : string) : String.compare a b = Lt <-> String_as_OT.lt a b.
Proof. apply String_as_OT.cmp_lt. Qed.

Lemma compare_Eq_iff (a b : string) : String.compare a b = Eq <-> a = b.
Proof. apply String_as_OT.cmp_eq. Qed.

Lemma compare_Gt_iff (a b : string) : String.compare a b = Gt <-> String_as_OT.lt b a.
Proof.
  rewrite String.compare_antisym, <- compare_Lt_iff.
  destruct (String.compare b a); simpl; split; congruence.
Qed.

Lemma ltb_true_iff (a b : string) : String.ltb a b = true <-> String_as_OT.lt a b.
Proof.
  unfold String.ltb. rewrite <- compare_Lt_iff.
  destruct (String.compare a b); split; congruence.
Qed.

Lemma ltb_false_iff (a b : string) : String.ltb a b = false <-> ~ String_as_OT.lt a b.
Proof.
  rewrite <- ltb_true_iff. destruct (String.ltb a b); split; congruence.
Qed.

Lemma leb_true_iff (a b : string) : String.leb a b = true <-> ~ String_as_OT.lt b a.
Proof.
  unfold String.leb. rewrite <- compare_Gt_iff.
  destruct (String.compare a b); split; congruence.
Qed.

Lemma leb_false_iff (a b : string) : String.leb a b = false <-> String_as_OT.lt b a.
Proof.
  unfold String.leb. rewrite <- compare_Gt_iff.
  destruct (String.compare a b); split; congruence.
Qed.

Lemma key_lt_iff (a b : string * string) :
  StdMap.key_lt a b <-> String_as_OT.lt (fst a) (fst b).
Proof. apply compare_Lt_iff. Qed.

(** Turn every comparison in the context into [String_as_OT.lt] or [=]. *)
Ltac str_facts :=
  repeat match goal with
  | H : String.compare _ _ = Lt |- _ => apply compare_Lt_iff in H
  | H : String.compare _ _ = Gt |- _ => apply compare_Gt_iff in H
  | H : String.compare _ _ = Eq |- _ => apply compare_Eq_iff in H
  | H : String.ltb _ _ = true |- _ => apply ltb_true_iff in H
  | H : String.ltb _ _ = false |- _ => apply ltb_false_iff in H
  | H : String.leb _ _ = true |- _ => apply leb_true_iff in H
  | H : String.leb _ _ = false |- _ => apply leb_false_iff in H
  | H : StdMap.key_lt _ _ |- _ => apply key_lt_iff in H; simpl in H
  | H : (_ =? _)%string = true |- _ => apply String.eqb_eq in H
  | H : (_ =? _)%string = false |- _ => apply String.eqb_neq in H
  end.

Ltac str_order :=
  str_facts;
  try match goal with
  | |- String.compare _ _ = Lt => apply compare_Lt_iff
  | |- String.compare _ _ = Gt => apply compare_Gt_iff
  | |- String.compare _ _ = Eq => apply compare_Eq_iff
  | |- String.ltb _ _ = true => apply ltb_true_iff
  | |- String.ltb _ _ = false => apply ltb_false_iff
  | |- String.leb _ _ = true => apply leb_true_iff
  | |- String.leb _ _ = false => apply leb_false_iff
  | |- StdMap.key_lt _ _ => apply key_lt_iff; simpl
  end;
  StrOrd.order.

(** Split on every comparison the goal is stuck on. *)
Ltac cmp_cases :=
  repeat match goal with
  | |- context [String.compare ?a ?b] =>
      let C := fresh "C" in destruct (String.compare a b) eqn:C; simpl
  | |- context [String.ltb ?a ?b] =>
      let C := fresh "C" in destruct (String.ltb a b) eqn:C; simpl
  | |- context [String.leb ?a ?b] =>
      let C := fresh "C" in destruct (String.leb a b) eqn:C; simpl
  end.

(** ** The ordered map *)

Lemma find_insert_same (k v : string) (m : StdMap.t) :
  StdMap.find k (StdMap.insert k v m) = Some v.
Proof.
  induction m as [|[k1 v1] m IH]; simpl.
  - cmp_cases; try reflexivity; exfalso; str_order.
  - destruct (String.compare k k1) eqn:C1; simpl; rewrite ?C1; auto;
      cmp_cases; try reflexivity; exfalso; str_order.
Qed.

Lemma find_insert_other (k k' v : string) (m : StdMap.t) :
  k' <> k -> StdMap.find k' (StdMap.insert k v m) = StdMap.find k' m.
Proof.
  intros Hne. induction m as [|[k1 v1] m IH]; simpl.
  - cmp_cases; try reflexivity; exfalso; str_order.
  - destruct (String.compare k k1) eqn:C1; simpl;
      destruct (String.compare k' k1) eqn:C2; simpl; auto;
      cmp_cases; try reflexivity; try (exfalso; str_order).
Qed.

Lemma Forall_key_lt_insert (a : string * string) (k v : string) (m : StdMap.t) :
  String_as_OT.lt (fst a) k -> Forall (StdMap.key_lt a) m ->
  Forall (StdMap.key_lt a) (StdMap.insert k v m).
Proof.
  intros Hk Hm. induction Hm as [|[k1 v1] m H1 Hm IH]; simpl.
  - constructor; [apply key_lt_iff; exact Hk | constructor].
  - destruct (String.compare k k1) eqn:C1.
    + constructor; [apply key_lt_iff; exact Hk | exact Hm].
    + constructor; [apply key_lt_iff; exact Hk |].
      constructor; [exact H1 | exact Hm].
    + constructor; [exact H1 | exact IH].
Qed.

Lemma insert_sorted (k v : string) (m : StdMap.t) :
  StdMap.sorted m -> StdMap.sorted (StdMap.insert k v m).
Proof.
  unfold StdMap.sorted. intros Hs.
  induction Hs as [|[k1 v1] m Hs IH H1]; simpl.
  - constructor; constructor.
  - destruct (String.compare k k1) eqn:C1.
    + apply compare_Eq_iff in C1. subst k1. constructor; [exact Hs |].
      eapply Forall_impl; [| exact H1]. intros x Hx. exact Hx.
    + constructor; [constructor; assumption |].
      constructor; [exact C1 |].
      eapply Forall_impl; [| exact H1]. intros x Hx.
      apply key_lt_iff. simpl. str_order.
    + constructor; [exact IH |].
      apply Forall_key_lt_insert; [simpl; str_order | exact H1].
Qed.

Lemma sorted_tail_bounds (k1 v1 : string) (m : StdMap.t) :
  StdMap.sorted ((k1, v1) :: m) ->
  StdMap.sorted m /\ Forall (fun e => String_as_OT.lt k1 (fst e)) m.
Proof.
  intros Hs. apply StronglySorted_inv in Hs. destruct Hs as [Hs H1].
  split; [exact Hs |].
  eapply Forall_impl; [| exact H1]. intros x Hx. apply key_lt_iff in Hx. exact Hx.
Qed.

Lemma find_In (k v : string) (m : StdMap.t) :
  StdMap.sorted m -> (In (k, v) m <-> StdMap.find k m = Some v).
Proof.
  induction m as [|[k1 v1] m IH]; intros Hs; simpl.
  - split; [contradiction | discriminate].
  - apply sorted_tail_bounds in Hs. destruct Hs as [Hs H1].
    specialize (IH Hs). rewrite Forall_forall in H1.
    destruct (String.compare k k1) eqn:C1.
    + apply compare_Eq_iff in C1. subst k1. split.
      * intros [Heq | Hin]; [congruence |].
        apply H1 in Hin. simpl in Hin. exfalso. str_order.
      * intros Heq. left. congruence.
    + split; [| discriminate].
      intros [Heq | Hin].
      * inversion Heq; subst. exfalso. str_order.
      * apply H1 in Hin. simpl in Hin. exfalso. str_order.
    + rewrite <- IH. split.
      * intros [Heq | Hin]; [| exact Hin]. inversion Heq; subst. exfalso. str_order.
      * intros Hin. right. exact Hin.
Qed.

(** Past [lower_bound m b] only keys not less than [b] remain. *)
Lemma find_skipn_lower_bound (k b : string) (m : StdMap.t) :
  StdMap.sorted m ->
  StdMap.find k (skipn (StdMap.lower_bound m b) m) =
  if String.ltb k b then None else StdMap.find k m.
Proof.
  induction m as [|[k1 v1] m IH]; intros Hs; simpl.
  - destruct (String.ltb k b); reflexivity.
  - apply sorted_tail_bounds in Hs. destruct Hs as [Hs _]. specialize (IH Hs).
    destruct (String.ltb k1 b) eqn:C1; simpl.
    + rewrite IH. destruct (String.ltb k b) eqn:C2; [reflexivity |].
      cmp_cases; try reflexivity; exfalso; str_order.
    + destruct (String.ltb k b) eqn:C2; [| reflexivity].
      cmp_cases; try reflexivity; exfalso; str_order.
Qed.

(** The entries before [lower_bound m a] have keys less than [a]. *)
Lemma firstn_lower_bound_lt (m : StdMap.t) (a : string) :
  Forall (fun e => String_as_OT.lt (fst e) a) (firstn (StdMap.lower_bound m a) m).
Proof.
  induction m as [|[k1 v1] m IH]; simpl; [constructor |].
  destruct (String.ltb k1 a) eqn:C1; simpl; [| constructor].
  constructor; [simpl; str_order | exact IH].
Qed.

(** In a sorted map the entries from [lower_bound m a] on have keys not
    less than [a]. *)
Lemma skipn_lower_bound_ge (m : StdMap.t) (a : string) :
  StdMap.sorted m ->
  Forall (fun e => ~ String_as_OT.lt (fst e) a) (skipn (StdMap.lower_bound m a) m).
Proof.
  induction m as [|[k1 v1] m IH]; intros Hs; simpl; [constructor |].
  apply sorted_tail_bounds in Hs. destruct Hs as [Hs H1].
  destruct (String.ltb k1 a) eqn:C1; simpl; [exact (IH Hs) |].
  constructor; [simpl; str_order |].
  eapply Forall_impl; [| exact H1]. intros x Hx. simpl in Hx. str_order.
Qed.

(** What [find] sees after [erase(lower_bound(a), lower_bound(b))]. *)
Lemma find_erase_range (k a b : string) (m : StdMap.t) :
  StdMap.sorted m -> String.leb a b = true ->
  StdMap.find k (StdMap.erase m (StdMap.lower_bound m a) (StdMap.lower_bound m b)) =
  if String.leb a k && String.ltb k b then None else StdMap.find k m.
Proof.
  intros Hs Hab. unfold StdMap.erase.
  induction m as [|[k1 v1] m IH]; simpl.
  - destruct (String.leb a k && String.ltb k b); reflexivity.
  - pose proof Hs as Hs0.
    apply sorted_tail_bounds in Hs. destruct Hs as [Hs H1]. specialize (IH Hs).
    destruct (String.ltb k1 a) eqn:C1; simpl.
    + assert (C2 : String.ltb k1 b = true) by str_order.
      rewrite C2. simpl. rewrite IH.
      destruct (String.leb a k && String.ltb k b) eqn:C3.
      * apply andb_prop in C3. destruct C3 as [C3 C4].
        cmp_cases; try reflexivity; exfalso; str_order.
      * reflexivity.
    + pose proof (find_skipn_lower_bound k b ((k1, v1) :: m) Hs0) as Hf.
      simpl in Hf. rewrite Hf. clear Hf.
      destruct (String.leb a k) eqn:C3; simpl; [reflexivity |].
      destruct (String.ltb k b) eqn:C4; [| reflexivity].
      cmp_cases; try reflexivity; exfalso; str_order.
Qed.

Lemma sorted_app (m1 m2 : StdMap.t) :
  StdMap.sorted m1 -> StdMap.sorted m2 ->
  (forall x y, In x m1 -> In y m2 -> StdMap.key_lt x y) ->
  StdMap.sorted (m1 ++ m2)%list.
Proof.
  unfold StdMap.sorted. intros H1 H2 H12.
  induction H1 as [|x m1 H1 IH Hx]; simpl; [exact H2 |].
  constructor.
  - apply IH. intros a b Ha Hb. apply H12; [right; exact Ha | exact Hb].
  - apply Forall_app. split; [exact Hx |].
    apply Forall_forall. intros y Hy. apply H12; [left; reflexivity | exact Hy].
Qed.

Lemma Forall_firstn_keep {A} (P : A -> Prop) (n : nat) (l : list A) :
  Forall P l -> Forall P (firstn n l).
Proof.
  intros Hl. revert n. induction Hl as [|x l Hx Hl IH]; intros [|n]; simpl;
    constructor; auto.
Qed.

Lemma sorted_firstn (n : nat) (m : StdMap.t) :
  StdMap.sorted m -> StdMap.sorted (firstn n m).
Proof.
  unfold StdMap.sorted. intros Hs. revert n.
  induction Hs as [|x m Hs IH Hx]; intros [|n]; simpl; try constructor.
  - apply IH.
  - apply Forall_firstn_keep. exact Hx.
Qed.

Lemma sorted_skipn (n : nat) (m : StdMap.t) :
  StdMap.sorted m -> StdMap.sorted (skipn n m).
Proof.
  unfold StdMap.sorted. intros Hs. revert n.
  induction Hs as [|x m Hs IH Hx]; intros [|n]; simpl; try constructor; auto.
Qed.

Lemma erase_range_sorted (a b : string) (m : StdMap.t) :
  StdMap.sorted m -> String.leb a b = true ->
  StdMap.sorted (StdMap.erase m (StdMap.lower_bound m a) (StdMap.lower_bound m b)).
Proof.
  intros Hs Hab. unfold StdMap.erase.
  apply sorted_app; [apply sorted_firstn, Hs | apply sorted_skipn, Hs |].
  intros x y Hx Hy.
  pose proof (firstn_lower_bound_lt m a) as H1.
  pose proof (skipn_lower_bound_ge m b Hs) as H2.
  rewrite Forall_forall in H1, H2.
  apply H1 in Hx. apply H2 in Hy. apply key_lt_iff. str_order.
Qed.

(** Copying a sorted snapshot into a map, pair by pair, gives the snapshot. *)
Lemma insert_last (k v : string) (m : StdMap.t) :
  Forall (fun e => String_as_OT.lt (fst e) k) m ->
  StdMap.insert k v m = (m ++ [(k, v)])%list.
Proof.
  induction 1 as [|[k1 v1] m H1 Hm IH]; simpl; [reflexivity |].
  simpl in H1. cmp_cases; try (exfalso; str_order). rewrite IH. reflexivity.
Qed.

Lemma materialize_sorted (raw acc : StdMap.t) :
  StdMap.sorted (acc ++ raw)%list ->
  fold_left (fun mc r => StdMap.insert (fst r) (snd r) mc) raw acc = (acc ++ raw)%list.
Proof.
  revert acc. induction raw as [|[k v] raw IH]; intros acc Hs; simpl.
  - rewrite app_nil_r. reflexivity.
  - assert (Hlast : StdMap.insert k v acc = (acc ++ [(k, v)])%list).
    { apply insert_last. clear IH.
      induction acc as [|[k1 v1] acc IHa]; simpl in *; [constructor |].
      apply sorted_tail_bounds in Hs. destruct Hs as [Hs H1].
      constructor; [| exact (IHa Hs)].
      rewrite Forall_forall in H1. simpl.
      apply (H1 (k, v)). apply in_or_app. right. left. reflexivity. }
    rewrite Hlast, IH; rewrite <- app_assoc; simpl; [reflexivity | exact Hs].
Qed.

(** The binary search of the snapshot finds what [find] finds. *)
Lemma lower_bound_lookup (k : string) (m : StdMap.t) :
  StdMap.sorted m ->
  match nth_error m (StdMap.lower_bound m k) with
  | Some (k', v) => if String.eqb k' k then Some v else None
  | None => None
  end = StdMap.find k m.
Proof.
  induction m as [|[k1 v1] m IH]; intros Hs; simpl; [reflexivity |].
  apply sorted_tail_bounds in Hs. destruct Hs as [Hs H1].
  destruct (String.ltb k1 k) eqn:C1; simpl.
  - rewrite (IH Hs). cmp_cases; try reflexivity; exfalso; str_order.
  - destruct (String.eqb k1 k) eqn:C2.
    + apply String.eqb_eq in C2. subst k1.
      cmp_cases; try reflexivity; exfalso; str_order.
    + cmp_cases; try reflexivity; exfalso; str_order.
Qed.

(* ------------------------------------------------------------------ *)
(** ** Further properties of the store *)

Lemma find_above (k k1 : string) (m : StdMap.t) :
  Forall (fun e => String_as_OT.lt k1 (fst e)) m -> ~ String_as_OT.lt k1 k ->
  StdMap.find k m = None.
Proof.
  intros Hm Hk. destruct Hm as [|[k2 v2] m H2 _]; cbn; [reflexivity |].
  cbn in H2. cmp_cases; try reflexivity; exfalso; str_order.
Qed.




(* ------------------------------------------------------------------ *)
(** ** The configuration *)

Section Facts.
Context {E : Collaborators}.

(** Walk the chain of [dispatch]: one goal per recognised key, then the
    final [else]. *)
Ltac dispatch_cases ck :=
  unfold dispatch;
  repeat match goal with
  | |- context [String.eqb ck ?name] =>
      destruct (String.eqb_spec ck name); [try subst ck |]
  end.

Ltac policy_cases :=
  unfold parseReplicationPolicy, bind;
  repeat match goal with
  | |- context [serializeReplicationPolicy ?v ?p] =>
      destruct (serializeReplicationPolicy v p)
  end.

(** [setInternal] writes typed members only, and dereferences nothing. *)
Lemma dispatch_store (ck value : string) (c : DatabaseConfiguration) :
  rawConfiguration (snd (dispatch ck value c)) = rawConfiguration c /\
  mutableConfiguration (snd (dispatch ck value c)) = mutableConfiguration c /\
  fst (dispatch ck value c) <> NullDereference.
Proof.
  dispatch_cases ck; policy_cases; cbn; repeat split; congruence.
Qed.

Lemma setInternal_store (key value : string) (c : DatabaseConfiguration) :
  rawConfiguration (snd (setInternal key value c)) = rawConfiguration c /\
  mutableConfiguration (snd (setInternal key value c)) = mutableConfiguration c /\
  fst (setInternal key value c) <> NullDereference.
Proof.
  unfold setInternal. destruct (removePrefix key configKeysPrefix).
  - cbn. repeat split; congruence.
  - apply dispatch_store.
Qed.

Lemma for_each_setInternal_store (l : StdMap.t) (c : DatabaseConfiguration) :
  let r := for_each (fun kv => setInternal (fst kv) (snd kv)) l c in
  rawConfiguration (snd r) = rawConfiguration c /\
  mutableConfiguration (snd r) = mutableConfiguration c /\
  fst r <> NullDereference.
Proof.
  revert c. induction l as [|[k v] l IH]; intros c; cbn.
  - repeat split; congruence.
  - unfold bind.
    destruct (setInternal_store k v c) as (Hr & Hm & Hn).
    destruct (setInternal k v c) as [[b | e |] c1]; cbn in *.
    + destruct (IH c1) as (Hr' & Hm' & Hn'). cbn in *.
      repeat split; congruence.
    + repeat split; congruence.
    + congruence.
Qed.

(** *** The two stores *)

Lemma makeConfigurationMutable_ok (c : DatabaseConfiguration) :
  store_ok c -> StdMap.sorted (overlay (makeConfigurationMutable c)).
Proof.
  intros [Hraw Hmc]. unfold makeConfigurationMutable, overlay in *.
  destruct (mutableConfiguration c) eqn:Hm; cbn.
  - rewrite Hm. exact Hmc.
  - rewrite (materialize_sorted (rawConfiguration c) []); [exact Hraw | exact Hraw].
Qed.

(** Materialising the overlay changes no answer of [get]. *)
Lemma get_makeConfigurationMutable (c : DatabaseConfiguration) (k : string) :
  store_ok c ->
  StdMap.find k (overlay (makeConfigurationMutable c)) = get c k.
Proof.
  intros [Hraw Hmc]. unfold makeConfigurationMutable, overlay, get, lower_bound in *.
  destruct (mutableConfiguration c) eqn:Hm; cbn.
  - rewrite Hm. reflexivity.
  - rewrite (materialize_sorted (rawConfiguration c) []); [| exact Hraw]. cbn.
    symmetry. apply lower_bound_lookup. exact Hraw.
Qed.

(** The overlay [clear] leaves behind, whatever its outcome. *)
Lemma clear_store (keys : KeyRangeRef) (c : DatabaseConfiguration) :
  let mc := overlay (makeConfigurationMutable c) in
  mutableConfiguration (after (clear keys) c) =
  Some (StdMap.erase mc (StdMap.lower_bound mc (range_begin keys))
                        (StdMap.lower_bound mc (range_end keys))).
Proof.
  intros mc. unfold after, clear, bind, modify, gets, ret. cbn.
  match goal with
  | |- context [for_each ?f ?l ?c0] =>
      destruct (for_each_setInternal_store l c0) as (_ & Hm & Hn);
      destruct (for_each f l c0) as [[u | e |] c1]
  end; cbn in *; try congruence; exact Hm.
Qed.

(** The overlay [set] leaves behind, whatever its outcome. *)
Lemma set_store (key value : string) (c : DatabaseConfiguration) :
  mutableConfiguration (after (set key value) c) =
  Some (StdMap.insert key value (overlay (makeConfigurationMutable c))).
Proof.
  unfold after, set, bind, modify. cbn.
  match goal with
  | |- context [setInternal ?k ?v ?c0] =>
      destruct (setInternal_store k v c0) as (_ & Hm & _)
  end.
  exact Hm.
Qed.

Lemma overlay_of_present (c : DatabaseConfiguration) (mc : StdMap.t) :
  mutableConfiguration c = Some mc -> overlay (makeConfigurationMutable c) = mc.
Proof.
  intros Hm. unfold overlay, makeConfigurationMutable. rewrite Hm, Hm. reflexivity.
Qed.

(** A pair whose key no later call writes is still there at the end. *)
Lemma set_all_keeps (l : list (string * string)) (c : DatabaseConfiguration)
    (mc : StdMap.t) (k : string) :
  mutableConfiguration c = Some mc -> ~ In k (map fst l) ->
  get (set_all l c) k = StdMap.find k mc.
Proof.
  revert c mc. induction l as [|[k1 v1] l IH]; intros c mc Hm Hk; cbn in Hk.
  - cbn. unfold get. rewrite Hm. reflexivity.
  - change (set_all ((k1, v1) :: l) c) with (set_all l (after (set k1 v1) c)).
    pose proof (set_store k1 v1 c) as Hs.
    rewrite (overlay_of_present c mc Hm) in Hs.
    rewrite (IH _ _ Hs); [| tauto].
    apply find_insert_other. intros Heq. apply Hk. left. congruence.
Qed.

Lemma isValid_makeConfigurationMutable (c : DatabaseConfiguration) :
  isValid (makeConfigurationMutable c) = isValid c.
Proof.
  unfold makeConfigurationMutable. destruct (mutableConfiguration c); reflexivity.
Qed.

Lemma isValid_with_mutableConfiguration (mc : option StdMap.t)
    (c : DatabaseConfiguration) :
  isValid (with_mutableConfiguration mc c) = isValid c.
Proof. reflexivity. Qed.

(** *** Store operations *)

(** C4: after any sequence of [set(k, v)] calls with pairwise distinct keys,
    [get(k)] returns the value written to [k], for every key of the
    sequence. *)
Theorem set_all_get (l : list (string * string)) (c : DatabaseConfiguration)
    (k v : string) :
  NoDup (map fst l) -> In (k, v) l -> get (set_all l c) k = Some v.
Proof.
  revert c. induction l as [|[k1 v1] l IH]; intros c Hnd Hin; [contradiction |].
  cbn in Hnd. apply NoDup_cons_iff in Hnd. destruct Hnd as [Hk1 Hnd].
  change (set_all ((k1, v1) :: l) c) with (set_all l (after (set k1 v1) c)).
  destruct Hin as [Heq | Hin].
  - inversion Heq; subst k1 v1.
    rewrite (set_all_keeps l _ _ k (set_store k v c) Hk1).
    apply find_insert_same.
  - apply IH; assumption.
Qed.

Lemma get_after_clear (c : DatabaseConfiguration) (keys : KeyRangeRef) (k : string) :
  store_ok c -> String.leb (range_begin keys) (range_end keys) = true ->
  get (after (clear keys) c) k = if contains keys k then None else get c k.
Proof.
  intros Hok Hle. unfold get at 1. rewrite clear_store.
  rewrite find_erase_range;
    [| apply makeConfigurationMutable_ok; exact Hok | exact Hle].
  rewrite get_makeConfigurationMutable by exact Hok. reflexivity.
Qed.

Lemma remaining_after_sorted (c : DatabaseConfiguration) (keys : KeyRangeRef) :
  store_ok c -> String.leb (range_begin keys) (range_end keys) = true ->
  StdMap.sorted (remaining_after keys c).
Proof.
  intros Hok Hle. apply erase_range_sorted; [| exact Hle].
  apply makeConfigurationMutable_ok. exact Hok.
Qed.

(** What remains is what the store held under the keys outside the range. *)
Lemma remaining_after_In (c : DatabaseConfiguration) (keys : KeyRangeRef)
    (k v : string) :
  store_ok c -> String.leb (range_begin keys) (range_end keys) = true ->
  (In (k, v) (remaining_after keys c) <-> get c k = Some v /\ contains keys k = false).
Proof.
  intros Hok Hle.
  rewrite find_In by (apply remaining_after_sorted; assumption).
  unfold remaining_after.
  rewrite find_erase_range
    by (try apply makeConfigurationMutable_ok; assumption).
  rewrite get_makeConfigurationMutable by exact Hok.
  fold (contains keys k). destruct (contains keys k); split.
  - discriminate.
  - intros [_ Hc]. discriminate.
  - intros Hg. split; [exact Hg | reflexivity].
  - intros [Hg _]. exact Hg.
Qed.

(** [clear] is the re-parse of what remains, followed by the comparison of
    validity before and after. *)
Lemma clear_run (c : DatabaseConfiguration) (keys : KeyRangeRef) :
  clear keys c =
  match reset_and_reparse (remaining_after keys c) c with
  | (Normal _, c') => (Normal (isValid c && negb (isValid c')), c')
  | (Throws e, c') => (Throws e, c')
  | (NullDereference, c') => (NullDereference, c')
  end.
Proof.
  unfold reset_and_reparse, remaining_after, clear, bind, modify, gets, ret. cbn.
  match goal with
  | |- context [for_each ?f ?l ?c0] => destruct (for_each f l c0) as [[u | e |] c1]
  end; cbn; try reflexivity.
  rewrite isValid_with_mutableConfiguration, isValid_makeConfigurationMutable.
  reflexivity.
Qed.

(** C3: after [clear([a,b))], [get(k)] is absent for every [k] in [[a,b)],
    and for every [k] outside it returns what it returned before. *)
Theorem clear_get_frame (c : DatabaseConfiguration) (keys : KeyRangeRef) (k : string) :
  store_ok c -> String.leb (range_begin keys) (range_end keys) = true ->
  (contains keys k = true -> get (after (clear keys) c) k = None) /\
  (contains keys k = false -> get (after (clear keys) c) k = get c k).
Proof.
  intros Hok Hle. rewrite (get_after_clear c keys k Hok Hle).
  split; intros Hc; rewrite Hc; reflexivity.
Qed.


(** *** Strings *)

Lemma append_assoc (a b c : string) : ((a ++ b) ++ c = a ++ (b ++ c))%string.
Proof. induction a as [|x a IH]; cbn; [reflexivity | rewrite IH; reflexivity]. Qed.

Lemma append_empty_r (a : string) : (a ++ "" = a)%string.
Proof. induction a as [|x a IH]; cbn; [reflexivity | rewrite IH; reflexivity]. Qed.

Lemma length_append (a b : string) :
  String.length (a ++ b) = (String.length a + String.length b)%nat.
Proof. induction a as [|x a IH]; cbn; [reflexivity | rewrite IH; reflexivity]. Qed.

Lemma substring_prefix (a b : string) :
  String.substring 0 (String.length a) (a ++ b) = a.
Proof.
  induction a as [|x a IH]; cbn.
  - destruct b; reflexivity.
  - rewrite IH. reflexivity.
Qed.

Lemma substring_whole (a : string) : String.substring 0 (String.length a) a = a.
Proof.
  pose proof (substring_prefix a "") as H. rewrite append_empty_r in H. exact H.
Qed.

(** Dropping the last byte of [a ++ ";"], the way [toString] does. *)
Lemma drop_last_separator (a : string) :
  String.substring 0 (String.length (a ++ ";") - 1) (a ++ ";") = a.
Proof.
  rewrite length_append. cbn [String.length].
  replace (String.length a + 1 - 1)%nat with (String.length a) by lia.
  apply substring_prefix.
Qed.

(** *** The canonical map *)

Ltac block_cases :=
  repeat match goal with
  | |- context [match ?o with Some _ => _ | None => _ end] => destruct o
  | |- context [if ?b then _ else _] => destruct b
  end.


Ltac put_other :=
  intros; block_cases; try reflexivity; apply find_insert_other; assumption.



(** A block leaves the entries of every other key alone. *)
Lemma put_redundancy_mode_other k c ti si r :
  k <> "redundancy_mode"%string ->
  StdMap.find k (put_redundancy_mode c ti si r) = StdMap.find k r.
Proof. unfold put_redundancy_mode. put_other. Qed.
Lemma put_storage_engine_other k c r :
  k <> "storage_engine"%string -> StdMap.find k (put_storage_engine c r) = StdMap.find k r.
Proof. unfold put_storage_engine. put_other. Qed.
Lemma put_primary_dc_other k c r :
  k <> "primary_dc"%string -> StdMap.find k (put_primary_dc c r) = StdMap.find k r.
Proof. unfold put_primary_dc. put_other. Qed.
Lemma put_remote_dc_other k c r :
  k <> "remote_dc"%string -> StdMap.find k (put_remote_dc c r) = StdMap.find k r.
Proof. unfold put_remote_dc. put_other. Qed.
Lemma put_primary_satellite_dcs_other k c r :
  k <> "primary_satellite_dcs"%string ->
  StdMap.find k (put_primary_satellite_dcs c r) = StdMap.find k r.
Proof. unfold put_primary_satellite_dcs. put_other. Qed.
Lemma put_remote_satellite_dcs_other k c r :
  k <> "remote_satellite_dcs"%string ->
  StdMap.find k (put_remote_satellite_dcs c r) = StdMap.find k r.
Proof. unfold put_remote_satellite_dcs. put_other. Qed.
Lemma put_satellite_redundancy_mode_other k c r :
  k <> "satellite_redundancy_mode"%string ->
  StdMap.find k (put_satellite_redundancy_mode c r) = StdMap.find k r.
Proof. unfold put_satellite_redundancy_mode. put_other. Qed.
Lemma put_remote_redundancy_mode_other k c r :
  k <> "remote_redundancy_mode"%string ->
  StdMap.find k (put_remote_redundancy_mode c r) = StdMap.find k r.
Proof. unfold put_remote_redundancy_mode. put_other. Qed.
Lemma put_logs_other k c r :
  k <> "logs"%string -> StdMap.find k (put_logs c r) = StdMap.find k r.
Proof. unfold put_logs. put_other. Qed.
Lemma put_remote_logs_other k c r :
  k <> "remote_logs"%string -> StdMap.find k (put_remote_logs c r) = StdMap.find k r.
Proof. unfold put_remote_logs. put_other. Qed.
Lemma put_satellite_logs_other k c r :
  k <> "satellite_logs"%string -> StdMap.find k (put_satellite_logs c r) = StdMap.find k r.
Proof. unfold put_satellite_logs. put_other. Qed.
Lemma put_proxies_other k c r :
  k <> "proxies"%string -> StdMap.find k (put_proxies c r) = StdMap.find k r.
Proof. unfold put_proxies. put_other. Qed.
Lemma put_resolvers_other k c r :
  k <> "resolvers"%string -> StdMap.find k (put_resolvers c r) = StdMap.find k r.
Proof. unfold put_resolvers. put_other. Qed.

(** Look a literal key up through the blocks that write other keys. *)
Ltac skip_blocks :=
  repeat first
    [ rewrite put_resolvers_other by discriminate
    | rewrite put_proxies_other by discriminate
    | rewrite put_satellite_logs_other by discriminate
    | rewrite put_remote_logs_other by discriminate
    | rewrite put_logs_other by discriminate
    | rewrite put_remote_redundancy_mode_other by discriminate
    | rewrite put_satellite_redundancy_mode_other by discriminate
    | rewrite put_remote_satellite_dcs_other by discriminate
    | rewrite put_primary_satellite_dcs_other by discriminate
    | rewrite put_remote_dc_other by discriminate
    | rewrite put_primary_dc_other by discriminate
    | rewrite put_storage_engine_other by discriminate
    | rewrite put_redundancy_mode_other by discriminate ].

(** [toMap] returns unless it is initialised with a null storage or log
    policy. *)
Lemma toMap_cases (c : DatabaseConfiguration) :
  toMap c =
  if initialized c then
    match tLogPolicy c, storagePolicy c with
    | Some tp, Some sp => Normal (toMap_body c (info tp) (info sp) [])
    | _, _ => NullDereference
    end
  else Normal [].
Proof.
  unfold toMap, info_of.
  destruct (initialized c), (tLogPolicy c), (storagePolicy c); reflexivity.
Qed.

(** *** The field parser *)

(** What one step of the chain does to the members the theorems below
    follow: only the four policy keys can throw, and each member is
    written by its own key only. *)
Lemma dispatch_effects (s value : string) (c : DatabaseConfiguration) :
  let r := dispatch s value c in
  initialized (snd r) = (String.eqb s "initialized" || initialized c) /\
  (s <> "log_replication_policy"%string -> tLogPolicy (snd r) = tLogPolicy c) /\
  (s <> "storage_replication_policy"%string -> storagePolicy (snd r) = storagePolicy c) /\
  (s <> "storage_replicas"%string -> storageTeamSize (snd r) = storageTeamSize c) /\
  (~ policy_key s -> exists b, fst r = Normal b).
Proof.
  unfold policy_key.
  dispatch_cases s; policy_cases; cbn;
    repeat split; intros; try congruence; try tauto; eauto.
Qed.

Lemma append_inj_l (p a b : string) : (p ++ a = p ++ b)%string -> a = b.
Proof.
  induction p as [|x p IH]; cbn; intros H; [exact H |].
  inversion H. auto.
Qed.

(** Re-parsing pairs of the namespace that hold no policy returns, leaves
    the policies as they were, raises [initialized] if its key is among
    them, and leaves [storageTeamSize] alone if its key is not. *)
Lemma reparse_plain (l : StdMap.t) (c : DatabaseConfiguration) :
  removePrefix_strips -> Forall plain_pair l ->
  exists c',
    for_each (fun kv => setInternal (fst kv) (snd kv)) l c = (Normal tt, c') /\
    tLogPolicy c' = tLogPolicy c /\
    storagePolicy c' = storagePolicy c /\
    (initialized c = true \/
     (exists v, In ((configKeysPrefix ++ "initialized")%string, v) l) ->
     initialized c' = true) /\
    ((forall v, ~ In ((configKeysPrefix ++ "storage_replicas")%string, v) l) ->
     storageTeamSize c' = storageTeamSize c).
Proof.
  intros Hstrip Hl. revert c.
  induction Hl as [|[k v] l (s & Hk & Hs) Hl IH]; intros c; cbn in *.
  - exists c. repeat split; try reflexivity.
    intros [H | [w []]]. exact H.
  - subst k. unfold bind, setInternal. rewrite Hstrip.
    destruct (dispatch_effects s v c) as (Hi & Ht & Hsp & Hst & Hn).
    destruct (Hn Hs) as [b Hb]. unfold policy_key in Hs.
    destruct (dispatch s v c) as [o c1]. cbn in *. subst o.
    destruct (IH c1) as (c' & Hrun & Ht' & Hsp' & Hi' & Hst').
    exists c'. split; [exact Hrun |].
    split; [rewrite Ht', Ht; [reflexivity | tauto] |].
    split; [rewrite Hsp', Hsp; [reflexivity | tauto] |].
    split.
    + intros H. apply Hi'. rewrite Hi.
      destruct H as [H | [w [H | H]]].
      * left. rewrite H. apply orb_true_r.
      * left. inversion H as [[H1 H2]]. apply append_inj_l in H1. subst s.
        reflexivity.
      * right. exists w. exact H.
    + intros H. rewrite Hst'.
      * apply Hst. intros Heq. subst s. apply (H v). left. reflexivity.
      * intros w Hw. apply (H w). right. exact Hw.
Qed.

Lemma In_insert (x : string * string) (k v : string) (m : StdMap.t) :
  In x (StdMap.insert k v m) -> x = (k, v) \/ In x m.
Proof.
  induction m as [|[k1 v1] m IH]; cbn.
  - intros [H | []]. left. congruence.
  - destruct (String.compare k k1); cbn.
    + intros [H | H]; [left; congruence | right; right; exact H].
    + intros [H | H]; [left; congruence | right; exact H].
    + intros [H | H]; [right; left; exact H |].
      destruct (IH H) as [H1 | H1]; [left; exact H1 | right; right; exact H1].
Qed.

(** *** The validity-transition scenario *)

Lemma atoi_3 : atoi "3" = 3.
Proof. vm_compute. reflexivity. Qed.

Lemma atoi_0 : atoi "0" = 0.
Proof. vm_compute. reflexivity. Qed.

(** A [set] on a key of the namespace: the overlay written, then the chain
    on the suffix. *)
Lemma set_in_namespace (s value : string) (c : DatabaseConfiguration) :
  removePrefix_strips ->
  set (configKeysPrefix ++ s) value c =
  dispatch s value
    (with_mutableConfiguration
       (Some (StdMap.insert (configKeysPrefix ++ s) value
                (overlay (makeConfigurationMutable c))))
       (makeConfigurationMutable c)).
Proof.
  intros Hstrip. unfold set, bind, modify, setInternal. cbn. rewrite Hstrip. reflexivity.
Qed.

Ltac run_set Hstrip :=
  unfold bind at 1; rewrite set_in_namespace by exact Hstrip;
  cbn -[atoi StdMap.insert String.append setDefaultReplicationPolicy].

Lemma triple_config_run (e1 e2 : string) :
  removePrefix_strips ->
  triple_config e1 e2 DatabaseConfiguration_new = (Normal tt, triple_state e1 e2).
Proof.
  intros Hstrip. unfold triple_config.
  do 7 run_set Hstrip.
  unfold modify, parse_int. rewrite atoi_3, atoi_0. reflexivity.
Qed.

Lemma triple_state_valid (e1 e2 : string) :
  1 <= DEFAULT_AUTO_PROXIES -> 1 <= DEFAULT_AUTO_RESOLVERS -> 1 <= DEFAULT_AUTO_LOGS ->
  StoreType_of_int (atoi e1) <> END -> StoreType_of_int (atoi e2) <> END ->
  isValid (triple_state e1 e2) = true.
Proof.
  intros Hp Hr Hl He1 He2.
  assert (G1 : getDesiredProxies (triple_state e1 e2) = DEFAULT_AUTO_PROXIES)
    by reflexivity.
  assert (G2 : getDesiredResolvers (triple_state e1 e2) = DEFAULT_AUTO_RESOLVERS)
    by reflexivity.
  assert (G3 : getDesiredLogs (triple_state e1 e2) = DEFAULT_AUTO_LOGS) by reflexivity.
  assert (G4 : getDesiredRemoteLogs (triple_state e1 e2) = 1) by reflexivity.
  assert (G5 : getDesiredSatelliteLogs (triple_state e1 e2) = 1) by reflexivity.
  assert (G6 : getDesiredLogRouters (triple_state e1 e2) = 1) by reflexivity.
  unfold isValid. rewrite G1, G2, G3, G4, G5, G6.
  cbn -[atoi Z.geb Z.eqb].
  apply Z.eqb_neq in He1, He2. rewrite He1, He2.
  apply Z.geb_le in Hp, Hr, Hl. rewrite Hp, Hr, Hl.
  reflexivity.
Qed.

Lemma triple_state_mode (e1 e2 : string) :
  info (PolicyAcross 3 "zoneid" PolicyOne) <> three_datacenter_info ->
  exists m, toMap (triple_state e1 e2) = Normal m /\
            StdMap.find "redundancy_mode" m = Some "triple"%string.
Proof.
  intros Hinfo. rewrite toMap_cases. cbn -[toMap_body atoi].
  eexists. split; [reflexivity |].
  unfold toMap_body. skip_blocks.
  unfold put_redundancy_mode. cbn -[atoi].
  apply String.eqb_neq in Hinfo. rewrite Hinfo. cbn. reflexivity.
Qed.

Lemma triple_state_store_ok (e1 e2 : string) : store_ok (triple_state e1 e2).
Proof.
  split.
  - exact (SSorted_nil _).
  - change (StdMap.sorted (triple_overlay e1 e2)).
    unfold triple_overlay. repeat apply insert_sorted. exact (SSorted_nil _).
Qed.

Lemma triple_overlay_plain (e1 e2 : string) (x : string * string) :
  In x (triple_overlay e1 e2) -> plain_pair x.
Proof.
  unfold triple_overlay. intros H.
  repeat (apply In_insert in H; destruct H as [H | H]); try contradiction;
    subst x; eexists; (split; [reflexivity |]);
    unfold policy_key; intros [H | [H | [H | H]]]; discriminate.
Qed.

Lemma triple_state_plain (e1 e2 k v : string) :
  get (triple_state e1 e2) k = Some v -> plain_pair (k, v).
Proof.
  intros H. apply (triple_overlay_plain e1 e2).
  apply find_In; [apply (triple_state_store_ok e1 e2) | exact H].
Qed.

Lemma isValid_needs_storageTeamSize (c : DatabaseConfiguration) :
  storageTeamSize c = -1 -> isValid c = false.
Proof.
  intros H. unfold isValid. rewrite H.
  change (-1 >=? 1) with false.
  rewrite andb_false_r. reflexivity.
Qed.

Lemma contains_range_ok (keys : KeyRangeRef) (k : string) :
  contains keys k = true -> String.leb (range_begin keys) (range_end keys) = true.
Proof.
  unfold contains. intros H. apply andb_prop in H. destruct H as [H1 H2].
  str_order.
Qed.

(** What a [clear] leaves when every surviving pair is plain. *)
Lemma clear_plain (c : DatabaseConfiguration) (keys : KeyRangeRef) :
  removePrefix_strips -> store_ok c ->
  String.leb (range_begin keys) (range_end keys) = true ->
  (forall k v, get c k = Some v -> contains keys k = false -> plain_pair (k, v)) ->
  exists c',
    clear keys c = (Normal (isValid c && negb (isValid c')), c') /\
    tLogPolicy c' = None /\ storagePolicy c' = None /\
    ((exists v, get c (configKeysPrefix ++ "initialized")%string = Some v) ->
     contains keys (configKeysPrefix ++ "initialized")%string = false ->
     initialized c' = true) /\
    (contains keys (configKeysPrefix ++ "storage_replicas")%string = true ->
     storageTeamSize c' = -1).
Proof.
  intros Hstrip Hok Hle Hplain.
  assert (Hrem : Forall plain_pair (remaining_after keys c)).
  { apply Forall_forall. intros [k v] Hin.
    apply (remaining_after_In c keys k v Hok Hle) in Hin.
    destruct Hin as [Hg Hc]. exact (Hplain k v Hg Hc). }
  rewrite clear_run. unfold reset_and_reparse.
  match goal with
  | |- context [for_each ?f ?l ?c0] =>
      destruct (reparse_plain l c0 Hstrip Hrem) as (c' & Hrun & Ht & Hs & Hi & Hst)
  end.
  rewrite Hrun. exists c'. split; [reflexivity |].
  split; [exact Ht |]. split; [exact Hs |]. split.
  - intros [v Hv] Hc. apply Hi. right. exists v.
    apply (remaining_after_In c keys _ v Hok Hle). split; assumption.
  - intros Hc. rewrite Hst; [reflexivity |].
    intros v Hin. apply (remaining_after_In c keys _ v Hok Hle) in Hin.
    destruct Hin as [_ Hin]. congruence.
Qed.

(** C1: the configuration with log replication 3, storage quorum 3, team
    size 3, anti-quorum 0, the marker, both engines set and the default
    zone policies is valid and its canonical map gives [triple] for
    [redundancy_mode]; a [clear] of any range that holds the
    [storage_replicas] key then returns true and leaves [storageTeamSize]
    at -1. *)
Theorem triple_then_clear (log_engine storage_engine : string) :
  removePrefix_strips ->
  1 <= DEFAULT_AUTO_PROXIES -> 1 <= DEFAULT_AUTO_RESOLVERS -> 1 <= DEFAULT_AUTO_LOGS ->
  StoreType_of_int (atoi log_engine) <> END ->
  StoreType_of_int (atoi storage_engine) <> END ->
  info (PolicyAcross 3 "zoneid" PolicyOne) <> three_datacenter_info ->
  exists c,
    triple_config log_engine storage_engine DatabaseConfiguration_new = (Normal tt, c) /\
    isValid c = true /\
    (exists m, toMap c = Normal m /\
               StdMap.find "redundancy_mode" m = Some "triple"%string) /\
    forall keys,
      contains keys (configKeysPrefix ++ "storage_replicas")%string = true ->
      exists c', clear keys c = (Normal true, c') /\ storageTeamSize c' = -1.
Proof.
  intros Hstrip Hp Hr Hl He1 He2 Hinfo.
  exists (triple_state log_engine storage_engine).
  split; [apply triple_config_run; exact Hstrip |].
  pose proof (triple_state_valid log_engine storage_engine Hp Hr Hl He1 He2) as Hvalid.
  split; [exact Hvalid |].
  split; [apply triple_state_mode; exact Hinfo |].
  intros keys Hc.
  destruct (clear_plain (triple_state log_engine storage_engine) keys Hstrip
              (triple_state_store_ok _ _) (contains_range_ok keys _ Hc))
    as (c' & Hrun & _ & _ & _ & Hst).
  { intros k v Hg _. exact (triple_state_plain _ _ k v Hg). }
  exists c'. specialize (Hst Hc). split; [| exact Hst].
  rewrite Hrun, Hvalid, (isValid_needs_storageTeamSize c' Hst). reflexivity.
Qed.

(** C9: an initialised [toMap] reads the signature of the log policy and of
    the storage policy first, so it dereferences a null reference exactly
    when one of them is absent; and a [clear] that keeps the marker and
    only pairs that hold no policy leaves such a state: initialised, both
    policies null, [toMap] undefined. *)
Theorem toMap_null_policy_after_clear (c : DatabaseConfiguration) (keys : KeyRangeRef) :
  removePrefix_strips -> store_ok c ->
  String.leb (range_begin keys) (range_end keys) = true ->
  (forall k v, get c k = Some v -> contains keys k = false -> plain_pair (k, v)) ->
  (exists v, get c (configKeysPrefix ++ "initialized")%string = Some v) ->
  contains keys (configKeysPrefix ++ "initialized")%string = false ->
  (forall d, initialized d = true ->
     (toMap d = NullDereference <-> tLogPolicy d = None \/ storagePolicy d = None)) /\
  exists b c',
    clear keys c = (Normal b, c') /\ initialized c' = true /\
    tLogPolicy c' = None /\ storagePolicy c' = None /\ toMap c' = NullDereference.
Proof.
  intros Hstrip Hok Hle Hplain Hinit Hout. split.
  - intros d Hd. rewrite toMap_cases, Hd.
    destruct (tLogPolicy d), (storagePolicy d); split; intros H;
      try discriminate; try reflexivity; auto; destruct H; discriminate.
  - destruct (clear_plain c keys Hstrip Hok Hle Hplain)
      as (c' & Hrun & Ht & Hs & Hi & _).
    specialize (Hi Hinit Hout).
    exists (isValid c && negb (isValid c')), c'.
    repeat split; try assumption.
    rewrite toMap_cases, Hi, Ht. reflexivity.
Qed.

(** *** The chain, key by key *)

Ltac policy_split :=
  repeat match goal with
  | H : serializeReplicationPolicy ?v ?q = ?r
    |- context [serializeReplicationPolicy ?v ?p] =>
      let H2 := fresh "Hs" in
      assert (H2 : serializeReplicationPolicy v p = r) by exact H;
      rewrite H2; clear H2; cbn
  | |- context [serializeReplicationPolicy ?v ?p] =>
      destruct (serializeReplicationPolicy v p) eqn:?; cbn
  end.

Lemma dispatch_act (s value : string) :
  dispatch s value =
  match recognise s with
  | Some K => bind (act K value) (fun _ => ret true)
  | None => ret false
  end.
Proof.
  unfold dispatch, recognise. dispatch_cases s; reflexivity.
Qed.

Lemma recognise_name (s : string) (K : ConfigKey) :
  recognise s = Some K -> s = key_name K.
Proof.
  unfold recognise. dispatch_cases s; intros H; inversion H; reflexivity.
Qed.










(** *** Independence of the stores *)






(** *** Rendering *)

Lemma toString_loop_acc (config : StdMap.t) (acc : string) :
  config <> [] ->
  fold_left (fun result itr => (result ++ (fst itr ++ "=" ++ snd itr)) ++ ";")%string
            config acc
  = (acc ++ display config ++ ";")%string.
Proof.
  revert acc. induction config as [|kv config IH]; intros acc Hne; [congruence |].
  destruct config as [|kv' config].
  - cbn. rewrite !append_assoc. reflexivity.
  - change (fold_left ?f (kv :: ?l) acc) with (fold_left f l (f acc kv)).
    rewrite IH by discriminate.
    unfold display. cbn [map String.concat]. rewrite !append_assoc. reflexivity.
Qed.

Lemma toString_display (c : DatabaseConfiguration) (m : StdMap.t) :
  toMap c = Normal m -> toString c = Normal (display m).
Proof.
  intros Hm. unfold toString. rewrite Hm. f_equal.
  destruct m as [|kv m]; [reflexivity |].
  unfold toString_loop. rewrite toString_loop_acc by discriminate.
  cbn [String.append]. apply drop_last_separator.
Qed.



(** *** Validity *)

(** C10: [isValid()] is false whenever [autoMasterProxyCount],
    [autoResolverCount] or [autoDesiredTLogCount] is below 1, whatever the
    explicit counts and the other members are. *)
Theorem isValid_requires_auto_counts (c : DatabaseConfiguration) :
  autoMasterProxyCount c < 1 \/ autoResolverCount c < 1 \/ autoDesiredTLogCount c < 1 ->
  isValid c = false.
Proof.
  intros H. unfold isValid.
  destruct H as [H | [H | H]];
    apply Z.lt_nge in H; rewrite <- Z.geb_le in H; apply not_true_is_false in H;
    rewrite H, ?andb_false_r; reflexivity.
Qed.

(** *** Passthrough keys of the canonical map *)

Lemma find_toMap_counts (c : DatabaseConfiguration) (ti si : string) :
  let m := toMap_body c ti si [] in
  StdMap.find "logs" m =
    (if desiredTLogCount c =? -1 then None else Some (format_d (desiredTLogCount c))) /\
  StdMap.find "remote_logs" m =
    (if desiredTLogCount c =? -1 then None
     else Some (format_d (remoteDesiredTLogCount c))) /\
  StdMap.find "satellite_logs" m =
    (if desiredTLogCount c =? -1 then None
     else Some (format_d (satelliteDesiredTLogCount c))) /\
  StdMap.find "proxies" m =
    (if masterProxyCount c =? -1 then None else Some (format_d (masterProxyCount c))) /\
  StdMap.find "resolvers" m =
    (if resolverCount c =? -1 then None else Some (format_d (resolverCount c))).
Proof.
  cbv zeta. unfold toMap_body. repeat split; skip_blocks.
  - unfold put_logs. destruct (desiredTLogCount c =? -1); cbn [negb].
    + skip_blocks. reflexivity.
    + apply find_insert_same.
  - unfold put_remote_logs. destruct (desiredTLogCount c =? -1); cbn [negb].
    + skip_blocks. reflexivity.
    + apply find_insert_same.
  - unfold put_satellite_logs. destruct (desiredTLogCount c =? -1); cbn [negb].
    + skip_blocks. reflexivity.
    + apply find_insert_same.
  - unfold put_proxies. destruct (masterProxyCount c =? -1); cbn [negb].
    + skip_blocks. reflexivity.
    + apply find_insert_same.
  - unfold put_resolvers. destruct (resolverCount c =? -1); cbn [negb].
    + skip_blocks. reflexivity.
    + apply find_insert_same.
Qed.

(** The loop of the satellite lists never reaches its [","]: [first]
    stays true. *)
Lemma dcs_loop_concat (dcs : list (option string)) (str : string) :
  dcs_loop dcs str true = (str ++ String.concat "" (printable_entries dcs))%string.
Proof.
  revert str. induction dcs as [|[dc |] dcs IH]; intros str; cbn.
  - rewrite append_empty_r. reflexivity.
  - rewrite IH.
    destruct (printable_entries dcs) as [|e es] eqn:He.
    + cbn. rewrite !append_empty_r. reflexivity.
    + cbn [String.concat]. fold (String.concat "" (e :: es)).
      rewrite append_assoc. reflexivity.
  - apply IH.
Qed.

Lemma find_toMap_satellite_dcs (c : DatabaseConfiguration) (ti si : string) :
  let m := toMap_body c ti si [] in
  StdMap.find "primary_satellite_dcs" m =
    (if nonempty (primarySatelliteDcIds c)
     then Some (String.concat "" (printable_entries (primarySatelliteDcIds c)))
     else None) /\
  StdMap.find "remote_satellite_dcs" m =
    (if nonempty (remoteSatelliteDcIds c)
     then Some (String.concat "" (printable_entries (remoteSatelliteDcIds c)))
     else None).
Proof.
  cbv zeta. unfold toMap_body. split; skip_blocks.
  - unfold put_primary_satellite_dcs. destruct (nonempty (primarySatelliteDcIds c)).
    + rewrite find_insert_same, dcs_loop_concat. reflexivity.
    + skip_blocks. reflexivity.
  - unfold put_remote_satellite_dcs. destruct (nonempty (remoteSatelliteDcIds c)).
    + rewrite find_insert_same, dcs_loop_concat. reflexivity.
    + skip_blocks. reflexivity.
Qed.

(** *** Datacenter lists *)

(** The split always pushes a last element. *)
Lemma parse_dcs_loop_grows (v rest : string) (i lastBegin : nat)
    (dcs : list (option string)) :
  (length dcs < length (parse_dcs_loop v rest i lastBegin dcs))%nat.
Proof.
  revert i lastBegin dcs. induction rest as [|ch rest IH]; intros i lastBegin dcs; cbn.
  - rewrite length_app. cbn. lia.
  - destruct (Ascii.eqb ch ","%char).
    + eapply Nat.lt_trans; [| apply IH]. rewrite length_app. cbn. lia.
    + apply IH.
Qed.

(** A value without a comma is pushed whole. *)
Lemma parse_dcs_no_comma (v : string) (dcs : list (option string)) :
  substr_start_length ->
  Forall (fun ch => ch <> ","%char) (list_ascii_of_string v) ->
  parse_dcs dcs v = (dcs ++ [Some v])%list.
Proof.
  intros [Hfrom _] Hv. unfold parse_dcs.
  assert (Hloop : forall rest i,
             Forall (fun ch => ch <> ","%char) (list_ascii_of_string rest) ->
             parse_dcs_loop v rest i 0 dcs = (dcs ++ [Some (substr_from v 0)])%list).
  { induction rest as [|ch rest IH]; intros i Hrest; cbn; [reflexivity |].
    cbn in Hrest. apply Forall_cons_iff in Hrest. destruct Hrest as [Hch Hrest].
    apply Ascii.eqb_neq in Hch. rewrite Hch. apply IH. exact Hrest. }
  rewrite (Hloop v 0%nat Hv), Hfrom by lia.
  rewrite Nat.sub_0_r, substring_whole. reflexivity.
Qed.


(** C7: under the [(start, length)] reading of [substr], the element pushed
    at a comma after the first starts at the right byte but runs [i] bytes,
    not [i - lastBegin]: ["a,b,c"] gives [a], [b,c], [c], and two
    consecutive commas give [","] for the empty element between them. *)
Theorem parse_dcs_second_comma :
  substr_start_length ->
  parse_dcs [] "a,b,c" = [Some "a"; Some "b,c"; Some "c"]%string /\
  parse_dcs [] ",," = [Some ""; Some ","; Some ""]%string.
Proof.
  intros [Hfrom Hsub]. unfold parse_dcs. cbn.
  rewrite !Hsub by (cbn; lia). rewrite !Hfrom by (cbn; lia).
  split; reflexivity.
Qed.

(* ------------------------------------------------------------------ *)
(** *** The state after a re-parse, member by member *)

Lemma written_over_nothing (d : DatabaseConfiguration) :
  written_over (fun _ => None) d = d.
Proof. reflexivity. Qed.

Lemma written_over_ext (look1 look2 : string -> option string) (d : DatabaseConfiguration) :
  (forall s, look1 s = look2 s) -> written_over look1 d = written_over look2 d.
Proof. intros H. unfold written_over. rewrite !H. reflexivity. Qed.

Lemma written_over_keys (look1 look2 : string -> option string)
    (d : DatabaseConfiguration) :
  (forall K, look1 (key_name K) = look2 (key_name K)) ->
  written_over look1 d = written_over look2 d.
Proof.
  intros H. unfold written_over.
  repeat match goal with
  | |- context [look1 ?name] =>
      match goal with
      | Hn : look1 name = _ |- _ => rewrite Hn
      | _ =>
          let Hn := fresh "Hn" in
          assert (Hn : look1 name = look2 name)
            by (first [ exact (H K_initialized) | exact (H K_proxies)
                      | exact (H K_resolvers) | exact (H K_logs)
                      | exact (H K_log_replicas) | exact (H K_log_anti_quorum)
                      | exact (H K_storage_quorum) | exact (H K_storage_replicas)
                      | exact (H K_log_engine) | exact (H K_storage_engine)
                      | exact (H K_auto_proxies) | exact (H K_auto_resolvers)
                      | exact (H K_auto_logs) | exact (H K_storage_replication_policy)
                      | exact (H K_log_replication_policy) | exact (H K_remote_logs)
                      | exact (H K_remote_log_replicas) | exact (H K_remote_log_policy)
                      | exact (H K_satellite_log_policy) | exact (H K_satellite_logs)
                      | exact (H K_satellite_log_replicas)
                      | exact (H K_satellite_anti_quorum)
                      | exact (H K_satellite_usable_dcs) | exact (H K_primary_dc)
                      | exact (H K_remote_dc) | exact (H K_primary_satellite_dcs)
                      | exact (H K_remote_satellite_dcs) | exact (H K_log_routers) ]);
          rewrite Hn
      end
  end.
  reflexivity.
Qed.

Lemma dispatch_written_over (s1 v1 : string) (look : string -> option string)
    (d : DatabaseConfiguration) :
  look s1 = None ->
  match dispatch s1 v1 d with
  | (Normal _, d1) =>
      written_over look d1 =
      written_over (fun s => if String.eqb s1 s then Some v1 else look s) d
  | (Throws e, d1) => d1 = d
  | (NullDereference, _) => False
  end.
Proof.
  intros Hnone.
  dispatch_cases s1;
    unfold parseReplicationPolicy, assign_int, assign_dcs, parse_int, modify, bind, ret;
    repeat match goal with
    | |- context [serializeReplicationPolicy ?v ?p] =>
        let Hser := fresh "Hser" in destruct (serializeReplicationPolicy v p) eqn:Hser
    end;
    try reflexivity.
  all: try (unfold written_over; cbn -[atoi parse_dcs]; rewrite ?Hnone;
            try match goal with
            | Hs : serializeReplicationPolicy _ _ = ?r
              |- context [serializeReplicationPolicy ?v ?p] =>
                let H' := fresh in
                assert (H' : serializeReplicationPolicy v p = r) by exact Hs;
                rewrite H'
            end;
            reflexivity).
  apply written_over_keys. intros K.
  destruct K; cbn [key_name];
    match goal with
    | |- _ = (if (s1 =? ?name)%string then _ else _) =>
        destruct (String.eqb_spec s1 name); [contradiction | reflexivity]
    end.
Qed.

Lemma dispatch_throws (s v : string) (d : DatabaseConfiguration) (e : Error) :
  fst (dispatch s v d) = Throws e ->
  policy_key s /\
  ((s = "storage_replication_policy"%string /\
    serializeReplicationPolicy v (storagePolicy d) = inl e) \/
   (s = "log_replication_policy"%string /\
    serializeReplicationPolicy v (tLogPolicy d) = inl e) \/
   (s = "remote_log_policy"%string /\
    serializeReplicationPolicy v (remoteTLogPolicy d) = inl e) \/
   (s = "satellite_log_policy"%string /\
    serializeReplicationPolicy v (satelliteTLogPolicy d) = inl e)).
Proof.
  unfold policy_key.
  dispatch_cases s;
    unfold parseReplicationPolicy, assign_int, assign_dcs, parse_int, modify, bind, ret;
    cbn [fst]; intros H; try discriminate H;
    match type of H with
    | context [serializeReplicationPolicy ?a ?p] =>
        let Hser := fresh "Hser" in
        destruct (serializeReplicationPolicy a p) eqn:Hser
    end;
    cbn [fst] in H; try discriminate H;
    injection H as <-;
    (split;
     [ first [ left; reflexivity | right; left; reflexivity
             | right; right; left; reflexivity | right; right; right; reflexivity ]
     | first [ left; split; [reflexivity | first [exact Hser | reflexivity]]
             | right; left; split; [reflexivity | first [exact Hser | reflexivity]]
             | right; right; left; split; [reflexivity | first [exact Hser | reflexivity]]
             | right; right; right; split;
               [reflexivity | first [exact Hser | reflexivity]] ] ]).
Qed.

Lemma value_of_nil (s : string) : value_of [] s = None.
Proof. reflexivity. Qed.

Lemma value_of_cons (s1 v1 s : string) (m : StdMap.t) :
  Forall (fun e => String_as_OT.lt (configKeysPrefix ++ s1) (fst e)) m ->
  value_of ((configKeysPrefix ++ s1, v1)%string :: m) s =
  if String.eqb s1 s then Some v1 else value_of m s.
Proof.
  intros Hm. unfold value_of. cbn [StdMap.find].
  destruct (String.eqb_spec s1 s) as [-> | Hne].
  - assert (C : String.compare (configKeysPrefix ++ s) (configKeysPrefix ++ s) = Eq)
      by (apply compare_Eq_iff; reflexivity).
    rewrite C. reflexivity.
  - destruct (String.compare (configKeysPrefix ++ s) (configKeysPrefix ++ s1)) eqn:C.
    + apply compare_Eq_iff in C. apply append_inj_l in C. congruence.
    + symmetry. apply (find_above _ (configKeysPrefix ++ s1)); [exact Hm | str_order].
    + reflexivity.
Qed.

Lemma value_of_below (s1 : string) (m : StdMap.t) :
  Forall (fun e => String_as_OT.lt (configKeysPrefix ++ s1) (fst e)) m ->
  value_of m s1 = None.
Proof.
  intros Hm. apply (find_above _ (configKeysPrefix ++ s1)); [exact Hm | str_order].
Qed.

(** The re-parse of sorted pairs of the namespace, whatever its outcome:
    the members are those of the start state written over by the pairs
    that were parsed, all of them, or those before the pair that threw. *)
Lemma reparse_written_over (l : StdMap.t) (d : DatabaseConfiguration) :
  removePrefix_strips -> StdMap.sorted l ->
  Forall (fun kv => exists s, fst kv = (configKeysPrefix ++ s)%string) l ->
  match for_each (fun kv => setInternal (fst kv) (snd kv)) l d with
  | (Normal _, c') => c' = written_over (value_of l) d
  | (Throws e, c') =>
      exists parsed s v rest,
        l = (parsed ++ (configKeysPrefix ++ s, v)%string :: rest)%list /\
        c' = written_over (value_of parsed) d /\
        fst (dispatch s v c') = Throws e
  | (NullDereference, _) => False
  end.
Proof.
  intros Hstrip. revert d.
  induction l as [| [k1 v1] l IH]; intros d Hs Hns.
  - reflexivity.
  - apply Forall_cons_iff in Hns. destruct Hns as [[s1 Hk1] Hns]. cbn [fst] in Hk1.
    subst k1. apply sorted_tail_bounds in Hs. destruct Hs as [Hs H1].
    cbn [for_each]. unfold bind. cbn [fst snd].
    unfold setInternal at 1. rewrite Hstrip.
    destruct (dispatch s1 v1 d) as [[b | e |] d1] eqn:Hd.
    + specialize (IH d1 Hs Hns).
      destruct (for_each (fun kv => setInternal (fst kv) (snd kv)) l d1)
        as [[u | e |] c'].
      * subst c'.
        pose proof (dispatch_written_over s1 v1 (value_of l) d (value_of_below s1 l H1))
          as Hstep.
        rewrite Hd in Hstep. rewrite Hstep.
        apply written_over_ext. intros s. symmetry. apply value_of_cons. exact H1.
      * destruct IH as (parsed & s & v & rest & Hl & Hc & Hthrow).
        assert (Hp : Forall (fun e0 => String_as_OT.lt (configKeysPrefix ++ s1) (fst e0))
                            parsed).
        { rewrite Hl in H1. apply Forall_app in H1. exact (proj1 H1). }
        exists ((configKeysPrefix ++ s1, v1)%string :: parsed), s, v, rest.
        split; [rewrite Hl; reflexivity |]. split; [| exact Hthrow].
        subst c'.
        pose proof (dispatch_written_over s1 v1 (value_of parsed) d
                      (value_of_below s1 parsed Hp)) as Hstep.
        rewrite Hd in Hstep. rewrite Hstep.
        apply written_over_ext. intros s'. symmetry. apply value_of_cons. exact Hp.
      * exact IH.
    + pose proof (dispatch_written_over s1 v1 (value_of []) d (value_of_nil s1)) as Hstep.
      rewrite Hd in Hstep. subst d1.
      exists [], s1, v1, l. split; [reflexivity |]. split; [reflexivity |].
      rewrite Hd. reflexivity.
    + pose proof (dispatch_written_over s1 v1 (value_of []) d (value_of_nil s1)) as Hstep.
      rewrite Hd in Hstep. exact Hstep.
Qed.

Lemma written_over_reset (snapshot : list (string * string)) (parsed remaining : StdMap.t)
    (d : DatabaseConfiguration) :
  rawConfiguration d = snapshot -> mutableConfiguration d = Some remaining ->
  written_over (value_of parsed) (resetInternal d) =
  specified_after_clear snapshot parsed remaining.
Proof.
  intros Hr Hm. unfold written_over, specified_after_clear.
  cbn -[atoi parse_dcs value_of]. rewrite Hr, Hm.
  destruct (value_of parsed "primary_dc"), (value_of parsed "remote_dc"),
    (value_of parsed "initialized"); reflexivity.
Qed.

Lemma value_of_before (parsed rest : StdMap.t) (s v : string) :
  StdMap.sorted (parsed ++ (configKeysPrefix ++ s, v)%string :: rest)%list ->
  value_of parsed s = None.
Proof.
  induction parsed as [| [k1 v1] parsed IH]; intros Hs; [reflexivity |].
  cbn [app] in Hs. apply sorted_tail_bounds in Hs. destruct Hs as [Hs H1].
  apply Forall_app in H1. destruct H1 as [_ H1].
  apply Forall_cons_iff in H1. destruct H1 as [H1 _]. cbn [fst] in H1.
  unfold value_of. cbn [StdMap.find].
  destruct (String.compare (configKeysPrefix ++ s) k1) eqn:C.
  - exfalso. str_order.
  - exfalso. str_order.
  - apply IH. exact Hs.
Qed.


Lemma raw_makeConfigurationMutable (c : DatabaseConfiguration) :
  rawConfiguration (makeConfigurationMutable c) =
  match mutableConfiguration c with Some _ => rawConfiguration c | None => [] end.
Proof.
  unfold makeConfigurationMutable. destruct (mutableConfiguration c); reflexivity.
Qed.

(** The state [clear] leaves, member by member. *)
Lemma clear_specified (c : DatabaseConfiguration) (keys : KeyRangeRef) :
  removePrefix_strips -> store_ok c ->
  String.leb (range_begin keys) (range_end keys) = true ->
  Forall (fun kv => exists s, fst kv = (configKeysPrefix ++ s)%string)
         (remaining_after keys c) ->
  let remaining := remaining_after keys c in
  let snapshot :=
    match mutableConfiguration c with Some _ => rawConfiguration c | None => [] end in
  match clear keys c with
  | (Normal _, c') => c' = specified_after_clear snapshot remaining remaining
  | (Throws e, c') =>
      exists parsed s v rest,
        remaining = (parsed ++ (configKeysPrefix ++ s, v)%string :: rest)%list /\
        policy_key s /\ serializeReplicationPolicy v None = inl e /\
        c' = specified_after_clear snapshot parsed remaining
  | (NullDereference, _) => False
  end.
Proof.
  intros Hstrip Hok Hle Hns. cbv zeta.
  pose proof (remaining_after_sorted c keys Hok Hle) as Hsorted.
  rewrite clear_run. unfold reset_and_reparse.
  match goal with
  | |- context [for_each ?f ?l (resetInternal ?d0)] =>
      pose proof (reparse_written_over l (resetInternal d0) Hstrip Hsorted Hns) as Hrun;
      assert (Hspec : forall parsed,
                 written_over (value_of parsed) (resetInternal d0) =
                 specified_after_clear
                   match mutableConfiguration c with
                   | Some _ => rawConfiguration c
                   | None => []
                   end parsed (remaining_after keys c))
        by (intros parsed; apply written_over_reset;
            [apply raw_makeConfigurationMutable | reflexivity]);
      destruct (for_each f l (resetInternal d0)) as [[u | e |] c']
  end.
  - rewrite Hrun. apply Hspec.
  - destruct Hrun as (parsed & s & v & rest & Hl & Hc & Hthrow).
    exists parsed, s, v, rest. rewrite Hspec in Hc.
    split; [exact Hl |].
    apply dispatch_throws in Hthrow. destruct Hthrow as [Hpol Hcases].
    split; [exact Hpol |]. split; [| exact Hc].
    assert (Hnone : value_of parsed s = None).
    { apply (value_of_before parsed rest s v). rewrite <- Hl. exact Hsorted. }
    subst c'.
    destruct Hcases as [[-> Hser] | [[-> Hser] | [[-> Hser] | [-> Hser]]]];
      cbn -[value_of] in Hser; rewrite Hnone in Hser; exact Hser.
  - exact Hrun.
Qed.

(** C2: [clear(r)] returns true exactly when [isValid()] held before the
    call and fails after it, and the state it leaves is the one obtained
    by resetting every typed member and re-parsing, in ascending key
    order, the pairs that remain: those the store held under a key outside
    [r].  A re-parse that throws makes [clear] throw the same error from
    the same state, and no re-parse of namespace pairs that hold no policy
    throws.  Member by member, for remaining pairs of the namespace whose
    satellite lists are split in bounds: when [clear] returns, every
    member whose key remains holds the value parsed from its pair and
    every other member its default, the overlay is the remaining pairs
    and the snapshot the one materialisation left; when it throws, that is
    so for the pairs before, in key order, the policy pair whose value
    does not deserialise, and the members of the later keys are at their
    defaults. *)
Theorem clear_valid_transition (c : DatabaseConfiguration) (keys : KeyRangeRef) :
  store_ok c -> String.leb (range_begin keys) (range_end keys) = true ->
  exists remaining : StdMap.t,
    StdMap.sorted remaining /\
    (forall k v, In (k, v) remaining <-> get c k = Some v /\ contains keys k = false) /\
    match reset_and_reparse remaining c with
    | (Normal _, c') =>
        exists b : bool,
          clear keys c = (Normal b, c') /\
          (b = true <-> isValid c = true /\ isValid c' = false)
    | (Throws e, c') => clear keys c = (Throws e, c')
    | (NullDereference, _) => False
    end /\
    (removePrefix_strips -> Forall plain_pair remaining ->
     exists b c', clear keys c = (Normal b, c')) /\
    (removePrefix_strips ->
     Forall (fun kv => exists s, fst kv = (configKeysPrefix ++ s)%string /\
                                 in_bounds_pair (s, snd kv) = true) remaining ->
     let snapshot :=
       match mutableConfiguration c with Some _ => rawConfiguration c | None => [] end in
     match clear keys c with
     | (Normal _, c') => c' = specified_after_clear snapshot remaining remaining
     | (Throws e, c') =>
         exists parsed s v rest,
           remaining = (parsed ++ (configKeysPrefix ++ s, v)%string :: rest)%list /\
           policy_key s /\ serializeReplicationPolicy v None = inl e /\
           c' = specified_after_clear snapshot parsed remaining
     | (NullDereference, _) => False
     end).
Proof.
  intros Hok Hle. exists (remaining_after keys c).
  split; [apply remaining_after_sorted; assumption |].
  split; [intros k v; apply remaining_after_In; assumption |].
  split; [| split].
  - rewrite clear_run. unfold reset_and_reparse.
    match goal with
    | |- context [for_each ?f ?l ?c0] =>
        destruct (for_each_setInternal_store l c0) as (_ & _ & Hn);
        destruct (for_each f l c0) as [[u | e |] c1]
    end; cbn in *; [| reflexivity | congruence].
    eexists. split; [reflexivity |].
    destruct (isValid c), (isValid c1); cbn; split; intros H;
      try discriminate; try (destruct H; discriminate); auto.
  - rewrite clear_run. unfold reset_and_reparse.
    intros Hstrip Hplain.
    match goal with
    | |- context [for_each ?f ?l ?c0] =>
        destruct (reparse_plain l c0 Hstrip Hplain) as (c' & Hrun & _)
    end.
    rewrite Hrun. eexists. eexists. reflexivity.
  - intros Hstrip Hns.
    apply (clear_specified c keys Hstrip Hok Hle).
    eapply Forall_impl; [| exact Hns].
    intros kv (s & Hk & _). exists s. exact Hk.
Qed.

(* ------------------------------------------------------------------ *)
(** *** More on the store operations *)

Lemma raw_makeConfigurationMutable_sorted (c : DatabaseConfiguration) :
  store_ok c -> StdMap.sorted (rawConfiguration (makeConfigurationMutable c)).
Proof.
  intros [Hraw _]. unfold makeConfigurationMutable.
  destruct (mutableConfiguration c); [exact Hraw | exact (SSorted_nil _)].
Qed.

Lemma set_raw (key value : string) (c : DatabaseConfiguration) :
  rawConfiguration (after (set key value) c) =
  rawConfiguration (makeConfigurationMutable c).
Proof.
  unfold after, set, bind, modify. cbn.
  match goal with
  | |- context [setInternal ?k ?v ?c0] =>
      destruct (setInternal_store k v c0) as (Hr & _ & _)
  end.
  exact Hr.
Qed.

Lemma clear_raw (keys : KeyRangeRef) (c : DatabaseConfiguration) :
  rawConfiguration (after (clear keys) c) =
  rawConfiguration (makeConfigurationMutable c).
Proof.
  unfold after, clear, bind, modify, gets, ret. cbn.
  match goal with
  | |- context [for_each ?f ?l ?c0] =>
      destruct (for_each_setInternal_store l c0) as (Hr & _ & Hn);
      destruct (for_each f l c0) as [[u | e |] c1]
  end; cbn in *; try congruence; exact Hr.
Qed.

Lemma overlay_of_mutable (c : DatabaseConfiguration) (mc : StdMap.t) :
  mutableConfiguration c = Some mc -> overlay c = mc.
Proof. intros H. unfold overlay. rewrite H. reflexivity. Qed.

Lemma get_makeConfigurationMutable_same (c : DatabaseConfiguration) (k : string) :
  store_ok c -> get (makeConfigurationMutable c) k = get c k.
Proof.
  intros Hok. rewrite <- (get_makeConfigurationMutable c k Hok).
  unfold get at 1, overlay, makeConfigurationMutable.
  destruct (mutableConfiguration c) eqn:Hm; cbn; [rewrite Hm |]; reflexivity.
Qed.

Lemma set_keeps_store_ok (c : DatabaseConfiguration) (key value : string) :
  store_ok c -> store_ok (after (set key value) c).
Proof.
  intros Hok. split.
  - rewrite set_raw. apply raw_makeConfigurationMutable_sorted. exact Hok.
  - rewrite (overlay_of_mutable _ _ (set_store key value c)).
    apply insert_sorted, makeConfigurationMutable_ok. exact Hok.
Qed.

Lemma clear_keeps_store_ok (c : DatabaseConfiguration) (keys : KeyRangeRef) :
  store_ok c -> String.leb (range_begin keys) (range_end keys) = true ->
  store_ok (after (clear keys) c).
Proof.
  intros Hok Hle. split.
  - rewrite clear_raw. apply raw_makeConfigurationMutable_sorted. exact Hok.
  - rewrite (overlay_of_mutable _ _ (clear_store keys c)).
    apply erase_range_sorted; [apply makeConfigurationMutable_ok; exact Hok | exact Hle].
Qed.

Lemma makeConfigurationImmutable_keeps_store_ok (c : DatabaseConfiguration) :
  store_ok c -> store_ok (makeConfigurationImmutable c).
Proof.
  intros [Hraw Hmc]. unfold store_ok, makeConfigurationImmutable, overlay in *.
  destruct (mutableConfiguration c) eqn:Hmut; cbn.
  - split; [exact Hmc | exact (SSorted_nil _)].
  - rewrite Hmut. split; assumption.
Qed.

Lemma get_makeConfigurationImmutable (c : DatabaseConfiguration) (k : string) :
  store_ok c -> get (makeConfigurationImmutable c) k = get c k.
Proof.
  intros [Hraw Hmc].
  unfold makeConfigurationImmutable, get, overlay, lower_bound in *.
  destruct (mutableConfiguration c) eqn:Hm; cbn; [| rewrite Hm; reflexivity].
  apply lower_bound_lookup. exact Hmc.
Qed.

Lemma get_after_set_same (c : DatabaseConfiguration) (k v : string) :
  get (after (set k v) c) k = Some v.
Proof.
  unfold get. rewrite (set_store k v c). apply find_insert_same.
Qed.

Lemma get_after_set_other (c : DatabaseConfiguration) (k v k' : string) :
  store_ok c -> k' <> k -> get (after (set k v) c) k' = get c k'.
Proof.
  intros Hok Hne. unfold get at 1. rewrite (set_store k v c).
  rewrite find_insert_other by exact Hne.
  apply get_makeConfigurationMutable. exact Hok.
Qed.

(** X1: the invariant of the two stores (keys strictly ascending in the
    snapshot and in the overlay) is kept by [set], by [clear] on a range
    with [begin <= end], by [makeConfigurationMutable] and by
    [makeConfigurationImmutable]. *)
Theorem store_ok_kept (c : DatabaseConfiguration) (key value : string)
    (keys : KeyRangeRef) :
  store_ok c -> String.leb (range_begin keys) (range_end keys) = true ->
  store_ok (after (set key value) c) /\
  store_ok (after (clear keys) c) /\
  store_ok (makeConfigurationMutable c) /\
  store_ok (makeConfigurationImmutable c).
Proof.
  intros Hok Hle.
  split; [apply set_keeps_store_ok; exact Hok |].
  split; [apply clear_keeps_store_ok; assumption |].
  split; [| apply makeConfigurationImmutable_keeps_store_ok; exact Hok].
  split; [apply raw_makeConfigurationMutable_sorted | apply makeConfigurationMutable_ok];
    exact Hok.
Qed.

(** X2: collapsing the overlay into the snapshot and materialising the
    snapshot into the overlay change no answer of [get]; and an object in
    overlay form comes back unchanged from a collapse followed by a
    materialisation. *)
Theorem snapshot_overlay_round_trip (c : DatabaseConfiguration) (k : string) :
  store_ok c ->
  get (makeConfigurationImmutable c) k = get c k /\
  get (makeConfigurationMutable c) k = get c k /\
  (rawConfiguration c = [] -> mutableConfiguration c <> None ->
   makeConfigurationMutable (makeConfigurationImmutable c) = c).
Proof.
  intros Hok. split; [| split].
  - apply get_makeConfigurationImmutable. exact Hok.
  - apply get_makeConfigurationMutable_same. exact Hok.
  - intros Hraw Hsome. destruct Hok as [_ Hmc].
    unfold makeConfigurationImmutable, makeConfigurationMutable, overlay in *.
    destruct (mutableConfiguration c) as [mc |] eqn:Hm; [| congruence]. cbn.
    rewrite (materialize_sorted mc []) by exact Hmc. cbn.
    rewrite <- Hraw, <- Hm. reflexivity.
Qed.

(** X3: [set(k, v)] makes [get(k)] return [v], whatever the call's outcome,
    and changes the answer of [get] for no other key. *)
Theorem set_get_frame (c : DatabaseConfiguration) (k v k' : string) :
  store_ok c ->
  get (after (set k v) c) k = Some v /\
  (k' <> k -> get (after (set k v) c) k' = get c k').
Proof.
  intros Hok. split; [apply get_after_set_same |].
  intros Hne. apply get_after_set_other; assumption.
Qed.

(** X4: after any sequence of [set] calls, keys repeated or not, [get(k)]
    returns the value of the last call that wrote [k], and what it
    returned before the sequence if no call wrote [k]. *)
Theorem set_all_last_write (l : list (string * string)) (c : DatabaseConfiguration)
    (k : string) :
  store_ok c ->
  get (set_all l c) k =
  match last_written k l with
  | Some v => Some v
  | None => get c k
  end.
Proof.
  revert c. induction l as [|[k1 v1] l IH]; intros c Hok; [reflexivity |].
  change (set_all ((k1, v1) :: l) c) with (set_all l (after (set k1 v1) c)).
  rewrite (IH _ (set_keeps_store_ok c k1 v1 Hok)). cbn [last_written].
  destruct (last_written k l); [reflexivity |].
  destruct (String.eqb_spec k1 k) as [-> | Hne]; [apply get_after_set_same |].
  apply get_after_set_other; [exact Hok | congruence].
Qed.

Lemma Normal_inj {A} (a b : A) : Normal a = Normal b -> a = b.
Proof. intros H. injection H. auto. Qed.


Lemma after_clear_run (c : DatabaseConfiguration) (keys : KeyRangeRef) :
  after (clear keys) c = snd (reset_and_reparse (remaining_after keys c) c).
Proof.
  unfold after. rewrite clear_run.
  destruct (reset_and_reparse (remaining_after keys c) c) as [[u | e |] c']; reflexivity.
Qed.






Lemma setInternal_initialized (key value : string) (c : DatabaseConfiguration) :
  removePrefix key configKeysPrefix <> inr "initialized"%string ->
  initialized (snd (setInternal key value c)) = initialized c.
Proof.
  intros Hk. unfold setInternal.
  destruct (removePrefix key configKeysPrefix) as [e | ck]; [reflexivity |].
  destruct (dispatch_effects ck value c) as (Hi & _). cbv zeta in Hi. rewrite Hi.
  destruct (String.eqb_spec ck "initialized") as [-> | Hne]; [congruence | reflexivity].
Qed.

Lemma reparse_without_marker (l : StdMap.t) (c : DatabaseConfiguration) :
  Forall (fun kv => removePrefix (fst kv) configKeysPrefix <> inr "initialized"%string) l ->
  initialized (snd (for_each (fun kv => setInternal (fst kv) (snd kv)) l c))
  = initialized c.
Proof.
  intros Hl. revert c. induction Hl as [|[k v] l Hk Hl IH]; intros c; [reflexivity |].
  cbn [for_each fst snd]. unfold bind.
  pose proof (setInternal_initialized k v c Hk) as Hi.
  destruct (setInternal k v c) as [[b | e |] c1]; cbn in *; try exact Hi.
  rewrite IH. exact Hi.
Qed.

Lemma isValid_needs_initialized (c : DatabaseConfiguration) :
  initialized c = false -> isValid c = false.
Proof. intros H. unfold isValid. rewrite H. reflexivity. Qed.

(** X7: a [clear] after which no stored key is the marker key leaves the
    object uninitialised and invalid, whether the re-parse throws or not,
    and when it returns it returns whether the object was valid before. *)
Theorem clear_of_marker (c : DatabaseConfiguration) (keys : KeyRangeRef) :
  store_ok c -> String.leb (range_begin keys) (range_end keys) = true ->
  (forall k v, get c k = Some v -> contains keys k = false ->
               removePrefix k configKeysPrefix <> inr "initialized"%string) ->
  initialized (after (clear keys) c) = false /\
  isValid (after (clear keys) c) = false /\
  (forall b, fst (clear keys c) = Normal b -> b = isValid c).
Proof.
  intros Hok Hle Hkeys.
  assert (Hinit : initialized (after (clear keys) c) = false).
  { rewrite after_clear_run. unfold reset_and_reparse.
    rewrite reparse_without_marker; [reflexivity |].
    apply Forall_forall. intros [k v] Hin. cbn.
    apply (remaining_after_In c keys k v Hok Hle) in Hin.
    destruct Hin as [Hg Hc]. exact (Hkeys k v Hg Hc). }
  pose proof (isValid_needs_initialized _ Hinit) as Hinv.
  repeat split; try assumption.
  intros b Hb. rewrite after_clear_run in Hinv. rewrite clear_run in Hb.
  destruct (reset_and_reparse (remaining_after keys c) c) as [[u | e |] c'];
    cbn [fst snd] in Hb, Hinv; try discriminate.
  apply Normal_inj in Hb. rewrite Hinv in Hb. subst b.
  destruct (isValid c); reflexivity.
Qed.

(* ------------------------------------------------------------------ *)
(** *** More on the canonical map *)

Ltac in_list := cbn; repeat (first [left; reflexivity | right]).

Ltac mode_found :=
  block_cases; rewrite find_insert_same; eexists;
  (split; [| reflexivity]); in_list.

Lemma toMap_body_modes (c : DatabaseConfiguration) (ti si : string) :
  let m := toMap_body c ti si [] in
  (exists v, In v redundancy_modes /\ StdMap.find "redundancy_mode" m = Some v) /\
  (exists v, In v storage_engines /\ StdMap.find "storage_engine" m = Some v) /\
  (exists v, In v satellite_redundancy_modes /\
             StdMap.find "satellite_redundancy_mode" m = Some v) /\
  (exists v, In v remote_redundancy_modes /\
             StdMap.find "remote_redundancy_mode" m = Some v).
Proof.
  cbv zeta. unfold toMap_body. repeat split; skip_blocks.
  - unfold put_redundancy_mode. cbv zeta. mode_found.
  - unfold put_storage_engine. mode_found.
  - unfold put_satellite_redundancy_mode. cbv zeta. mode_found.
  - unfold put_remote_redundancy_mode. cbv zeta. mode_found.
Qed.

(** X8: the canonical map of an initialised object always holds the four
    mode keys, each with one of the names of its category. *)
Theorem toMap_modes_total (c : DatabaseConfiguration) (m : StdMap.t) :
  initialized c = true -> toMap c = Normal m ->
  (exists v, In v redundancy_modes /\ StdMap.find "redundancy_mode" m = Some v) /\
  (exists v, In v storage_engines /\ StdMap.find "storage_engine" m = Some v) /\
  (exists v, In v satellite_redundancy_modes /\
             StdMap.find "satellite_redundancy_mode" m = Some v) /\
  (exists v, In v remote_redundancy_modes /\
             StdMap.find "remote_redundancy_mode" m = Some v).
Proof.
  intros Hi Hm. rewrite toMap_cases, Hi in Hm.
  destruct (tLogPolicy c) as [tp |]; [| discriminate].
  destruct (storagePolicy c) as [sp |]; [| discriminate].
  inversion Hm. apply toMap_body_modes.
Qed.

Lemma isValid_parts (c : DatabaseConfiguration) :
  isValid c = true ->
  initialized c = true /\ present (storagePolicy c) = true /\
  present (tLogPolicy c) = true.
Proof.
  unfold isValid. intros H.
  repeat (apply andb_prop in H; let H' := fresh "H" in destruct H as [H H']).
  repeat split; assumption.
Qed.

(** X9: on a valid object [toMap] and [toString] return: validity rules
    out the null policy that [toMap] would dereference. *)
Theorem toMap_safe_when_valid (c : DatabaseConfiguration) :
  isValid c = true ->
  exists m, toMap c = Normal m /\ toString c = Normal (display m) /\ m <> [].
Proof.
  intros Hv. destruct (isValid_parts c Hv) as (Hi & Hs & Ht).
  assert (Hm : toMap c =
               match tLogPolicy c, storagePolicy c with
               | Some tp, Some sp => Normal (toMap_body c (info tp) (info sp) [])
               | _, _ => NullDereference
               end).
  { rewrite toMap_cases, Hi. reflexivity. }
  destruct (tLogPolicy c) as [tp |]; [| discriminate].
  destruct (storagePolicy c) as [sp |]; [| discriminate].
  exists (toMap_body c (info tp) (info sp) []).
  split; [exact Hm |]. split; [apply toString_display; exact Hm |].
  destruct (toMap_body_modes c (info tp) (info sp)) as ((v & _ & Hf) & _).
  intros Hnil. rewrite Hnil in Hf. discriminate.
Qed.

Lemma Forall_insert (P : string * string -> Prop) (k v : string) (m : StdMap.t) :
  P (k, v) -> Forall P m -> Forall P (StdMap.insert k v m).
Proof.
  intros Hk Hm. induction Hm as [|[k1 v1] m H1 Hm IH]; cbn.
  - constructor; [exact Hk | constructor].
  - destruct (String.compare k k1); repeat constructor; assumption.
Qed.

Ltac put_keys :=
  intros; block_cases; try assumption;
  (apply Forall_insert; [unfold canonical_entry; in_list | assumption]).

Lemma toMap_body_keys (c : DatabaseConfiguration) (ti si : string) :
  Forall canonical_entry (toMap_body c ti si []).
Proof.
  unfold toMap_body.
  assert (H0 : Forall canonical_entry []) by constructor.
  assert (H1 : Forall canonical_entry (put_redundancy_mode c ti si []))
    by (unfold put_redundancy_mode; cbv zeta; put_keys).
  set (r1 := put_redundancy_mode c ti si []) in *. clearbody r1.
  assert (H2 : Forall canonical_entry (put_storage_engine c r1))
    by (unfold put_storage_engine; put_keys).
  set (r2 := put_storage_engine c r1) in *. clearbody r2.
  assert (H3 : Forall canonical_entry (put_primary_dc c r2))
    by (unfold put_primary_dc; put_keys).
  set (r3 := put_primary_dc c r2) in *. clearbody r3.
  assert (H4 : Forall canonical_entry (put_remote_dc c r3))
    by (unfold put_remote_dc; put_keys).
  set (r4 := put_remote_dc c r3) in *. clearbody r4.
  assert (H5 : Forall canonical_entry (put_primary_satellite_dcs c r4))
    by (unfold put_primary_satellite_dcs; put_keys).
  set (r5 := put_primary_satellite_dcs c r4) in *. clearbody r5.
  assert (H6 : Forall canonical_entry (put_remote_satellite_dcs c r5))
    by (unfold put_remote_satellite_dcs; put_keys).
  set (r6 := put_remote_satellite_dcs c r5) in *. clearbody r6.
  assert (H7 : Forall canonical_entry (put_satellite_redundancy_mode c r6))
    by (unfold put_satellite_redundancy_mode; cbv zeta; put_keys).
  set (r7 := put_satellite_redundancy_mode c r6) in *. clearbody r7.
  assert (H8 : Forall canonical_entry (put_remote_redundancy_mode c r7))
    by (unfold put_remote_redundancy_mode; cbv zeta; put_keys).
  set (r8 := put_remote_redundancy_mode c r7) in *. clearbody r8.
  assert (H9 : Forall canonical_entry (put_logs c r8))
    by (unfold put_logs; put_keys).
  set (r9 := put_logs c r8) in *. clearbody r9.
  assert (H10 : Forall canonical_entry (put_remote_logs c r9))
    by (unfold put_remote_logs; put_keys).
  set (r10 := put_remote_logs c r9) in *. clearbody r10.
  assert (H11 : Forall canonical_entry (put_satellite_logs c r10))
    by (unfold put_satellite_logs; put_keys).
  set (r11 := put_satellite_logs c r10) in *. clearbody r11.
  assert (H12 : Forall canonical_entry (put_proxies c r11))
    by (unfold put_proxies; put_keys).
  set (r12 := put_proxies c r11) in *. clearbody r12.
  unfold put_resolvers. put_keys.
Qed.

(** X10: the canonical map is empty unless the object is initialised, and
    it never holds a key outside its thirteen: the four modes, the two
    datacenters, the two satellite lists and the five counts. *)
Theorem toMap_keys (c : DatabaseConfiguration) (m : StdMap.t) :
  toMap c = Normal m ->
  (initialized c = false -> m = [] /\ toString c = Normal ""%string) /\
  (forall k v, In (k, v) m -> In k canonical_keys).
Proof.
  intros Hm. split.
  - intros Hi. rewrite toMap_cases, Hi in Hm. inversion Hm. subst m.
    split; [reflexivity |]. unfold toString. rewrite toMap_cases, Hi. reflexivity.
  - intros k v Hin. rewrite toMap_cases in Hm.
    destruct (initialized c).
    + destruct (tLogPolicy c) as [tp |]; [| discriminate].
      destruct (storagePolicy c) as [sp |]; [| discriminate].
      inversion Hm. subst m.
      pose proof (toMap_body_keys c (info tp) (info sp)) as Hall.
      rewrite Forall_forall in Hall. exact (Hall (k, v) Hin).
    + inversion Hm. subst m. contradiction.
Qed.

Lemma find_toMap_dcs (c : DatabaseConfiguration) (ti si : string) :
  let m := toMap_body c ti si [] in
  StdMap.find "primary_dc" m = option_map printable (primaryDcId c) /\
  StdMap.find "remote_dc" m = option_map printable (remoteDcId c).
Proof.
  cbv zeta. unfold toMap_body. split; skip_blocks.
  - unfold put_primary_dc. destruct (primaryDcId c); cbn.
    + apply find_insert_same.
    + skip_blocks. reflexivity.
  - unfold put_remote_dc. destruct (remoteDcId c); cbn.
    + apply find_insert_same.
    + skip_blocks. reflexivity.
Qed.

(** X11: in the canonical map of an initialised object, [proxies],
    [resolvers] and [logs] are present exactly when their own count is not
    -1 and hold its decimal rendering; [primary_dc] and [remote_dc] are
    present exactly when the datacenter is, and hold its printable form. *)
Theorem toMap_passthrough (c : DatabaseConfiguration) (m : StdMap.t) :
  initialized c = true -> toMap c = Normal m ->
  StdMap.find "proxies" m =
    (if masterProxyCount c =? -1 then None else Some (format_d (masterProxyCount c))) /\
  StdMap.find "resolvers" m =
    (if resolverCount c =? -1 then None else Some (format_d (resolverCount c))) /\
  StdMap.find "logs" m =
    (if desiredTLogCount c =? -1 then None else Some (format_d (desiredTLogCount c))) /\
  StdMap.find "primary_dc" m = option_map printable (primaryDcId c) /\
  StdMap.find "remote_dc" m = option_map printable (remoteDcId c).
Proof.
  intros Hi Hm. rewrite toMap_cases, Hi in Hm.
  destruct (tLogPolicy c) as [tp |]; [| discriminate].
  destruct (storagePolicy c) as [sp |]; [| discriminate].
  inversion Hm. subst m.
  destruct (find_toMap_counts c (info tp) (info sp)) as (Hl & _ & _ & Hp & Hr).
  destruct (find_toMap_dcs c (info tp) (info sp)) as (Hd1 & Hd2).
  cbv zeta in *. repeat split; assumption.
Qed.

(* ------------------------------------------------------------------ *)
(** *** Default policies *)

(** Every combination of the four policies and of the signs of the two
    factors [setDefaultReplicationPolicy] looks at. *)
Ltac default_cases c :=
  destruct c as [f0 f1 f2 f3 f4 f5 f6 f7 f8 f9 f10 f11 f12 f13 f14 f15 f16 f17 f18 f19
                 f20 f21 f22 f23 f24 f25 f26 f27 f28 f29];
  destruct f15, f16, f17, f18;
  destruct (f22 >? 0) eqn:C1; destruct (f23 >? 0) eqn:C2;
  unfold setDefaultReplicationPolicy;
  repeat (progress (cbn -[Z.gtb]; rewrite ?C1, ?C2)).

(** An object whose storage and log policy are set, and whose remote and
    satellite policy are set wherever their factor is positive, is left
    alone. *)
Lemma setDefaultReplicationPolicy_stable (d : DatabaseConfiguration) :
  present (storagePolicy d) = true -> present (tLogPolicy d) = true ->
  present (remoteTLogPolicy d) || negb (remoteTLogReplicationFactor d >? 0) = true ->
  present (satelliteTLogPolicy d) || negb (satelliteTLogReplicationFactor d >? 0) = true ->
  setDefaultReplicationPolicy d = d.
Proof.
  default_cases d; intros H1 H2 H3 H4; try discriminate; reflexivity.
Qed.

Lemma setDefaultReplicationPolicy_reaches (c : DatabaseConfiguration) :
  let d := setDefaultReplicationPolicy c in
  present (storagePolicy d) = true /\ present (tLogPolicy d) = true /\
  present (remoteTLogPolicy d) || negb (remoteTLogReplicationFactor d >? 0) = true /\
  present (satelliteTLogPolicy d) || negb (satelliteTLogReplicationFactor d >? 0) = true.
Proof.
  cbv zeta. default_cases c; repeat split; reflexivity.
Qed.

Lemma setDefaultReplicationPolicy_idempotent (c : DatabaseConfiguration) :
  setDefaultReplicationPolicy (setDefaultReplicationPolicy c)
    = setDefaultReplicationPolicy c.
Proof.
  destruct (setDefaultReplicationPolicy_reaches c) as (H1 & H2 & H3 & H4).
  apply setDefaultReplicationPolicy_stable; assumption.
Qed.

Lemma setDefaultReplicationPolicy_keeps (c : DatabaseConfiguration) :
  (forall p, storagePolicy c = Some p ->
             storagePolicy (setDefaultReplicationPolicy c) = Some p) /\
  (forall p, tLogPolicy c = Some p ->
             tLogPolicy (setDefaultReplicationPolicy c) = Some p) /\
  (forall p, remoteTLogPolicy c = Some p ->
             remoteTLogPolicy (setDefaultReplicationPolicy c) = Some p) /\
  (forall p, satelliteTLogPolicy c = Some p ->
             satelliteTLogPolicy (setDefaultReplicationPolicy c) = Some p).
Proof.
  default_cases c; (split; [| split; [| split]]); intros p Hp;
    first [exact Hp | discriminate Hp].
Qed.

Lemma setDefaultReplicationPolicy_gated (c : DatabaseConfiguration) :
  (remoteTLogReplicationFactor c <= 0 ->
   remoteTLogPolicy (setDefaultReplicationPolicy c) = remoteTLogPolicy c) /\
  (satelliteTLogReplicationFactor c <= 0 ->
   satelliteTLogPolicy (setDefaultReplicationPolicy c) = satelliteTLogPolicy c).
Proof.
  default_cases c; split; intros H; try reflexivity;
    first [apply Z.gtb_lt in C1; lia | apply Z.gtb_lt in C2; lia].
Qed.

Lemma setDefaultReplicationPolicy_store (c : DatabaseConfiguration) (k : string) :
  get (setDefaultReplicationPolicy c) k = get c k.
Proof. default_cases c; reflexivity. Qed.

(** X12: [setDefaultReplicationPolicy] fills the storage and the log policy
    when they are null, so that [toMap] returns afterwards; it replaces no
    policy that is set, builds no remote or satellite policy for a
    replication factor that is not positive, changes no answer of [get],
    and a second call changes nothing. *)
Theorem setDefaultReplicationPolicy_fills (c : DatabaseConfiguration) :
  setDefaultReplicationPolicy (setDefaultReplicationPolicy c)
    = setDefaultReplicationPolicy c /\
  toMap (setDefaultReplicationPolicy c) <> NullDereference /\
  (forall p, storagePolicy c = Some p ->
             storagePolicy (setDefaultReplicationPolicy c) = Some p) /\
  (forall p, tLogPolicy c = Some p ->
             tLogPolicy (setDefaultReplicationPolicy c) = Some p) /\
  (forall p, remoteTLogPolicy c = Some p ->
             remoteTLogPolicy (setDefaultReplicationPolicy c) = Some p) /\
  (forall p, satelliteTLogPolicy c = Some p ->
             satelliteTLogPolicy (setDefaultReplicationPolicy c) = Some p) /\
  (remoteTLogReplicationFactor c <= 0 ->
   remoteTLogPolicy (setDefaultReplicationPolicy c) = remoteTLogPolicy c) /\
  (satelliteTLogReplicationFactor c <= 0 ->
   satelliteTLogPolicy (setDefaultReplicationPolicy c) = satelliteTLogPolicy c) /\
  (forall k, get (setDefaultReplicationPolicy c) k = get c k).
Proof.
  split; [apply setDefaultReplicationPolicy_idempotent |].
  split.
  { destruct (setDefaultReplicationPolicy_reaches c) as (Hs & Ht & _).
    cbv zeta in Hs, Ht. rewrite toMap_cases.
    destruct (initialized (setDefaultReplicationPolicy c)); [| discriminate].
    destruct (tLogPolicy (setDefaultReplicationPolicy c)); [| discriminate].
    destruct (storagePolicy (setDefaultReplicationPolicy c)); discriminate. }
  destruct (setDefaultReplicationPolicy_keeps c) as (H1 & H2 & H3 & H4).
  destruct (setDefaultReplicationPolicy_gated c) as (H5 & H6).
  repeat (split; [assumption |]).
  intros k. apply setDefaultReplicationPolicy_store.
Qed.

(* ------------------------------------------------------------------ *)
(** *** More on the field parser *)

Lemma recognise_key_name (K : ConfigKey) : recognise (key_name K) = Some K.
Proof. destruct K; reflexivity. Qed.

Lemma act_outcome (K : ConfigKey) (value : string) (c : DatabaseConfiguration) :
  (exists c', act K value c = (Normal tt, c')) \/
  (exists e, act K value c = (Throws e, c)).
Proof.
  destruct K; unfold act, parseReplicationPolicy, assign_int, assign_dcs, modify;
    policy_split; eauto.
Qed.

(** X13: [setInternal] returns false exactly on the keys whose stripped
    form is none of the twenty-eight it knows, and then changes nothing;
    on a key it knows it returns true, unless a policy fails to
    deserialise, and then it throws and changes nothing either. *)
Theorem setInternal_unknown_key (key value ck : string) (c : DatabaseConfiguration) :
  removePrefix key configKeysPrefix = inr ck ->
  ((forall K, ck <> key_name K) -> setInternal key value c = (Normal false, c)) /\
  (forall K, ck = key_name K ->
     fst (setInternal key value c) = Normal true \/
     (policy_key ck /\ exists e, setInternal key value c = (Throws e, c))).
Proof.
  intros Hck. unfold setInternal. rewrite Hck, dispatch_act. split.
  - intros Hno. destruct (recognise ck) as [K |] eqn:R; [| reflexivity].
    apply recognise_name in R. exfalso. exact (Hno K R).
  - intros K ->. rewrite recognise_key_name. unfold bind, ret.
    destruct (act_outcome K value c) as [[c' H] | [e H]]; rewrite H.
    + left. reflexivity.
    + right. split; [| exists e; reflexivity].
      destruct K; unfold act, assign_int, assign_dcs, modify in H;
        try discriminate H; unfold policy_key; cbn; tauto.
Qed.

(* ------------------------------------------------------------------ *)
(** *** Integers as decimal text *)

Lemma digits_of_uint_acc (d : Decimal.uint) (acc : positive) :
  digits (NilEmpty.string_of_uint d) (Z.pos acc) = Z.pos (Pos.of_uint_acc d acc).
Proof.
  revert acc. induction d; intros acc; cbn [NilEmpty.string_of_uint digits Pos.of_uint_acc];
    [reflexivity | ..];
    match goal with
    | |- context [digit_value ?ch] =>
        let v := eval vm_compute in (digit_value ch) in
        change (digit_value ch) with v
    end; cbv iota beta;
    rewrite <- IHd; f_equal; lia.
Qed.

Lemma digits_of_uint (d : Decimal.uint) :
  digits (NilEmpty.string_of_uint d) 0 = Z.of_uint d.
Proof.
  induction d; cbn [NilEmpty.string_of_uint digits]; [reflexivity | ..];
    match goal with
    | |- context [digit_value ?ch] =>
        let v := eval vm_compute in (digit_value ch) in
        change (digit_value ch) with v
    end; cbv iota beta;
    [exact IHd | ..];
    match goal with
    | |- digits _ ?a = _ =>
        let v := eval vm_compute in a in change a with v
    end; rewrite digits_of_uint_acc; reflexivity.
Qed.

Lemma signed_digits_of_uint (d : Decimal.uint) :
  match skip_spaces (NilZero.string_of_uint d) with
  | String "-"%char s' => - digits s' 0
  | String "+"%char s' => digits s' 0
  | s' => digits s' 0
  end = Z.of_uint d.
Proof.
  destruct d; try reflexivity;
    match goal with
    | |- context [NilZero.string_of_uint ?x] =>
        rewrite <- (digits_of_uint x)
    end; reflexivity.
Qed.

Lemma strtol10_format_d (n : Z) :
  strtol10 (format_d n) = Z.max (- 2 ^ 63) (Z.min (2 ^ 63 - 1) n).
Proof.
  unfold strtol10, format_d. cbv zeta. f_equal. f_equal.
  destruct n as [| p | p].
  - reflexivity.
  - cbn [Z.to_int NilZero.string_of_int].
    rewrite signed_digits_of_uint.
    exact (DecimalZ.of_to (Z.pos p)).
  - cbn [Z.to_int NilZero.string_of_int skip_spaces].
    change (isspace "-") with false. cbv iota.
    assert (H : digits (NilZero.string_of_uint (Pos.to_uint p)) 0
                = Z.of_uint (Pos.to_uint p)).
    { rewrite <- signed_digits_of_uint.
      destruct (Pos.to_uint p); reflexivity. }
    rewrite H. exact (DecimalZ.of_to (Z.neg p)).
Qed.

(** The decimal text of an [int] parses back to it. *)
Lemma atoi_format_d (n : Z) :
  - 2 ^ 31 <= n < 2 ^ 31 -> atoi (format_d n) = n.
Proof.
  intros Hn. unfold atoi. rewrite strtol10_format_d.
  rewrite Z.min_r by lia. rewrite Z.max_r by lia.
  rewrite Z.mod_small by lia. lia.
Qed.

Lemma digits_without_digit (s : string) :
  starts_with_digit s = false -> digits s 0 = 0.
Proof.
  destruct s as [| ch s']; cbn; [reflexivity |].
  destruct (digit_value ch); [discriminate | reflexivity].
Qed.

(** Text with no leading number reads as 0. *)
Lemma atoi_without_number (s : string) : leading_number s = false -> atoi s = 0.
Proof.
  unfold leading_number, atoi, strtol10. cbv zeta.
  destruct (skip_spaces s) as [| ch s'].
  - intros _. reflexivity.
  - destruct ch as [[] [] [] [] [] [] [] []]; cbv beta iota; intros H;
      rewrite (digits_without_digit _ H); reflexivity.
Qed.

Lemma set_count_run (s value : string) (c : DatabaseConfiguration) :
  removePrefix_strips ->
  let c' := after (set (configKeysPrefix ++ s) value) c in
  (s = "proxies"%string -> masterProxyCount c' = atoi value) /\
  (s = "resolvers"%string -> resolverCount c' = atoi value) /\
  (s = "logs"%string -> desiredTLogCount c' = atoi value) /\
  (s = "storage_replicas"%string -> storageTeamSize c' = atoi value) /\
  (s = "log_replicas"%string -> tLogReplicationFactor c' = atoi value).
Proof.
  intros Hstrip. unfold after. rewrite set_in_namespace by exact Hstrip.
  repeat split; intros ->; reflexivity.
Qed.

(** X14: a count written as the decimal text of an [int] is held as that
    [int], and the canonical map of an initialised object spells it the same
    way, unless it is the [-1] that stands for no count; so for ["proxies"],
    ["resolvers"] and ["logs"]. *)
Theorem count_text_round_trip (n : Z) (c : DatabaseConfiguration) :
  removePrefix_strips -> - 2 ^ 31 <= n < 2 ^ 31 ->
  masterProxyCount (after (set (configKeysPrefix ++ "proxies") (format_d n)) c) = n /\
  resolverCount (after (set (configKeysPrefix ++ "resolvers") (format_d n)) c) = n /\
  desiredTLogCount (after (set (configKeysPrefix ++ "logs") (format_d n)) c) = n /\
  (n <> -1 ->
   forall key m, In key ["proxies"; "resolvers"; "logs"]%string ->
     let c' := after (set (configKeysPrefix ++ key) (format_d n)) c in
     initialized c' = true -> toMap c' = Normal m ->
     StdMap.find key m = Some (format_d n)).
Proof.
  intros Hstrip Hn.
  pose proof (fun s => set_count_run s (format_d n) c Hstrip) as Hrun.
  cbv zeta in Hrun. rewrite (atoi_format_d n Hn) in Hrun.
  destruct (Hrun "proxies"%string) as (Hp & _).
  destruct (Hrun "resolvers"%string) as (_ & Hr & _).
  destruct (Hrun "logs"%string) as (_ & _ & Hl & _).
  specialize (Hp eq_refl). specialize (Hr eq_refl). specialize (Hl eq_refl).
  repeat split; try assumption.
  intros Hne key m Hkey. cbv zeta.
  assert (Hnb : (n =? -1) = false) by (apply Z.eqb_neq; exact Hne).
  destruct Hkey as [<- | [<- | [<- | []]]];
    match goal with
    | |- context [after ?call c] => generalize dependent (after call c)
    end; intros c' Hc Hi Hm;
    rewrite toMap_cases, Hi in Hm;
    (destruct (tLogPolicy c') as [tp |]; [| discriminate]);
    (destruct (storagePolicy c') as [sp |]; [| discriminate]);
    apply Normal_inj in Hm; subst m;
    destruct (find_toMap_counts c' (info tp) (info sp)) as (Hfl & _ & _ & Hfp & Hfr);
    cbv zeta in Hfl, Hfp, Hfr; rewrite Hc, Hnb in *; assumption.
Qed.

Lemma isValid_counts (c : DatabaseConfiguration) :
  isValid c = true -> 1 <= tLogReplicationFactor c /\ 1 <= storageTeamSize c.
Proof.
  unfold isValid. intros H.
  repeat (apply andb_prop in H; let H' := fresh "H" in destruct H as [H H']).
  split.
  - match goal with
    | Hx : (tLogReplicationFactor c >=? 1) = true |- _ => apply Z.geb_le in Hx; lia
    end.
  - match goal with
    | Hx : (storageTeamSize c >=? 1) = true |- _ => apply Z.geb_le in Hx; lia
    end.
Qed.

(** X15: a count whose text holds no leading number is not rejected: [set]
    reports the key as recognised and the count read is 0, which for the
    replication counts leaves the object invalid. *)
Theorem set_count_without_number (value : string) (c : DatabaseConfiguration) :
  removePrefix_strips -> leading_number value = false ->
  (forall key, In key ["proxies"; "resolvers"; "logs"; "storage_replicas";
                       "log_replicas"]%string ->
     fst (set (configKeysPrefix ++ key) value c) = Normal true) /\
  masterProxyCount (after (set (configKeysPrefix ++ "proxies") value) c) = 0 /\
  resolverCount (after (set (configKeysPrefix ++ "resolvers") value) c) = 0 /\
  desiredTLogCount (after (set (configKeysPrefix ++ "logs") value) c) = 0 /\
  isValid (after (set (configKeysPrefix ++ "storage_replicas") value) c) = false /\
  isValid (after (set (configKeysPrefix ++ "log_replicas") value) c) = false.
Proof.
  intros Hstrip Hv.
  pose proof (fun s => set_count_run s value c Hstrip) as Hrun.
  cbv zeta in Hrun. rewrite (atoi_without_number value Hv) in Hrun.
  destruct (Hrun "proxies"%string) as (Hp & _).
  destruct (Hrun "resolvers"%string) as (_ & Hr & _).
  destruct (Hrun "logs"%string) as (_ & _ & Hl & _).
  destruct (Hrun "storage_replicas"%string) as (_ & _ & _ & Hs & _).
  destruct (Hrun "log_replicas"%string) as (_ & _ & _ & _ & Hg).
  specialize (Hp eq_refl). specialize (Hr eq_refl). specialize (Hl eq_refl).
  specialize (Hs eq_refl). specialize (Hg eq_refl).
  split; [| repeat split; try assumption].
  - intros key Hkey. rewrite set_in_namespace by exact Hstrip.
    destruct Hkey as [<- | [<- | [<- | [<- | [<- | []]]]]]; reflexivity.
  - apply not_true_is_false. intros Hval.
    apply isValid_counts in Hval. lia.
  - apply not_true_is_false. intros Hval.
    apply isValid_counts in Hval. lia.
Qed.

(* ------------------------------------------------------------------ *)
(** *** The split of a datacenter list *)

Lemma parse_dcs_loop_appends (v rest : string) (i lastBegin : nat)
    (dcs : list (option string)) :
  exists pushed,
    parse_dcs_loop v rest i lastBegin dcs = (dcs ++ pushed)%list /\
    length pushed = S (commas rest) /\
    Forall (fun o => present o = true) pushed.
Proof.
  revert i lastBegin dcs. induction rest as [| ch rest IH]; intros i lastBegin dcs; cbn.
  - eexists. split; [reflexivity |]. split; [reflexivity |].
    constructor; [reflexivity | constructor].
  - destruct (Ascii.eqb ch ","%char).
    + destruct (IH (S i) (S i) (dcs ++ [Some (substr v lastBegin i)])%list)
        as (pushed & Heq & Hlen & Hall).
      exists (Some (substr v lastBegin i) :: pushed). split.
      * rewrite Heq, <- app_assoc. reflexivity.
      * split; [cbn; rewrite Hlen; reflexivity |].
        constructor; [reflexivity | exact Hall].
    + apply IH.
Qed.

Lemma set_satellite_dcs_run (s value : string) (c : DatabaseConfiguration) :
  removePrefix_strips ->
  let r := set (configKeysPrefix ++ s) value c in
  (s = "primary_satellite_dcs"%string ->
   fst r = Normal true /\
   primarySatelliteDcIds (snd r) = parse_dcs (primarySatelliteDcIds c) value) /\
  (s = "remote_satellite_dcs"%string ->
   fst r = Normal true /\
   remoteSatelliteDcIds (snd r) = parse_dcs (remoteSatelliteDcIds c) value).
Proof.
  intros Hstrip. cbv zeta. rewrite set_in_namespace by exact Hstrip.
  split; intros ->; split; try reflexivity;
    unfold makeConfigurationMutable; destruct (mutableConfiguration c); reflexivity.
Qed.

(** X16: a [set] of a satellite list key appends to the list held: the
    elements already there stay in front, and one present element is pushed
    per comma of the value and one more.  Only the reset of a [clear]
    empties the list, so setting the key twice holds both lists while the
    store holds the second value alone. *)
Theorem set_satellite_dcs_appends (value : string) (c : DatabaseConfiguration) :
  removePrefix_strips ->
  (exists pushed,
     primarySatelliteDcIds
       (after (set (configKeysPrefix ++ "primary_satellite_dcs") value) c) =
     (primarySatelliteDcIds c ++ pushed)%list /\
     length pushed = S (commas value) /\
     Forall (fun o => present o = true) pushed) /\
  (exists pushed,
     remoteSatelliteDcIds
       (after (set (configKeysPrefix ++ "remote_satellite_dcs") value) c) =
     (remoteSatelliteDcIds c ++ pushed)%list /\
     length pushed = S (commas value) /\
     Forall (fun o => present o = true) pushed) /\
  (forall value',
     let key := (configKeysPrefix ++ "primary_satellite_dcs")%string in
     let c2 := after (set key value') (after (set key value) c) in
     get c2 key = Some value' /\
     length (primarySatelliteDcIds c2) =
       (length (primarySatelliteDcIds c) + S (commas value) + S (commas value'))%nat).
Proof.
  intros Hstrip.
  assert (Hp : forall v d,
             primarySatelliteDcIds
               (after (set (configKeysPrefix ++ "primary_satellite_dcs") v) d) =
             parse_dcs (primarySatelliteDcIds d) v).
  { intros v d.
    destruct (set_satellite_dcs_run "primary_satellite_dcs" v d Hstrip) as (H & _).
    apply H. reflexivity. }
  assert (Hr : remoteSatelliteDcIds
                 (after (set (configKeysPrefix ++ "remote_satellite_dcs") value) c) =
               parse_dcs (remoteSatelliteDcIds c) value).
  { destruct (set_satellite_dcs_run "remote_satellite_dcs" value c Hstrip) as (_ & H).
    apply H. reflexivity. }
  split; [| split].
  - rewrite Hp. apply parse_dcs_loop_appends.
  - rewrite Hr. apply parse_dcs_loop_appends.
  - intros value'. cbv zeta. split.
    + apply get_after_set_same.
    + rewrite !Hp. unfold parse_dcs.
      destruct (parse_dcs_loop_appends value value 0 0 (primarySatelliteDcIds c))
        as (p1 & -> & Hl1 & _).
      destruct (parse_dcs_loop_appends value' value' 0 0 (primarySatelliteDcIds c ++ p1)%list)
        as (p2 & -> & Hl2 & _).
      rewrite !length_app. lia.
Qed.

Lemma parse_dcs_loop_skip (v a rest : string) (i lastBegin : nat)
    (dcs : list (option string)) :
  commas a = O ->
  parse_dcs_loop v (a ++ rest) i lastBegin dcs =
  parse_dcs_loop v rest (i + String.length a) lastBegin dcs.
Proof.
  revert i. induction a as [| ch a IH]; intros i Ha; cbn in *.
  - rewrite Nat.add_0_r. reflexivity.
  - destruct (Ascii.eqb ch ","%char); [discriminate |].
    rewrite IH by exact Ha. f_equal. lia.
Qed.

Lemma substring_suffix (a b : string) :
  String.substring (String.length a) (String.length b) (a ++ b) = b.
Proof.
  induction a as [| ch a IH]; cbn.
  - apply substring_whole.
  - exact IH.
Qed.

(** X17: a value with one comma is split into its two elements, read under
    the [(start, length)] meaning of [substr]; the over-long element of a
    longer list starts at the second comma. *)
Theorem parse_dcs_one_comma (a b : string) (dcs : list (option string)) :
  substr_start_length -> commas a = O -> commas b = O ->
  parse_dcs dcs (a ++ "," ++ b) = (dcs ++ [Some a; Some b])%list.
Proof.
  intros [Hfrom Hsub] Ha Hb. unfold parse_dcs.
  rewrite (parse_dcs_loop_skip _ a _ 0 0 dcs Ha).
  cbn [String.append parse_dcs_loop]. rewrite Ascii.eqb_refl.
  pose proof (parse_dcs_loop_skip (a ++ String "," b) b "" 
                (S (0 + String.length a)) (S (0 + String.length a))
                (dcs ++ [Some (substr (a ++ String "," b) 0 (0 + String.length a))])%list Hb)
    as Hskip.
  rewrite append_empty_r in Hskip. rewrite Hskip. cbn [parse_dcs_loop].
  rewrite <- app_assoc. cbn [app]. rewrite Nat.add_0_l.
  rewrite Hsub by (rewrite length_append; lia).
  rewrite Hfrom by (rewrite length_append; cbn [String.length]; lia).
  rewrite substring_prefix.
  replace (String.length (a ++ String "," b) - S (String.length a))%nat
     with (String.length b) by (rewrite length_append; cbn [String.length]; lia).
  change (a ++ String "," b)%string with (a ++ ("," ++ b))%string.
  rewrite <- append_assoc.
  replace (S (String.length a)) with (String.length (a ++ ","))
    by (rewrite length_append; cbn [String.length]; lia).
  rewrite substring_suffix. reflexivity.
Qed.

(* ------------------------------------------------------------------ *)
(** *** Datacenters come in pairs *)

Lemma isValid_pairs (c : DatabaseConfiguration) :
  isValid c = true ->
  present (primaryDcId c) = present (remoteDcId c) /\
  length (primarySatelliteDcIds c) = length (remoteSatelliteDcIds c).
Proof.
  unfold isValid. intros H.
  repeat (apply andb_prop in H; let H' := fresh "H" in destruct H as [H H']).
  split.
  - match goal with
    | Hx : Bool.eqb (present (primaryDcId c)) _ = true |- _ =>
        apply Bool.eqb_prop in Hx; exact Hx
    end.
  - match goal with
    | Hx : (length (primarySatelliteDcIds c) =? _)%nat = true |- _ =>
        apply Nat.eqb_eq in Hx; exact Hx
    end.
Qed.

Lemma set_datacenter_run (s value : string) (c : DatabaseConfiguration) :
  removePrefix_strips ->
  let c' := after (set (configKeysPrefix ++ s) value) c in
  (s = "primary_satellite_dcs"%string ->
   primarySatelliteDcIds c' = parse_dcs (primarySatelliteDcIds c) value /\
   remoteSatelliteDcIds c' = remoteSatelliteDcIds c) /\
  (s = "remote_satellite_dcs"%string ->
   remoteSatelliteDcIds c' = parse_dcs (remoteSatelliteDcIds c) value /\
   primarySatelliteDcIds c' = primarySatelliteDcIds c) /\
  (s = "primary_dc"%string ->
   primaryDcId c' = Some value /\ remoteDcId c' = remoteDcId c) /\
  (s = "remote_dc"%string ->
   remoteDcId c' = Some value /\ primaryDcId c' = primaryDcId c).
Proof.
  intros Hstrip. cbv zeta. unfold after. rewrite set_in_namespace by exact Hstrip.
  repeat split; subst s; try reflexivity;
    unfold makeConfigurationMutable; destruct (mutableConfiguration c); reflexivity.
Qed.

(** X21: the datacenter keys come in pairs.  On an object whose two
    satellite lists have the same length, a [set] of one satellite list key
    alone, whatever the value, leaves the object invalid; and so does a
    [set] of [primary_dc] or of [remote_dc] alone on an object that has
    neither. *)
Theorem one_sided_datacenter_invalid (value : string) (c : DatabaseConfiguration) :
  removePrefix_strips ->
  (length (primarySatelliteDcIds c) = length (remoteSatelliteDcIds c) ->
   isValid (after (set (configKeysPrefix ++ "primary_satellite_dcs") value) c) = false /\
   isValid (after (set (configKeysPrefix ++ "remote_satellite_dcs") value) c) = false) /\
  (primaryDcId c = None -> remoteDcId c = None ->
   isValid (after (set (configKeysPrefix ++ "primary_dc") value) c) = false /\
   isValid (after (set (configKeysPrefix ++ "remote_dc") value) c) = false).
Proof.
  intros Hstrip.
  pose proof (fun s => set_datacenter_run s value c Hstrip) as Hrun. cbv zeta in Hrun.
  destruct (Hrun "primary_satellite_dcs"%string) as (Hps & _).
  destruct (Hrun "remote_satellite_dcs"%string) as (_ & Hrs & _).
  destruct (Hrun "primary_dc"%string) as (_ & _ & Hpd & _).
  destruct (Hrun "remote_dc"%string) as (_ & _ & _ & Hrd).
  destruct (Hps eq_refl) as [Hps1 Hps2]. destruct (Hrs eq_refl) as [Hrs1 Hrs2].
  destruct (Hpd eq_refl) as [Hpd1 Hpd2]. destruct (Hrd eq_refl) as [Hrd1 Hrd2].
  clear Hrun Hps Hrs Hpd Hrd.
  split.
  - intros Hlen. split; apply not_true_is_false; intros Hval;
      apply isValid_pairs in Hval; destruct Hval as [_ Hval].
    + rewrite Hps1, Hps2 in Hval.
      pose proof (parse_dcs_loop_grows value value 0 0 (primarySatelliteDcIds c)) as Hg.
      unfold parse_dcs in Hval. lia.
    + rewrite Hrs1, Hrs2 in Hval.
      pose proof (parse_dcs_loop_grows value value 0 0 (remoteSatelliteDcIds c)) as Hg.
      unfold parse_dcs in Hval. lia.
  - intros Hp Hr. split; apply not_true_is_false; intros Hval;
      apply isValid_pairs in Hval; destruct Hval as [Hval _].
    + rewrite Hpd1, Hpd2, Hr in Hval. discriminate Hval.
    + rewrite Hrd1, Hrd2, Hp in Hval. discriminate Hval.
Qed.

End Facts.


(* ------------------------------------------------------------------ *)
(** ** Mutations and excluded servers *)

Section MutationFacts.
Context {E : Collaborators} {S : SystemKeys}.

Lemma after_then_ret {A} (m : M A) (c : DatabaseConfiguration) :
  after (bind m (fun _ => ret tt)) c = after m c.
Proof.
  unfold after, bind, ret. destruct (m c) as [[a | e |] c']; reflexivity.
Qed.

(** X18: what a mutation does to the stored pairs.  A [SetValue] on a key
    under the prefix stores its pair and no other; any other [SetValue], a
    mutation of another type and a [ClearRange] that misses [configKeys]
    leave the object as it is; a [ClearRange] that meets [configKeys] drops
    the keys of the intersection and no other, and one whose range cannot
    be built throws before anything is touched. *)
Theorem applyMutation_get (m : MutationRef) (c : DatabaseConfiguration) (k : string) :
  store_ok c ->
  let c' := after (applyMutation m) c in
  (mtype m = SetValue -> startsWith (param1 m) configKeysPrefix = true ->
   get c' (param1 m) = Some (param2 m) /\ (k <> param1 m -> get c' k = get c k)) /\
  (mtype m = SetValue -> startsWith (param1 m) configKeysPrefix = false ->
   applyMutation m c = (Normal tt, c)) /\
  (forall code, mtype m = OtherMutation code -> applyMutation m c = (Normal tt, c)) /\
  (forall range, mtype m = ClearRange -> keyRange (param1 m) (param2 m) = inr range ->
     (intersects range configKeys = false -> applyMutation m c = (Normal tt, c)) /\
     (intersects range configKeys = true ->
      let keys := range_and range configKeys in
      String.leb (range_begin keys) (range_end keys) = true ->
      get c' k = if contains keys k then None else get c k)) /\
  (forall e, mtype m = ClearRange -> keyRange (param1 m) (param2 m) = inl e ->
     applyMutation m c = (Throws e, c)).
Proof.
  intros Hok. cbv zeta. unfold applyMutation.
  split; [| split; [| split; [| split]]].
  - intros Ht Hs. rewrite Ht, Hs, after_then_ret. split.
    + apply get_after_set_same.
    + intros Hne. apply get_after_set_other; assumption.
  - intros Ht Hs. rewrite Ht, Hs. reflexivity.
  - intros code Ht. rewrite Ht. reflexivity.
  - intros range Ht Hr. rewrite Ht, Hr. split.
    + intros Hi. rewrite Hi. reflexivity.
    + intros Hi Hle. rewrite Hi, after_then_ret.
      apply get_after_clear; assumption.
  - intros e Ht Hr. rewrite Ht, Hr. reflexivity.
Qed.

(** X19: a server is excluded as soon as either of its two keys is stored,
    whatever the value, and no longer once a [clear] covers both; moving
    the pairs between the overlay and the snapshot does not change the
    answer. *)
Theorem isExcludedServer_follows_store (c : DatabaseConfiguration) (a : NetworkAddress)
    (v : string) (keys : KeyRangeRef) :
  store_ok c ->
  isExcludedServer
    (after (set (encodeExcludedServersKey (exclusion_of_ip_port a)) v) c) a = true /\
  isExcludedServer
    (after (set (encodeExcludedServersKey (exclusion_of_ip a)) v) c) a = true /\
  (String.leb (range_begin keys) (range_end keys) = true ->
   contains keys (encodeExcludedServersKey (exclusion_of_ip_port a)) = true ->
   contains keys (encodeExcludedServersKey (exclusion_of_ip a)) = true ->
   isExcludedServer (after (clear keys) c) a = false) /\
  isExcludedServer (makeConfigurationImmutable c) a = isExcludedServer c a /\
  isExcludedServer (makeConfigurationMutable c) a = isExcludedServer c a.
Proof.
  intros Hok. unfold isExcludedServer. repeat split.
  - rewrite get_after_set_same. reflexivity.
  - rewrite get_after_set_same. apply orb_true_r.
  - intros Hle H1 H2. rewrite !get_after_clear by assumption.
    rewrite H1, H2. reflexivity.
  - rewrite !get_makeConfigurationImmutable by exact Hok. reflexivity.
  - rewrite !get_makeConfigurationMutable_same by exact Hok. reflexivity.
Qed.

Lemma excluded_loop_In (entries : list (string * string))
    (addrs : list AddressExclusion) (a : AddressExclusion) :
  StdMap.sorted entries ->
  In a (excluded_loop entries addrs) <->
  In a addrs \/
  exists k v, In (k, v) entries /\ String.ltb k (range_end excludedServersKeys) = true /\
              decodeExcludedServersKey k = a /\ exclusion_isValid a = true.
Proof.
  revert addrs. induction entries as [| [k1 v1] entries IH]; intros addrs Hs; cbn.
  - split; [tauto |]. intros [H | (k & v & [] & _)]. exact H.
  - apply sorted_tail_bounds in Hs. destruct Hs as [Hs H1].
    destruct (String.ltb k1 (range_end excludedServersKeys)) eqn:C1.
    + rewrite (IH _ Hs). split.
      * intros [Ha | (k & v & Hin & Hlt & Hd & Hv)].
        -- destruct (exclusion_isValid (decodeExcludedServersKey k1)) eqn:Hv1.
           ++ apply in_app_or in Ha. destruct Ha as [Ha | [<- | []]]; [left; exact Ha |].
              right. exists k1, v1. repeat split; auto.
           ++ left. exact Ha.
        -- right. exists k, v. repeat split; auto.
      * intros [Ha | (k & v & [Heq | Hin] & Hlt & Hd & Hv)].
        -- left. destruct (exclusion_isValid (decodeExcludedServersKey k1));
             [apply in_or_app; left |]; exact Ha.
        -- inversion Heq; subst k1 v1. left. rewrite Hd, Hv.
           apply in_or_app. right. left. reflexivity.
        -- right. exists k, v. repeat split; auto.
    + split; [tauto |]. intros [Ha | (k & v & [Heq | Hin] & Hlt & _)]; [exact Ha | ..].
      * inversion Heq; subst k1 v1. congruence.
      * exfalso. rewrite Forall_forall in H1. specialize (H1 _ Hin). cbn in H1.
        str_order.
Qed.

(** X20: [getExcludedServers] returns, and an address is in its result
    exactly when it is valid and decoded from a stored key of
    [excludedServersKeys]; the call collapses the overlay into the snapshot,
    which no [get] can tell. *)
Theorem getExcludedServers_members (c : DatabaseConfiguration) :
  store_ok c ->
  exists addrs,
    getExcludedServers c = (Normal addrs, makeConfigurationImmutable c) /\
    (forall a, In a addrs <->
       exists k v, get c k = Some v /\ contains excludedServersKeys k = true /\
                   decodeExcludedServersKey k = a /\ exclusion_isValid a = true) /\
    (forall k, get (after getExcludedServers c) k = get c k).
Proof.
  intros Hok. eexists. split; [reflexivity |].
  pose proof (makeConfigurationImmutable_keeps_store_ok c Hok) as [Hraw _].
  assert (Hget : forall k,
             StdMap.find k (rawConfiguration (makeConfigurationImmutable c)) = get c k).
  { intros k. rewrite <- (get_makeConfigurationImmutable c k Hok).
    unfold get at 1.
    assert (Hnone : mutableConfiguration (makeConfigurationImmutable c) = None).
    { unfold makeConfigurationImmutable.
      destruct (mutableConfiguration c) eqn:Hm; [reflexivity | exact Hm]. }
    rewrite Hnone. symmetry. apply lower_bound_lookup. exact Hraw. }
  split.
  - intros a. unfold lower_bound.
    rewrite excluded_loop_In by (apply sorted_skipn; exact Hraw).
    split.
    + intros [[] | (k & v & Hin & Hlt & Hd & Hv)].
      exists k, v.
      apply find_In in Hin; [| apply sorted_skipn; exact Hraw].
      rewrite find_skipn_lower_bound in Hin by exact Hraw.
      destruct (String.ltb k (range_begin excludedServersKeys)) eqn:C1; [discriminate |].
      rewrite Hget in Hin. repeat split; auto.
      unfold contains. rewrite Hlt, andb_true_r. str_order.
    + intros (k & v & Hg & Hc & Hd & Hv). right. exists k, v.
      unfold contains in Hc. apply andb_prop in Hc. destruct Hc as [Hb He].
      repeat split; auto.
      apply find_In; [apply sorted_skipn; exact Hraw |].
      rewrite find_skipn_lower_bound by exact Hraw.
      assert (Hnlt : String.ltb k (range_begin excludedServersKeys) = false) by str_order.
      rewrite Hnlt, Hget. exact Hg.
  - intros k. apply get_makeConfigurationImmutable. exact Hok.
Qed.

End MutationFacts.

(* ------------------------------------------------------------------ *)
(** ** At concrete inputs *)

Section AtConcreteInputs.
#[local] Existing Instance sample_collaborators.

Lemma sample_removePrefix_strips : removePrefix_strips.
Proof.
  intros suffix. cbn. rewrite Nat.sub_0_r, substring_whole. reflexivity.
Qed.

Lemma sample_substr_start_length : substr_start_length.
Proof. split; intros; reflexivity. Qed.

Lemma sample_state_store_ok : store_ok sample_state.
Proof. apply triple_state_store_ok. Qed.

Lemma triple_then_clear_witness :
  exists c c',
    triple_config "1" "1" DatabaseConfiguration_new = (Normal tt, c) /\
    isValid c = true /\
    (exists m, toMap c = Normal m /\
               StdMap.find "redundancy_mode" m = Some "triple"%string) /\
    clear sample_range c = (Normal true, c') /\ storageTeamSize c' = -1.
Proof.
  destruct (triple_then_clear "1" "1") as (c & Hrun & Hvalid & Hmode & Hclear).
  - exact sample_removePrefix_strips.
  - vm_compute. discriminate.
  - vm_compute. discriminate.
  - vm_compute. discriminate.
  - vm_compute. discriminate.
  - vm_compute. discriminate.
  - vm_compute. discriminate.
  - destruct (Hclear sample_range) as (c' & Hc & Hs); [vm_compute; reflexivity |].
    exists c, c'. repeat split; assumption.
Defined.

Lemma sample_state_in_bounds (k v : string) :
  get sample_state k = Some v ->
  exists s, k = (configKeysPrefix ++ s)%string /\ in_bounds_pair (s, v) = true.
Proof.
  intros H.
  assert (Hin : In (k, v) (triple_overlay "1" "1"))
    by (apply find_In; [apply (triple_state_store_ok "1" "1") | exact H]).
  unfold triple_overlay in Hin.
  repeat (apply In_insert in Hin; destruct Hin as [Hin | Hin]); try contradiction;
    injection Hin as -> ->; eexists; split; reflexivity.
Qed.

Lemma clear_valid_transition_witness :
  exists (remaining : StdMap.t) (c' : DatabaseConfiguration),
    StdMap.sorted remaining /\
    (forall k v, In (k, v) remaining <->
                 get sample_state k = Some v /\ contains sample_range k = false) /\
    clear sample_range sample_state = (Normal true, c') /\
    isValid sample_state = true /\ isValid c' = false /\
    c' = specified_after_clear [] remaining remaining /\
    initialized c' = true /\ tLogReplicationFactor c' = 3 /\
    storageTeamSize c' = -1 /\ storagePolicy c' = None /\
    mutableConfiguration c' = Some remaining.
Proof.
  destruct (clear_valid_transition sample_state sample_range)
    as (remaining & Hsorted & Hin & _ & _ & Hspec).
  - exact sample_state_store_ok.
  - vm_compute. reflexivity.
  - assert (Hns : Forall (fun kv => exists s, fst kv = (configKeysPrefix ++ s)%string /\
                                              in_bounds_pair (s, snd kv) = true)
                         remaining).
    { apply Forall_forall. intros [k v] Hkv. apply Hin in Hkv.
      destruct Hkv as [Hg _]. exact (sample_state_in_bounds k v Hg). }
    specialize (Hspec sample_removePrefix_strips Hns). cbv zeta in Hspec.
    assert (Hret : fst (clear sample_range sample_state) = Normal true)
      by (vm_compute; reflexivity).
    assert (Hvalid : isValid (snd (clear sample_range sample_state)) = false)
      by (vm_compute; reflexivity).
    destruct (clear sample_range sample_state) as [[b | e |] c'];
      cbn [fst snd] in Hret, Hvalid; try discriminate Hret.
    apply Normal_inj in Hret. subst b.
    exists remaining, c'.
    split; [exact Hsorted |]. split; [exact Hin |]. split; [reflexivity |].
    split; [vm_compute; reflexivity |]. split; [exact Hvalid |].
    split; [exact Hspec |].
    assert (Hfind : forall s v,
               get sample_state (configKeysPrefix ++ s)%string = Some v ->
               contains sample_range (configKeysPrefix ++ s)%string = false ->
               value_of remaining s = Some v).
    { intros s v Hg Hc. apply find_In; [exact Hsorted |]. apply Hin. split; assumption. }
    assert (Hgone : value_of remaining "storage_replicas" = None).
    { destruct (value_of remaining "storage_replicas") as [v |] eqn:Hv; [| reflexivity].
      apply find_In in Hv; [| exact Hsorted]. apply Hin in Hv.
      destruct Hv as [_ Hv]. vm_compute in Hv. discriminate Hv. }
    assert (Hpolicy : value_of remaining "storage_replication_policy" = None).
    { destruct (value_of remaining "storage_replication_policy") as [v |] eqn:Hv;
        [| reflexivity].
      apply find_In in Hv; [| exact Hsorted]. apply Hin in Hv.
      destruct Hv as [Hv _]. vm_compute in Hv. discriminate Hv. }
    rewrite Hspec. unfold specified_after_clear. cbn -[value_of atoi].
    rewrite (Hfind "initialized" ""), (Hfind "log_replicas" "3"), Hgone, Hpolicy
      by (vm_compute; reflexivity).
    repeat split; reflexivity.
Defined.

Lemma clear_get_frame_witness :
  get (after (clear sample_range) sample_state) (sample_prefix ++ "storage_replicas")
    = None /\
  get (after (clear sample_range) sample_state) (sample_prefix ++ "log_replicas")
    = Some "3"%string.
Proof.
  split.
  - apply (clear_get_frame sample_state sample_range (sample_prefix ++ "storage_replicas")).
    + exact sample_state_store_ok.
    + vm_compute. reflexivity.
    + vm_compute. reflexivity.
  - destruct (clear_get_frame sample_state sample_range (sample_prefix ++ "log_replicas"))
      as [_ Hout].
    + exact sample_state_store_ok.
    + vm_compute. reflexivity.
    + rewrite Hout; vm_compute; reflexivity.
Defined.

Lemma set_all_get_witness :
  get (set_all [("a", "1"); ("b", "2")]%string DatabaseConfiguration_new) "b"
    = Some "2"%string.
Proof.
  apply set_all_get.
  - constructor.
    + cbn. intros [H | []]. discriminate H.
    + constructor; [cbn; intros [] | constructor].
  - cbn. right. left. reflexivity.
Defined.


Lemma toMap_null_policy_after_clear_witness :
  (exists m, toMap sample_state = Normal m) /\
  exists b c',
    clear sample_range sample_state = (Normal b, c') /\ initialized c' = true /\
    tLogPolicy c' = None /\ storagePolicy c' = None /\ toMap c' = NullDereference.
Proof.
  split; [eexists; vm_compute; reflexivity |].
  apply (toMap_null_policy_after_clear sample_state sample_range).
  - exact sample_removePrefix_strips.
  - exact sample_state_store_ok.
  - vm_compute. reflexivity.
  - intros k v Hg _. exact (triple_state_plain "1" "1" k v Hg).
  - exists ""%string. vm_compute. reflexivity.
  - vm_compute. reflexivity.
Defined.

Lemma isValid_requires_auto_counts_witness :
  data_model_invariants explicit_counts = true /\
  masterProxyCount explicit_counts = 2 /\ resolverCount explicit_counts = 1 /\
  desiredTLogCount explicit_counts = 3 /\ remoteDesiredTLogCount explicit_counts = 1 /\
  satelliteDesiredTLogCount explicit_counts = 1 /\
  desiredLogRouterCount explicit_counts = 1 /\
  autoMasterProxyCount explicit_counts = 0 /\
  isValid explicit_counts = false.
Proof.
  do 8 (split; [vm_compute; reflexivity |]).
  apply isValid_requires_auto_counts. left. vm_compute. reflexivity.
Defined.

Lemma parse_dcs_second_comma_witness :
  parse_dcs [] "a,b,c" = [Some "a"; Some "b,c"; Some "c"]%string /\
  parse_dcs [] ",," = [Some ""; Some ","; Some ""]%string.
Proof. apply parse_dcs_second_comma. exact sample_substr_start_length. Defined.

(** C5: the [remote_logs] and [satellite_logs] entries follow
    [desiredTLogCount], not their own counts: with [remote_logs] set to 5
    and [logs] unset the map has no [remote_logs]; with [logs] set and the
    other two unset the map gives ["-1"] for both. *)
Theorem remote_logs_follow_logs :
  remoteDesiredTLogCount remote_logs_only = 5 /\
  desiredTLogCount remote_logs_only = -1 /\
  (exists m, toMap remote_logs_only = Normal m /\ StdMap.find "remote_logs" m = None) /\
  remoteDesiredTLogCount logs_only = -1 /\
  satelliteDesiredTLogCount logs_only = -1 /\
  (exists m, toMap logs_only = Normal m /\
             StdMap.find "remote_logs" m = Some "-1"%string /\
             StdMap.find "satellite_logs" m = Some "-1"%string).
Proof.
  repeat split; try (vm_compute; reflexivity);
    eexists; repeat split; vm_compute; reflexivity.
Qed.

(** C6: the satellite lists are rendered with no separator: the
    datacenters [a] and [b], parsed from ["a,b"], come out as ["ab"]. *)
Theorem satellite_dcs_without_commas :
  primarySatelliteDcIds two_satellites = [Some "a"; Some "b"]%string /\
  remoteSatelliteDcIds two_satellites = [Some "c"; Some "d"]%string /\
  exists m, toMap two_satellites = Normal m /\
            StdMap.find "primary_satellite_dcs" m = Some "ab"%string /\
            StdMap.find "remote_satellite_dcs" m = Some "cd"%string.
Proof.
  repeat split; try (vm_compute; reflexivity).
  eexists. repeat split; vm_compute; reflexivity.
Qed.

End AtConcreteInputs.

(* ------------------------------------------------------------------ *)
(** ** More concrete inputs *)

Section MoreConcreteInputs.
#[local] Existing Instance sample_collaborators.
#[local] Existing Instance sample_system_keys.

Lemma new_store_ok : store_ok DatabaseConfiguration_new.
Proof. split; constructor. Qed.

Lemma marker_only_store_ok : store_ok marker_only.
Proof. apply set_keeps_store_ok, new_store_ok. Qed.

Lemma excluded_state_store_ok : store_ok excluded_state.
Proof. apply set_keeps_store_ok, sample_state_store_ok. Qed.

Lemma store_ok_kept_witness :
  store_ok (after (set (sample_prefix ++ "logs") "4") sample_state) /\
  store_ok (after (clear sample_range) sample_state) /\
  store_ok (makeConfigurationMutable sample_state) /\
  store_ok (makeConfigurationImmutable sample_state).
Proof.
  apply (store_ok_kept sample_state (sample_prefix ++ "logs") "4" sample_range).
  - exact sample_state_store_ok.
  - vm_compute. reflexivity.
Defined.

Lemma snapshot_overlay_round_trip_witness :
  get (makeConfigurationImmutable sample_state) (sample_prefix ++ "storage_replicas")
    = get sample_state (sample_prefix ++ "storage_replicas") /\
  get (makeConfigurationMutable sample_state) (sample_prefix ++ "storage_replicas")
    = get sample_state (sample_prefix ++ "storage_replicas") /\
  (rawConfiguration sample_state = [] -> mutableConfiguration sample_state <> None ->
   makeConfigurationMutable (makeConfigurationImmutable sample_state) = sample_state).
Proof.
  apply (snapshot_overlay_round_trip sample_state (sample_prefix ++ "storage_replicas")).
  exact sample_state_store_ok.
Defined.

Lemma set_get_frame_witness :
  get (after (set (sample_prefix ++ "logs") "4") sample_state) (sample_prefix ++ "logs")
    = Some "4"%string /\
  get (after (set (sample_prefix ++ "logs") "4") sample_state)
      (sample_prefix ++ "storage_replicas") = Some "3"%string.
Proof.
  destruct (set_get_frame sample_state (sample_prefix ++ "logs") "4"
              (sample_prefix ++ "storage_replicas")) as [Hsame Hother].
  - exact sample_state_store_ok.
  - split; [exact Hsame |].
    rewrite Hother; [vm_compute; reflexivity | vm_compute; discriminate].
Defined.

Lemma set_all_last_write_witness :
  get (set_all [("a", "1"); ("b", "2"); ("a", "3")]%string DatabaseConfiguration_new) "a"
    = Some "3"%string /\
  get (set_all [("a", "1"); ("b", "2"); ("a", "3")]%string DatabaseConfiguration_new) "c"
    = None.
Proof.
  split.
  - exact (set_all_last_write [("a", "1"); ("b", "2"); ("a", "3")]%string
             DatabaseConfiguration_new "a" new_store_ok).
  - exact (set_all_last_write [("a", "1"); ("b", "2"); ("a", "3")]%string
             DatabaseConfiguration_new "c" new_store_ok).
Defined.



Lemma clear_of_marker_witness :
  initialized marker_only = true /\
  initialized (after (clear marker_range) marker_only) = false /\
  isValid (after (clear marker_range) marker_only) = false /\
  (forall b, fst (clear marker_range marker_only) = Normal b -> b = isValid marker_only).
Proof.
  split; [vm_compute; reflexivity |].
  apply (clear_of_marker marker_only marker_range).
  - exact marker_only_store_ok.
  - vm_compute. reflexivity.
  - intros k v Hg Hc.
    destruct (String.eqb_spec k (sample_prefix ++ "initialized")) as [-> | Hne].
    + vm_compute in Hc. discriminate Hc.
    + unfold marker_only in Hg.
      rewrite get_after_set_other in Hg by (exact new_store_ok || exact Hne).
      discriminate Hg.
Defined.

Lemma toMap_modes_total_witness :
  exists m, toMap sample_state = Normal m /\
    (exists v, In v redundancy_modes /\ StdMap.find "redundancy_mode" m = Some v) /\
    (exists v, In v storage_engines /\ StdMap.find "storage_engine" m = Some v) /\
    (exists v, In v satellite_redundancy_modes /\
               StdMap.find "satellite_redundancy_mode" m = Some v) /\
    (exists v, In v remote_redundancy_modes /\
               StdMap.find "remote_redundancy_mode" m = Some v).
Proof.
  eexists. split; [vm_compute; reflexivity |].
  apply (toMap_modes_total sample_state).
  - vm_compute. reflexivity.
  - vm_compute. reflexivity.
Defined.

Lemma toMap_safe_when_valid_witness :
  exists m, toMap sample_state = Normal m /\ toString sample_state = Normal (display m) /\
            m <> [].
Proof.
  apply (toMap_safe_when_valid sample_state). vm_compute. reflexivity.
Defined.

Lemma toMap_keys_witness :
  exists m, toMap sample_state = Normal m /\
    (initialized sample_state = false ->
     m = [] /\ toString sample_state = Normal ""%string) /\
    (forall k v, In (k, v) m -> In k canonical_keys).
Proof.
  eexists. split; [vm_compute; reflexivity |].
  apply (toMap_keys sample_state). vm_compute. reflexivity.
Defined.

Lemma toMap_passthrough_witness :
  exists m, toMap explicit_counts = Normal m /\
    StdMap.find "proxies" m = Some "2"%string /\
    StdMap.find "resolvers" m = Some "1"%string /\
    StdMap.find "logs" m = Some "3"%string /\
    StdMap.find "primary_dc" m = None /\
    StdMap.find "remote_dc" m = None.
Proof.
  eexists. split; [vm_compute; reflexivity |].
  apply (toMap_passthrough explicit_counts).
  - vm_compute. reflexivity.
  - vm_compute. reflexivity.
Defined.

Lemma setInternal_unknown_key_witness :
  setInternal (sample_prefix ++ "bogus") "1" sample_state = (Normal false, sample_state) /\
  fst (setInternal (sample_prefix ++ "logs") "1" sample_state) = Normal true.
Proof.
  split.
  - destruct (setInternal_unknown_key (sample_prefix ++ "bogus") "1" "bogus" sample_state)
      as [Hunknown _].
    + vm_compute. reflexivity.
    + apply Hunknown. intros K. destruct K; discriminate.
  - destruct (setInternal_unknown_key (sample_prefix ++ "logs") "1" "logs" sample_state)
      as [_ Hknown].
    + vm_compute. reflexivity.
    + destruct (Hknown K_logs eq_refl) as [Hret | [[H | [H | [H | H]]] _]];
        [exact Hret | discriminate H ..].
Defined.

Lemma count_text_round_trip_witness :
  masterProxyCount
    (after (set (sample_prefix ++ "proxies") (format_d 5)) DatabaseConfiguration_new) = 5 /\
  resolverCount
    (after (set (sample_prefix ++ "resolvers") (format_d 5)) DatabaseConfiguration_new) = 5 /\
  desiredTLogCount
    (after (set (sample_prefix ++ "logs") (format_d 5)) DatabaseConfiguration_new) = 5 /\
  (5 <> -1 ->
   forall key m, In key ["proxies"; "resolvers"; "logs"]%string ->
     let c' := after (set (sample_prefix ++ key) (format_d 5)) DatabaseConfiguration_new in
     initialized c' = true -> toMap c' = Normal m ->
     StdMap.find key m = Some (format_d 5)).
Proof.
  assert (H5 : - 2 ^ 31 <= 5 < 2 ^ 31) by (split; [apply Z.leb_le | apply Z.ltb_lt]; reflexivity).
  exact (count_text_round_trip 5 DatabaseConfiguration_new sample_removePrefix_strips H5).
Defined.

Lemma set_count_without_number_witness :
  (forall key, In key ["proxies"; "resolvers"; "logs"; "storage_replicas";
                       "log_replicas"]%string ->
     fst (set (sample_prefix ++ key) "three" sample_state) = Normal true) /\
  masterProxyCount (after (set (sample_prefix ++ "proxies") "three") sample_state) = 0 /\
  resolverCount (after (set (sample_prefix ++ "resolvers") "three") sample_state) = 0 /\
  desiredTLogCount (after (set (sample_prefix ++ "logs") "three") sample_state) = 0 /\
  isValid (after (set (sample_prefix ++ "storage_replicas") "three") sample_state)
    = false /\
  isValid (after (set (sample_prefix ++ "log_replicas") "three") sample_state) = false.
Proof.
  apply (set_count_without_number "three" sample_state).
  - exact sample_removePrefix_strips.
  - vm_compute. reflexivity.
Defined.

Lemma set_satellite_dcs_appends_witness :
  primarySatelliteDcIds two_satellites = [Some "a"; Some "b"]%string /\
  exists pushed,
    primarySatelliteDcIds
      (after (set (sample_prefix ++ "primary_satellite_dcs") "c,d") two_satellites) =
    (primarySatelliteDcIds two_satellites ++ pushed)%list /\
    length pushed = 2%nat /\
    Forall (fun o => present o = true) pushed.
Proof.
  split; [vm_compute; reflexivity |].
  destruct (set_satellite_dcs_appends "c,d" two_satellites sample_removePrefix_strips)
    as [Hprimary _].
  exact Hprimary.
Defined.

Lemma parse_dcs_one_comma_witness :
  parse_dcs [] "dc1,dc2" = [Some "dc1"; Some "dc2"]%string.
Proof.
  apply (parse_dcs_one_comma "dc1" "dc2" []).
  - exact sample_substr_start_length.
  - reflexivity.
  - reflexivity.
Defined.

Lemma applyMutation_get_witness :
  get (after (applyMutation sample_mutation) sample_state) (sample_prefix ++ "logs")
    = Some "4"%string /\
  get (after (applyMutation sample_mutation) sample_state)
      (sample_prefix ++ "storage_replicas") = Some "3"%string.
Proof.
  destruct (applyMutation_get sample_mutation sample_state
              (sample_prefix ++ "storage_replicas") sample_state_store_ok)
    as [Hset _].
  destruct Hset as [Hsame Hother]; [reflexivity | vm_compute; reflexivity |].
  split; [exact Hsame |].
  rewrite Hother; [vm_compute; reflexivity | vm_compute; discriminate].
Defined.

Lemma isExcludedServer_follows_store_witness :
  isExcludedServer sample_state sample_address = false /\
  isExcludedServer
    (after (set (encodeExcludedServersKey (exclusion_of_ip_port sample_address)) "") sample_state)
    sample_address = true /\
  isExcludedServer
    (after (set (encodeExcludedServersKey (exclusion_of_ip sample_address)) "") sample_state)
    sample_address = true /\
  (String.leb (range_begin excluded_range) (range_end excluded_range) = true ->
   contains excluded_range (encodeExcludedServersKey (exclusion_of_ip_port sample_address)) = true ->
   contains excluded_range (encodeExcludedServersKey (exclusion_of_ip sample_address)) = true ->
   isExcludedServer (after (clear excluded_range) sample_state) sample_address = false) /\
  isExcludedServer (makeConfigurationImmutable sample_state) sample_address
    = isExcludedServer sample_state sample_address /\
  isExcludedServer (makeConfigurationMutable sample_state) sample_address
    = isExcludedServer sample_state sample_address.
Proof.
  split; [vm_compute; reflexivity |].
  apply (isExcludedServer_follows_store sample_state sample_address "" excluded_range).
  exact sample_state_store_ok.
Defined.

Lemma getExcludedServers_members_witness :
  exists addrs,
    getExcludedServers excluded_state =
      (Normal addrs, makeConfigurationImmutable excluded_state) /\
    (forall a, In a addrs <->
       exists k v, get excluded_state k = Some v /\
                   contains excludedServersKeys k = true /\
                   decodeExcludedServersKey k = a /\ exclusion_isValid a = true) /\
    (forall k, get (after getExcludedServers excluded_state) k = get excluded_state k).
Proof.
  apply (getExcludedServers_members excluded_state). exact excluded_state_store_ok.
Defined.

Lemma one_sided_datacenter_invalid_witness :
  isValid sample_state = true /\
  (length (primarySatelliteDcIds sample_state)
     = length (remoteSatelliteDcIds sample_state) ->
   isValid (after (set (configKeysPrefix ++ "primary_satellite_dcs") "dc1") sample_state)
     = false /\
   isValid (after (set (configKeysPrefix ++ "remote_satellite_dcs") "dc1") sample_state)
     = false) /\
  (primaryDcId sample_state = None -> remoteDcId sample_state = None ->
   isValid (after (set (configKeysPrefix ++ "primary_dc") "dc1") sample_state) = false /\
   isValid (after (set (configKeysPrefix ++ "remote_dc") "dc1") sample_state) = false).
Proof.
  split; [vm_compute; reflexivity |].
  exact (one_sided_datacenter_invalid "dc1" sample_state sample_removePrefix_strips).
Defined.

End MoreConcreteInputs.
